(** * SimpleClaw marketplace: skill installer, install ledger, catalog client,
      credential resolver and sync handler

    A shallow embedding of

    - [src/plugins/skill-install.ts]  (validateSkillName,
      installSkillFromArchiveUrl, recordSkillInstall, removeSkillInstall),
    - [src/plugins/marketplace.ts]    (validateCatalog, fetchCatalog,
      searchCatalog),
    - [src/infra/gcloud-auth.ts]      (resolveGarAuthToken and its two
      strategies),
    - [src/gateway/marketplace-http.ts] (the skill half of handleSync),

    together with the properties the specification states about them.

    Conventions.  JavaScript strings are byte strings ([string]), the
    UTF-8 form of the strings of the program; the two string methods that
    depend on the Unicode tables of the engine, [toLowerCase] and [trim],
    are taken from a runtime ([JsRuntime]).  An optional property that
    holds [undefined] is identified with the absent property, as JSON
    persistence of the configuration does; it is an [option] field holding
    [None].  Objects used as dictionaries are [gmap string _]; where the
    program enumerates one, the key order comes with it.  A thrown value
    is the name of its class and its message.  Calls into the outside
    world (network, file system, child processes, the clock) take their
    outcome from an explicit oracle and are logged in a trace. *)

From Stdlib Require Import ZArith Ascii String List Bool Lia.
From stdpp Require Import base option list gmap strings fin_maps pretty.

Set Warnings "-register-all".
Local Open Scope string_scope.

(* ===================================================================== *)
(** * JavaScript strings *)
(* ===================================================================== *)

Module JsString.

(** The character [U+0022]; messages of the sources embed it around the
    offending name. *)
Definition dquote : string :=
  String (Ascii false true false false false true false false) EmptyString.

(** [`"${s}"`] *)
Definition quoted (s : string) : string := dquote ++ s ++ dquote.

(** [s.startsWith(p)] *)
Fixpoint startsWith (s p : string) {struct p} : bool :=
  match p with
  | EmptyString => true
  | String c p' =>
      match s with
      | EmptyString => false
      | String d s' => if Ascii.eqb c d then startsWith s' p' else false
      end
  end.

(** [s.includes(q)] *)
Fixpoint includes (s q : string) : bool :=
  startsWith s q
  || match s with
     | EmptyString => false
     | String _ s' => includes s' q
     end.

(** Strings of ASCII characters: every byte is below 128. *)
Definition is_ascii_char (c : ascii) : bool := (nat_of_ascii c <? 128)%nat.

Fixpoint is_ascii (s : string) : bool :=
  match s with
  | EmptyString => true
  | String c s' => is_ascii_char c && is_ascii s'
  end.

(** Lower-casing of ASCII: the letters [A]..[Z] are mapped to [a]..[z],
    every other byte is kept. *)
Definition lower_ascii (c : ascii) : ascii :=
  let n := nat_of_ascii c in
  if (65 <=? n)%nat && (n <=? 90)%nat then ascii_of_nat (n + 32) else c.

Fixpoint ascii_toLowerCase (s : string) : string :=
  match s with
  | EmptyString => EmptyString
  | String c s' => String (lower_ascii c) (ascii_toLowerCase s')
  end.

(** The white space of ASCII: TAB, LF, VT, FF, CR and SPACE. *)
Definition is_space (c : ascii) : bool :=
  let n := nat_of_ascii c in
  ((9 <=? n)%nat && (n <=? 13)%nat) || (n =? 32)%nat.

Fixpoint trimStart (s : string) : string :=
  match s with
  | EmptyString => EmptyString
  | String c s' => if is_space c then trimStart s' else s
  end.

Fixpoint trimEnd (s : string) : string :=
  match s with
  | EmptyString => EmptyString
  | String c s' =>
      match trimEnd s' with
      | EmptyString => if is_space c then EmptyString else String c EmptyString
      | t => String c t
      end
  end.

(** Trimming of ASCII white space at both ends. *)
Definition ascii_trim (s : string) : string := trimEnd (trimStart s).

(** [s.toLowerCase()] and [s.trim()] follow the Unicode tables of the
    engine (lower-casing reaches accented and non-Latin letters, trimming
    also removes the no-break space, the byte-order mark and the Unicode
    space separators), so they are taken from the runtime.  What the
    development relies on is what every engine guarantees: on strings of
    ASCII characters they are the two functions above, and lower-casing a
    lower-cased string changes nothing. *)
Record JsRuntime : Type := mkJsRuntime {
  toLowerCase : string -> string;           (* s.toLowerCase() *)
  trim : string -> string;                  (* s.trim() *)
  toLowerCase_ascii :
    forall s, is_ascii s = true -> toLowerCase s = ascii_toLowerCase s;
  toLowerCase_idem :
    forall s, toLowerCase (toLowerCase s) = toLowerCase s;
  trim_ascii :
    forall s, is_ascii s = true -> trim s = ascii_trim s
}.

(** Truthiness of a string: [!s] holds exactly for the empty string. *)
Definition truthy (s : string) : bool :=
  match s with EmptyString => false | _ => true end.

(** The declarative reading of [includes]. *)
Definition contains (s q : string) : Prop :=
  exists pre post, s = pre ++ q ++ post.

(** A runtime that leaves every byte outside ASCII alone.  It agrees with
    the engine on the strings of ASCII characters, and is used to evaluate
    the functions on such strings. *)
Definition ascii_runtime : JsRuntime.
Proof.
  refine {| toLowerCase := ascii_toLowerCase; trim := ascii_trim |}.
  - reflexivity.
  - induction s as [|c s IH]; simpl; [reflexivity|]. f_equal; [|exact IH].
    destruct c as [[] [] [] [] [] [] [] []]; vm_compute; reflexivity.
  - reflexivity.
Defined.

End JsString.

Import JsString.

(* ===================================================================== *)
(** * JSON values (bodies of fetched documents, opaque configuration
      fields) *)
(* ===================================================================== *)

Inductive Json : Type :=
  | JNull
  | JBool (b : bool)
  | JNum (n : Z)
  | JStr (s : string)
  | JArr (items : list Json)
  | JObj (fields : list (string * Json)).

(* ===================================================================== *)
(** * Configuration document *)
(* ===================================================================== *)

Inductive SkillSource : Type := SrcMarketplace | SrcArchive.

(** [SkillInstallRecord] of [config/types.skills.ts]. *)
(** Modelled from the spec: the declaration of the record type is not part
    of the sources at hand; the fields are those the data model lists
    ([source], [version], optional [archiveUrl], [installedAt]), with
    [installedAt] optional on input as [recordSkillInstall] tests it for
    absence. *)
Record SkillInstallRecord : Type := mkSkillInstallRecord {
  source : SkillSource;
  version : string;
  archiveUrl : option string;
  installedAt : option string
}.

(** [cfg.skills]: the install ledger and the fields the ledger never reads
    ([allowBundled], [entries], ...). *)
Record SkillsConfig : Type := mkSkillsConfig {
  installs : option (gmap string SkillInstallRecord);
  skills_rest : gmap string Json
}.

(** [PrivateRegistryConfig] of [config/types.plugins.ts]. *)
Inductive AuthMethod : Type := GcloudAdc | Token | Npmrc.

Record PrivateRegistryConfig : Type := mkPrivateRegistryConfig {
  catalogUrl : option string;
  authMethod : option AuthMethod;
  authToken : option string;
  registry_rest : gmap string Json
}.

Record PluginsConfig : Type := mkPluginsConfig {
  registry : option PrivateRegistryConfig;
  plugins_rest : gmap string Json
}.

Record SimpleClawConfig : Type := mkSimpleClawConfig {
  skills : option SkillsConfig;
  plugins : option PluginsConfig;
  cfg_rest : gmap string Json
}.

(** The object [{}]. *)
Definition empty_config : SimpleClawConfig :=
  {| skills := None; plugins := None; cfg_rest := ∅ |}.

(** What [{ ...cfg.skills }] spreads when [cfg.skills] is undefined. *)
Definition empty_skills : SkillsConfig :=
  {| installs := None; skills_rest := ∅ |}.

(** [cfg.skills?.installs ?? {}] *)
Definition skill_installs (cfg : SimpleClawConfig) : gmap string SkillInstallRecord :=
  default ∅ (s ← skills cfg; installs s).

(* ===================================================================== *)
(** * Install ledger ([skill-install.ts], config helpers) *)
(* ===================================================================== *)

(** [recordSkillInstall(cfg, { skillName, ...record })]; [now] is the value
    of [new Date().toISOString()] at the call. *)
Definition recordSkillInstall (now : string) (cfg : SimpleClawConfig)
    (skillName : string) (record : SkillInstallRecord) : SimpleClawConfig :=
  let s := default empty_skills (skills cfg) in
  let stored :=
    {| source := source record;
       version := version record;
       archiveUrl := archiveUrl record;
       installedAt := Some (default now (installedAt record)) |} in
  {| skills :=
       Some {| installs := Some (<[skillName := stored]> (default ∅ (installs s)));
               skills_rest := skills_rest s |};
     plugins := plugins cfg;
     cfg_rest := cfg_rest cfg |}.

(** [removeSkillInstall(cfg, skillName)] *)
Definition removeSkillInstall (cfg : SimpleClawConfig) (skillName : string)
    : SimpleClawConfig :=
  let s := default empty_skills (skills cfg) in
  let remaining := delete skillName (default ∅ (installs s)) in
  {| skills :=
       Some {| installs :=
                 if (0 <? size remaining)%nat then Some remaining else None;
               skills_rest := skills_rest s |};
     plugins := plugins cfg;
     cfg_rest := cfg_rest cfg |}.

(** The configuration with its skills sub-tree made explicit and an empty
    ledger dropped: what a record/remove round trip leaves behind. *)
Definition prune_installs (cfg : SimpleClawConfig) : SimpleClawConfig :=
  let s := default empty_skills (skills cfg) in
  {| skills :=
       Some {| installs :=
                 match installs s with
                 | Some m => if (0 <? size m)%nat then Some m else None
                 | None => None
                 end;
               skills_rest := skills_rest s |};
     plugins := plugins cfg;
     cfg_rest := cfg_rest cfg |}.

(** A record without its [installedAt]. *)
Definition unstamped (r : SkillInstallRecord) : SkillInstallRecord :=
  {| source := source r; version := version r;
     archiveUrl := archiveUrl r; installedAt := None |}.

(** A configuration that has a skills sub-tree whose ledger is absent or
    non-empty. *)
Definition ledger_canonical (cfg : SimpleClawConfig) : Prop :=
  exists s, skills cfg = Some s /\ installs s <> Some ∅.

(* ===================================================================== *)
(** * Effects: completions, outcomes of external calls, traces *)
(* ===================================================================== *)

(** A thrown value: the [name] of its class ([Error], [TypeError],
    [AbortError], ...) and its [message].  A thrown value that is no
    [Error] is the pair of the empty name and its string form, so that both
    readings below give that string. *)
Record Err : Type := mkErr {
  err_name : string;
  err_message : string
}.

(** [new Error(message)] *)
Definition Error (message : string) : Err :=
  {| err_name := "Error"; err_message := message |}.

(** [err instanceof Error ? err.message : String(err)] *)
Definition message_of (e : Err) : string := err_message e.

(** [String(err)], that is [Error.prototype.toString]: the name and the
    message joined by a colon, or the one of them that is not empty. *)
Definition String_of_err (e : Err) : string :=
  if negb (truthy (err_name e)) then err_message e
  else if negb (truthy (err_message e)) then err_name e
  else err_name e ++ ": " ++ err_message e.

(** How an awaited external call settles. *)
Inductive Outcome (A : Type) : Type :=
  | Resolved (a : A)
  | Rejected (e : Err).
Arguments Resolved {A} a.
Arguments Rejected {A} e.

(** How a block of statements completes: it runs to its end with a value,
    executes [return r], or throws. *)
Inductive Completion (R A : Type) : Type :=
  | Normal (a : A)
  | Return (r : R)
  | Throw (e : Err).
Arguments Normal {R A} a.
Arguments Return {R A} r.
Arguments Throw {R A} e.

(** Calls that leave the process. *)
Inductive Event : Type :=
  | EvMkdtemp (prefix : string)
  | EvGuardedFetch (url : string) (authorization : option string) (timeoutMs : N)
  | EvArrayBuffer
  | EvWriteFile (path : string) (data : list Byte.byte)
  | EvRelease
  | EvEnsureDir (path : string)
  | EvExtractArchive (archivePath destDir : string) (timeoutMs : N) (stripComponents : nat)
  | EvStat (path : string)
  | EvRm (path : string)
  | EvCp (src dest : string)
  | EvFetch (url : string) (headers : list (string * string)) (timeoutMs : N)
  | EvJson
  | EvRunCommand (argv : list string) (timeoutMs : N).

Module Eff.

(** A block with result type [A] inside a function returning [R]: its
    completion and the calls it made, in order. *)
Definition M (R A : Type) : Type := Completion R A * list Event.

Definition ret {R A} (a : A) : M R A := (Normal a, []).

Definition bind {R A B} (m : M R A) (k : A -> M R B) : M R B :=
  match m with
  | (Normal a, t) => let '(c, t') := k a in (c, (t ++ t')%list)
  | (Return r, t) => (Return r, t)
  | (Throw e, t) => (Throw e, t)
  end.

(** [return r;] *)
Definition return_ {R A} (r : R) : M R A := (Return r, []).

(** [throw new Error(message);] *)
Definition throw {R A} (message : string) : M R A := (Throw (Error message), []).

(** [await f(...)]: the call is logged and settles as the oracle says. *)
Definition call {R A} (ev : Event) (o : Outcome A) : M R A :=
  match o with
  | Resolved a => (Normal a, [ev])
  | Rejected e => (Throw e, [ev])
  end.

(** [await f(...).catch(() => {})] *)
Definition call_swallow {R A} (ev : Event) (o : Outcome A) : M R unit :=
  (Normal tt, [ev]).

(** [try { m } catch (err) { h err }] *)
Definition try_catch {R A} (m : M R A) (h : Err -> M R A) : M R A :=
  match m with
  | (Throw e, t) => let '(c, t') := h e in (c, (t ++ t')%list)
  | other => other
  end.

(** [try { m } finally { f }]: the finaliser always runs; when it
    completes abruptly its completion replaces that of the block. *)
Definition try_finally {R A} (m : M R A) (f : M R unit) : M R A :=
  let '(c, t) := m in
  match f with
  | (Normal _, t') => (c, (t ++ t')%list)
  | (Return r, t') => (Return r, (t ++ t')%list)
  | (Throw e, t') => (Throw e, (t ++ t')%list)
  end.

Definition trace {R A} (m : M R A) : list Event := snd m.

(** [await f(...)] for a modelled [async] function [f] with body [m]:
    its return value is the value of the call, its rejection a throw at
    the call. *)
Definition await {R R'} (dflt : R') (m : M R' unit) : M R R' :=
  match m with
  | (Normal _, t) => (Normal dflt, t)
  | (Return r, t) => (Normal r, t)
  | (Throw e, t) => (Throw e, t)
  end.

End Eff.

Notation "x <- m ;; k" := (Eff.bind m (fun x => k))
  (at level 100, m at next level, right associativity, only parsing).
Notation "m ;;; k" := (Eff.bind m (fun _ => k))
  (at level 100, right associativity, only parsing).

(* ===================================================================== *)
(** * Archive installer ([skill-install.ts]) *)
(* ===================================================================== *)

(** What the installer takes from Node and from [utils.ts]. *)
Record Platform : Type := mkPlatform {
  path_join : string -> string -> string;   (* path.join *)
  os_tmpdir : string;                       (* os.tmpdir() *)
  CONFIG_DIR : string                       (* utils.CONFIG_DIR *)
}.

Inductive SkillInstallResult : Type :=
  | InstallSuccess (skillName targetDir : string)   (* { ok: true, ... } *)
  | InstallFailure (error : string).                (* { ok: false, error } *)

Definition DOWNLOAD_TIMEOUT_MS : N := 60000.
Definition EXTRACT_TIMEOUT_MS : N := 30000.

(** [resolveGcsUrl]: [gs://bucket/path] is rewritten to the public HTTPS
    endpoint, any other URL is kept. *)
Definition resolveGcsUrl (url : string) : string :=
  if negb (startsWith url "gs://") then url
  else
    let withoutScheme := String.substring 5 (String.length url - 5) url in
    "https://storage.googleapis.com/" ++ withoutScheme.

(** The first test of [validateSkillName]. *)
Definition name_malformed (name : string) : bool :=
  negb (truthy name) || includes name "/" || includes name "\"
  || String.eqb name "." || String.eqb name "..".

(** [validateSkillName(name)] *)
Definition validateSkillName {R} (name : string) : Eff.M R unit :=
  if name_malformed name
  then Eff.throw ("Invalid skill name: " ++ quoted name)
  else if startsWith name "."
  then Eff.throw ("Skill name cannot start with a dot: " ++ quoted name)
  else Eff.ret tt.

(** The [Response] the guarded fetch resolves with. *)
Record Response : Type := mkResponse {
  resp_ok : bool;
  resp_status : nat;
  resp_statusText : string;
  resp_arrayBuffer : Outcome (list Byte.byte)
}.

(** Outcomes of the calls one run of the installer can make. *)
Record InstallWorld : Type := mkInstallWorld {
  w_mkdtemp : Outcome string;          (* fs.mkdtemp: the directory made *)
  w_fetch : Outcome Response;          (* fetchWithSsrFGuard *)
  w_release : Outcome unit;            (* release() *)
  w_writeFile : Outcome unit;          (* fs.writeFile(archivePath, ...) *)
  w_ensureExtractDir : Outcome unit;   (* ensureDir(extractDir) *)
  w_extract : Outcome unit;            (* extractArchive *)
  w_statSkillMd : Outcome unit;        (* fs.stat(skillMdPath) *)
  w_rmTarget : Outcome unit;           (* fs.rm(targetDir) *)
  w_ensureManagedDir : Outcome unit;   (* ensureDir(managedSkillsDir) *)
  w_cp : Outcome unit;                 (* fs.cp(extractDir, targetDir) *)
  w_rmTmp : Outcome unit               (* fs.rm(tmpDir) *)
}.

Record InstallParams : Type := mkInstallParams {
  p_name : string;
  p_archiveUrl : string;
  p_managedSkillsDir : option string;
  p_authToken : option string
}.

(** [params.managedSkillsDir ?? path.join(CONFIG_DIR, "skills")] *)
Definition managed_dir_of (pf : Platform) (params : InstallParams) : string :=
  default (path_join pf (CONFIG_DIR pf) "skills") (p_managedSkillsDir params).

(** [path.join(managedSkillsDir, name)] *)
Definition target_dir_of (pf : Platform) (params : InstallParams) : string :=
  path_join pf (managed_dir_of pf params) (p_name params).

(** The [Authorization] header of the download, set when the token is
    truthy. *)
Definition bearer_of (token : option string) : option string :=
  match token with
  | Some t => if truthy t then Some ("Bearer " ++ t) else None
  | None => None
  end.

Definition MISSING_SKILL_MD : string :=
  "Archive does not contain a SKILL.md file. Not a valid skill package.".

(** Lines 91-109: the fetch and the block guarded by [release()]. *)
Definition download {R} (w : InstallWorld) (url : string)
    (authorization : option string) (archivePath : string)
    (fail : string -> R) : Eff.M R unit :=
  response <- Eff.call (EvGuardedFetch url authorization DOWNLOAD_TIMEOUT_MS) (w_fetch w) ;;
  Eff.try_finally
    (if negb (resp_ok response)
     then Eff.return_
            (fail ("Download failed: " ++ pretty (resp_status response)
                   ++ " " ++ resp_statusText response))
     else
       arrayBuffer <- Eff.call EvArrayBuffer (resp_arrayBuffer response) ;;
       Eff.call (EvWriteFile archivePath arrayBuffer) (w_writeFile w))
    (Eff.call EvRelease (w_release w)).

(** Lines 111-141: extraction into the staging directory, the check for
    [SKILL.md] and the move to the target. *)
Definition unpack_and_place (pf : Platform) (w : InstallWorld)
    (params : InstallParams) (tmpDir : string)
    : Eff.M SkillInstallResult unit :=
  let name := p_name params in
  let managedSkillsDir := managed_dir_of pf params in
  let targetDir := target_dir_of pf params in
  let archivePath := path_join pf tmpDir (name ++ ".tar.gz") in
  let extractDir := path_join pf tmpDir "extracted" in
  Eff.call (EvEnsureDir extractDir) (w_ensureExtractDir w) ;;;
  Eff.call (EvExtractArchive archivePath extractDir EXTRACT_TIMEOUT_MS 1) (w_extract w) ;;;
  let skillMdPath := path_join pf extractDir "SKILL.md" in
  Eff.try_catch
    (Eff.call (EvStat skillMdPath) (w_statSkillMd w))
    (fun _ => Eff.return_ (InstallFailure MISSING_SKILL_MD)) ;;;
  Eff.call (EvRm targetDir) (w_rmTarget w) ;;;
  Eff.call (EvEnsureDir managedSkillsDir) (w_ensureManagedDir w) ;;;
  Eff.call (EvCp extractDir targetDir) (w_cp w) ;;;
  Eff.return_ (InstallSuccess name targetDir).

(** Lines 82-141: the body of the outer [try]. *)
Definition install_steps (pf : Platform) (w : InstallWorld)
    (params : InstallParams) (tmpDir : string)
    : Eff.M SkillInstallResult unit :=
  let name := p_name params in
  let url := resolveGcsUrl (p_archiveUrl params) in
  let archivePath := path_join pf tmpDir (name ++ ".tar.gz") in
  download w url (bearer_of (p_authToken params)) archivePath InstallFailure ;;;
  unpack_and_place pf w params tmpDir.

(** [installSkillFromArchiveUrl(params)]; the optional logger is left
    out. *)
Definition installSkillFromArchiveUrl (pf : Platform) (w : InstallWorld)
    (params : InstallParams) : Eff.M SkillInstallResult unit :=
  let name := p_name params in
  Eff.try_catch (validateSkillName name)
    (fun err => Eff.return_ (InstallFailure (message_of err))) ;;;
  tmpDir <- Eff.call
              (EvMkdtemp (path_join pf (os_tmpdir pf) ("simpleclaw-skill-" ++ name ++ "-")))
              (w_mkdtemp w) ;;
  Eff.try_finally
    (Eff.try_catch
       (install_steps pf w params tmpDir)
       (fun err => Eff.return_ (InstallFailure (message_of err))))
    (Eff.call_swallow (EvRm tmpDir) (w_rmTmp w)).

(** The names the first test of the validation is meant for, and the names
    with a leading dot. *)
Definition malformed_name (name : string) : Prop :=
  name = "" \/ contains name "/" \/ contains name "\"
  \/ name = "." \/ name = "..".

Definition dot_name (name : string) : Prop :=
  exists rest, name = "." ++ rest.

(** The names outside the rejected set. *)
Definition acceptable_name (name : string) : Prop :=
  name <> "" /\ ~ contains name "/" /\ ~ contains name "\"
  /\ name <> "." /\ name <> ".." /\ ~ dot_name name.

(** A world in which every call of the installer resolves and the
    download answers with a success status. *)
Definition resolving_world (tmpDir : string) (status : nat)
    (statusText : string) (body : list Byte.byte) : InstallWorld :=
  {| w_mkdtemp := Resolved tmpDir;
     w_fetch := Resolved {| resp_ok := true; resp_status := status;
                            resp_statusText := statusText;
                            resp_arrayBuffer := Resolved body |};
     w_release := Resolved tt;
     w_writeFile := Resolved tt;
     w_ensureExtractDir := Resolved tt;
     w_extract := Resolved tt;
     w_statSkillMd := Resolved tt;
     w_rmTarget := Resolved tt;
     w_ensureManagedDir := Resolved tt;
     w_cp := Resolved tt;
     w_rmTmp := Resolved tt |}.

(** A run in which the archive is downloaded and extracted but the staging
    directory has no [SKILL.md]: [fs.stat] rejects. *)
Definition extracted_without_marker (w : InstallWorld) (tmpDir : string)
    (response : Response) (body : list Byte.byte) : Prop :=
  w_mkdtemp w = Resolved tmpDir
  /\ w_fetch w = Resolved response
  /\ resp_ok response = true
  /\ resp_arrayBuffer response = Resolved body
  /\ w_writeFile w = Resolved tt
  /\ w_release w = Resolved tt
  /\ w_ensureExtractDir w = Resolved tt
  /\ w_extract w = Resolved tt
  /\ exists e, w_statSkillMd w = Rejected e.

(** What the [catch] around [install_steps] makes of its completion. *)
Definition caught (c : Completion SkillInstallResult unit)
    : Completion SkillInstallResult unit :=
  match c with
  | Throw e => Return (InstallFailure (message_of e))
  | other => other
  end.

(** Number of [release()] calls in a trace. *)
Definition is_release (ev : Event) : bool :=
  match ev with EvRelease => true | _ => false end.

Definition release_count (t : list Event) : nat :=
  length (List.filter is_release t).

(* ===================================================================== *)
(** * Catalog client ([marketplace.ts]) *)
(* ===================================================================== *)

Inductive PluginKind : Type := KChannel | KTool | KMemory | KProvider.

Record MarketplacePluginEntry : Type := mkPluginEntry {
  pe_id : string;
  pe_name : string;
  pe_description : string;
  pe_npmSpec : string;
  pe_version : string;
  pe_kind : PluginKind;
  pe_tags : option (list string)
}.

(** [archiveUrl] is declared a string; the handlers test it for falsiness,
    so a catalog that leaves it out is representable. *)
Record MarketplaceSkillEntry : Type := mkSkillEntry {
  se_name : string;
  se_description : string;
  se_archiveUrl : option string;
  se_version : string;
  se_tags : option (list string)
}.

Record MarketplaceCatalog : Type := mkCatalog {
  cat_version : Z;
  cat_updatedAt : string;
  cat_registry : string;
  cat_plugins : list MarketplacePluginEntry;
  cat_skills : list MarketplaceSkillEntry
}.

Record SearchResult : Type := mkSearchResult {
  sr_plugins : list MarketplacePluginEntry;
  sr_skills : list MarketplaceSkillEntry
}.

(** [tags?.some((t) => t.toLowerCase().includes(q))]; [undefined] is
    falsy. *)
Definition tags_some (js : JsRuntime)
    (q : string) (tags : option (list string)) : bool :=
  match tags with
  | Some ts => existsb (fun t => includes (toLowerCase js t) q) ts
  | None => false
  end.

Definition plugin_matches (js : JsRuntime)
    (q : string) (p : MarketplacePluginEntry) : bool :=
  includes (toLowerCase js (pe_id p)) q
  || includes (toLowerCase js (pe_name p)) q
  || includes (toLowerCase js (pe_description p)) q
  || tags_some js q (pe_tags p).

Definition skill_matches (js : JsRuntime)
    (q : string) (s : MarketplaceSkillEntry) : bool :=
  includes (toLowerCase js (se_name s)) q
  || includes (toLowerCase js (se_description s)) q
  || tags_some js q (se_tags s).

(** [searchCatalog(catalog, query)] *)
Definition searchCatalog (js : JsRuntime)
    (catalog : MarketplaceCatalog) (query : string)
    : SearchResult :=
  let q := toLowerCase js query in
  {| sr_plugins := List.filter (plugin_matches js q) (cat_plugins catalog);
     sr_skills := List.filter (skill_matches js q) (cat_skills catalog) |}.

(** The declarative reading of a match: the lower-cased field contains the
    lower-cased query. *)
Definition contains_ci (js : JsRuntime) (field query : string) : Prop :=
  contains (toLowerCase js field) (toLowerCase js query).

(** Reading a match without the runtime, for strings of ASCII characters:
    two letters are the same up to case when they are equal or one is a
    capital [A]..[Z] and the other its small letter, 32 further on; a field
    matches when one of its substrings is the query up to the case of its
    letters. *)
Definition is_capital (c : ascii) : Prop :=
  (65 <= nat_of_ascii c)%nat /\ (nat_of_ascii c <= 90)%nat.

Definition same_letter (c d : ascii) : Prop :=
  c = d
  \/ (is_capital c /\ nat_of_ascii d = (nat_of_ascii c + 32)%nat)
  \/ (is_capital d /\ nat_of_ascii c = (nat_of_ascii d + 32)%nat).

Inductive same_ignoring_case : string -> string -> Prop :=
  | sic_nil : same_ignoring_case "" ""
  | sic_cons c d s t :
      same_letter c d -> same_ignoring_case s t ->
      same_ignoring_case (String c s) (String d t).

Definition occurs_ignoring_case (field query : string) : Prop :=
  exists pre mid post,
    field = pre ++ mid ++ post /\ same_ignoring_case mid query.

Definition some_tag_contains_ci (js : JsRuntime)
    (tags : option (list string)) (query : string) : Prop :=
  exists ts t, tags = Some ts /\ In t ts /\ contains_ci js t query.

Definition plugin_hit (js : JsRuntime)
    (query : string) (p : MarketplacePluginEntry) : Prop :=
  contains_ci js (pe_id p) query \/ contains_ci js (pe_name p) query
  \/ contains_ci js (pe_description p) query
  \/ some_tag_contains_ci js (pe_tags p) query.

Definition skill_hit (js : JsRuntime)
    (query : string) (s : MarketplaceSkillEntry) : Prop :=
  contains_ci js (se_name s) query \/ contains_ci js (se_description s) query
  \/ some_tag_contains_ci js (se_tags s) query.

(** Property access [body.k] on a parsed JSON value: only objects carry
    named fields (a parsed object has each key once). *)
Fixpoint assoc (fields : list (string * Json)) (k : string) : option Json :=
  match fields with
  | [] => None
  | (k', v) :: rest => if String.eqb k' k then Some v else assoc rest k
  end.

Definition js_prop (body : Json) (k : string) : option Json :=
  match body with
  | JObj fields => assoc fields k
  | _ => None
  end.

(** [!body || typeof body !== "object"] is false exactly for arrays and
    objects. *)
Definition is_object (body : Json) : bool :=
  match body with JArr _ | JObj _ => true | _ => false end.

(** [typeof v === "number"] *)
Definition is_number (v : option Json) : bool :=
  match v with Some (JNum _) => true | _ => false end.

(** [Array.isArray(v)] *)
Definition is_array (v : option Json) : bool :=
  match v with Some (JArr _) => true | _ => false end.

(** [validateCatalog(body)] *)
Definition validateCatalog {R} (body : Json) : Eff.M R unit :=
  if negb (is_object body)
  then Eff.throw "Invalid catalog: expected an object"
  else if negb (is_number (js_prop body "version"))
  then Eff.throw "Invalid catalog: missing 'version' field"
  else if negb (is_array (js_prop body "plugins"))
  then Eff.throw "Invalid catalog: missing 'plugins' array"
  else if negb (is_array (js_prop body "skills"))
  then Eff.throw "Invalid catalog: missing 'skills' array"
  else Eff.ret tt.

(** The structural conditions the validation is after. *)
Definition numeric_version (body : Json) : Prop :=
  exists n, js_prop body "version" = Some (JNum n).

Definition array_field (body : Json) (k : string) : Prop :=
  exists items, js_prop body k = Some (JArr items).

Definition FETCH_TIMEOUT_MS : N := 15000.

Record CatalogResponse : Type := mkCatalogResponse {
  cr_ok : bool;
  cr_status : nat;
  cr_statusText : string;
  cr_json : Outcome Json
}.

(** [fetchCatalog({ catalogUrl, authToken })]; [fetched] is how the global
    [fetch] settles. *)
Definition fetchCatalog (fetched : Outcome CatalogResponse)
    (catalogUrl : string) (authToken : option string) : Eff.M Json unit :=
  let url := resolveGcsUrl catalogUrl in
  let headers :=
    match bearer_of authToken with
    | Some b => [("Authorization", b)]
    | None => []
    end in
  res <- Eff.call (EvFetch url headers FETCH_TIMEOUT_MS) fetched ;;
  if negb (cr_ok res)
  then Eff.throw ("Failed to fetch catalog from " ++ url ++ ": "
                  ++ pretty (cr_status res) ++ " " ++ cr_statusText res)
  else
    body <- Eff.call EvJson (cr_json res) ;;
    validateCatalog body ;;;
    Eff.return_ body.

(* ===================================================================== *)
(** * Credential resolver ([gcloud-auth.ts]) *)
(* ===================================================================== *)

Definition GCE_METADATA_BASE : string :=
  "http://metadata.google.internal/computeMetadata/v1".
Definition METADATA_TOKEN_PATH : string :=
  "/instance/service-accounts/default/token".
Definition METADATA_TIMEOUT_MS : N := 3000.
Definition GCLOUD_TIMEOUT_MS : N := 10000.

(** The one field of [GceTokenResponse] that is read; [None] when the
    body carries none. *)
Record GceTokenResponse : Type := mkGceTokenResponse {
  access_token : option string
}.

Record MetadataResponse : Type := mkMetadataResponse {
  md_ok : bool;
  md_json : Outcome GceTokenResponse
}.

(** What [runCommandWithTimeout] resolves with; [None] is the [null] exit
    code of a killed process. *)
Record CommandResult : Type := mkCommandResult {
  cmd_code : option Z;
  cmd_stdout : string
}.

Record AuthWorld : Type := mkAuthWorld {
  w_metadata : Outcome MetadataResponse;   (* fetch(metadata endpoint) *)
  w_gcloud : Outcome CommandResult         (* runCommandWithTimeout *)
}.

(** [v || null] on an optional string. *)
Definition or_null (v : option string) : option string :=
  match v with
  | Some t => if truthy t then Some t else None
  | None => None
  end.

Definition metadata_request : Event :=
  EvFetch (GCE_METADATA_BASE ++ METADATA_TOKEN_PATH)
          [("Metadata-Flavor", "Google")] METADATA_TIMEOUT_MS.

Definition gcloud_request : Event :=
  EvRunCommand ["gcloud"; "auth"; "print-access-token"] GCLOUD_TIMEOUT_MS.

(** Truthiness of a [string | null]. *)
Definition truthy_opt (v : option string) : bool :=
  match v with
  | Some t => truthy t
  | None => false
  end.

(** [fetchMetadataToken()] *)
Definition fetchMetadataToken (w : AuthWorld) : Eff.M (option string) unit :=
  Eff.try_catch
    (res <- Eff.call metadata_request (w_metadata w) ;;
     if negb (md_ok res) then Eff.return_ None
     else
       body <- Eff.call EvJson (md_json res) ;;
       Eff.return_ (or_null (access_token body)))
    (fun _ => Eff.return_ None).

(** [fetchGcloudCliToken()] *)
Definition fetchGcloudCliToken (js : JsRuntime)
    (w : AuthWorld) : Eff.M (option string) unit :=
  Eff.try_catch
    (result <- Eff.call gcloud_request (w_gcloud w) ;;
     if negb (bool_decide (cmd_code result = Some 0%Z)) then Eff.return_ None
     else
       let token := trim js (cmd_stdout result) in
       Eff.return_ (or_null (Some token)))
    (fun _ => Eff.return_ None).

(** [resolveGarAuthToken()] *)
Definition resolveGarAuthToken (js : JsRuntime)
    (w : AuthWorld) : Eff.M (option string) unit :=
  metadataToken <- Eff.await None (fetchMetadataToken w) ;;
  if truthy_opt metadataToken then Eff.return_ metadataToken
  else
    cliToken <- Eff.await None (fetchGcloudCliToken js w) ;;
    if truthy_opt cliToken then Eff.return_ cliToken
    else Eff.return_ None.

(** What each strategy finds, read off the world: the declarative side of
    the resolver. *)
Definition metadata_token (w : AuthWorld) : option string :=
  match w_metadata w with
  | Resolved res =>
      if md_ok res
      then match md_json res with
           | Resolved body => or_null (access_token body)
           | Rejected _ => None
           end
      else None
  | Rejected _ => None
  end.

Definition gcloud_token (js : JsRuntime) (w : AuthWorld) : option string :=
  match w_gcloud w with
  | Resolved result =>
      match cmd_code result with
      | Some 0%Z => or_null (Some (trim js (cmd_stdout result)))
      | _ => None
      end
  | Rejected _ => None
  end.

(* ===================================================================== *)
(** * Sync handler ([marketplace-http.ts], [handleSync]) *)
(* ===================================================================== *)

(** One element of the [results] array of the reply. *)
Record SyncResult : Type := mkSyncResult {
  r_id : string;
  r_type : string;
  r_status : string;
  r_from : option string;
  r_to : option string;
  r_version : option string;
  r_error : option string
}.

(** What [updateNpmInstalledPlugins] resolves with. *)
Record PluginUpdateOutcome : Type := mkPluginUpdateOutcome {
  po_pluginId : option string;
  po_status : string;
  po_currentVersion : option string;
  po_nextVersion : option string;
  po_message : string
}.

Record PluginUpdateResult : Type := mkPluginUpdateResult {
  pu_config : SimpleClawConfig;
  pu_changed : bool;
  pu_outcomes : list PluginUpdateOutcome
}.

(** [Object.entries(o)] for an object used as a dictionary: every own key
    once, with its value.  The order of enumeration (that of insertion, for
    keys that are no array indices) is not a function of the map, so the
    keys come with the object, as [order]: the entries are taken in that
    order.  Keys of the map that [order] does not list (there are none when
    [order] is the key order of the object) follow. *)
Fixpoint object_entries {V} (order : list string) (m : gmap string V)
    : list (string * V) :=
  match order with
  | [] => map_to_list m
  | k :: rest =>
      match m !! k with
      | Some v => (k, v) :: object_entries rest (delete k m)
      | None => object_entries rest m
      end
  end.

(** The collaborators of one [POST /sync]. *)
Record SyncWorld : Type := mkSyncWorld {
  sw_config : SimpleClawConfig;               (* loadConfig() *)
  sw_order : list string;                     (* the key order of
                                                 cfg.skills.installs *)
  sw_plugins : PluginUpdateResult;            (* updateNpmInstalledPlugins *)
  sw_catalog : Outcome MarketplaceCatalog;    (* fetchCatalogWithAuth *)
  sw_garToken : Outcome (option string);      (* resolveGarAuthToken *)
  sw_install : InstallParams -> Outcome SkillInstallResult;
                                              (* installSkillFromArchiveUrl *)
  sw_now : string -> string;                  (* clock when the entry of a
                                                 skill is rewritten *)
  sw_writeConfig : Outcome unit               (* writeConfigFile *)
}.

(** The variables [next], [changed] and [results] of the handler. *)
Record SyncState : Type := mkSyncState {
  st_next : SimpleClawConfig;
  st_changed : bool;
  st_results : list SyncResult
}.

(** [results.push(r)] *)
Definition push (st : SyncState) (r : SyncResult) : SyncState :=
  {| st_next := st_next st;
     st_changed := st_changed st;
     st_results := (st_results st ++ [r])%list |}.

(** Lines 413-422. *)
Definition plugin_result (o : PluginUpdateOutcome) : SyncResult :=
  {| r_id := default "unknown" (po_pluginId o);
     r_type := "plugin";
     r_status := po_status o;
     r_from := po_currentVersion o;
     r_to := po_nextVersion o;
     r_version := None;
     r_error := if String.eqb (po_status o) "error" then Some (po_message o) else None |}.

(** [cfg.plugins?.registry] *)
Definition registry_of (cfg : SimpleClawConfig) : option PrivateRegistryConfig :=
  p ← plugins cfg; registry p.

(** [resolveMarketplaceAuthToken(cfg)] *)
Definition resolveMarketplaceAuthToken (garToken : Outcome (option string))
    (cfg : SimpleClawConfig) : Outcome (option string) :=
  match registry_of cfg with
  | Some reg =>
      match authMethod reg with
      | Some GcloudAdc => garToken
      | Some Token => Resolved (or_null (authToken reg))
      | _ => Resolved None
      end
  | None => Resolved None
  end.

(** The outcome pushed for a skill the loop does not re-install. *)
Definition skill_result (id status : string) (from to ver err : option string)
    : SyncResult :=
  {| r_id := id; r_type := "skill"; r_status := status;
     r_from := from; r_to := to; r_version := ver; r_error := err |}.

(** [catalog.skills.find((s) => s.name === skillName)] *)
Definition find_skill (catalog : MarketplaceCatalog) (skillName : string)
    : option MarketplaceSkillEntry :=
  List.find (fun s => String.eqb (se_name s) skillName) (cat_skills catalog).

(** The arguments of the re-install of one skill (lines 478-482). *)
Definition install_request (skillName url : string) (token : option string)
    : InstallParams :=
  {| p_name := skillName; p_archiveUrl := url;
     p_managedSkillsDir := None; p_authToken := token |}.

(** Lines 444-509: the [for] loop over the marketplace skills.  The state
    reached is returned together with the value thrown by an install that
    rejects, which leaves the loop. *)
Fixpoint sync_loop (w : SyncWorld) (catalog : MarketplaceCatalog)
    (token : option string)
    (entries : list (string * SkillInstallRecord)) (st : SyncState)
    : SyncState * option Err :=
  match entries with
  | [] => (st, None)
  | (skillName, record) :: rest =>
      match find_skill catalog skillName with
      | None =>
          sync_loop w catalog token rest
            (push st (skill_result skillName "skipped" None None
                        (Some (version record)) (Some "No longer in catalog")))
      | Some catalogEntry =>
          if String.eqb (version record) (se_version catalogEntry)
          then
            sync_loop w catalog token rest
              (push st (skill_result skillName "unchanged" None None
                          (Some (version record)) None))
          else
            match or_null (se_archiveUrl catalogEntry) with
            | None =>
                sync_loop w catalog token rest
                  (push st (skill_result skillName "skipped" None None
                              (Some (version record)) (Some "No archive URL")))
            | Some url =>
                match sw_install w (install_request skillName url token) with
                | Rejected e => (st, Some e)
                | Resolved (InstallFailure err) =>
                    sync_loop w catalog token rest
                      (push st (skill_result skillName "error"
                                  (Some (version record)) None None (Some err)))
                | Resolved (InstallSuccess _ _) =>
                    let next :=
                      recordSkillInstall (sw_now w skillName) (st_next st) skillName
                        {| source := SrcMarketplace;
                           version := se_version catalogEntry;
                           archiveUrl := Some url;
                           installedAt := None |} in
                    sync_loop w catalog token rest
                      (push {| st_next := next; st_changed := true;
                               st_results := st_results st |}
                            (skill_result skillName "updated"
                               (Some (version record))
                               (Some (se_version catalogEntry)) None None))
                end
            end
      end
  end.

(** The outcome pushed by the [catch] of the skill half. *)
Definition catalog_failure (e : Err) : SyncResult :=
  skill_result "*" "error" None None None
    (Some ("Failed to fetch catalog: " ++ String_of_err e)).

(** [r.source === "marketplace"] *)
Definition from_marketplace (r : SkillInstallRecord) : bool :=
  match source r with SrcMarketplace => true | SrcArchive => false end.

(** [Object.entries(skillInstalls).filter(([, r]) => r.source ===
    "marketplace")], for the key order [order] of the ledger. *)
Definition marketplaceSkills (order : list string) (cfg : SimpleClawConfig)
    : list (string * SkillInstallRecord) :=
  List.filter (fun kr => from_marketplace (snd kr))
    (object_entries order (skill_installs cfg)).

(** Lines 428-519: the skill half of the handler, from the state the
    plugin half left. *)
Definition sync_skills (w : SyncWorld) (st0 : SyncState) : SyncState :=
  let cfg := sw_config w in
  let entries := marketplaceSkills (sw_order w) cfg in
  if (0 <? length entries)%nat then
    match registry_of cfg with
    | Some reg =>
        match or_null (catalogUrl reg) with
        | Some url =>
            match sw_catalog w with
            | Rejected e => push st0 (catalog_failure e)
            | Resolved catalog =>
                match resolveMarketplaceAuthToken (sw_garToken w) cfg with
                | Rejected e => push st0 (catalog_failure e)
                | Resolved token =>
                    match sync_loop w catalog token entries st0 with
                    | (st, None) => st
                    | (st, Some e) => push st (catalog_failure e)
                    end
                end
            end
        | None => st0
        end
    | None => st0
    end
  else st0.

Inductive SyncReply : Type :=
  | MethodNotAllowed                                   (* 405 *)
  | SyncOk (changed : bool) (results : list SyncResult). (* 200 *)

(** What one request leaves behind: the reply (the handler rejects when
    persisting fails), the configurations handed to [writeConfigFile], and
    the last values of [next], [changed] and [results]. *)
Record SyncRun : Type := mkSyncRun {
  run_reply : Outcome SyncReply;
  run_written : list SimpleClawConfig;
  run_next : SimpleClawConfig;
  run_changed : bool;
  run_results : list SyncResult
}.

(** [handleSync(req, res)] *)
Definition handleSync (w : SyncWorld) (method : string) : SyncRun :=
  if negb (String.eqb method "POST")
  then {| run_reply := Resolved MethodNotAllowed;
          run_written := [];
          run_next := sw_config w;
          run_changed := false;
          run_results := [] |}
  else
    let st0 :=
      {| st_next := pu_config (sw_plugins w);
         st_changed := pu_changed (sw_plugins w);
         st_results := List.map plugin_result (pu_outcomes (sw_plugins w)) |} in
    let st := sync_skills w st0 in
    if st_changed st
    then
      {| run_reply :=
           match sw_writeConfig w with
           | Resolved _ => Resolved (SyncOk true (st_results st))
           | Rejected e => Rejected e
           end;
         run_written := [st_next st];
         run_next := st_next st;
         run_changed := true;
         run_results := st_results st |}
    else
      {| run_reply := Resolved (SyncOk false (st_results st));
         run_written := [];
         run_next := st_next st;
         run_changed := false;
         run_results := st_results st |}.

(** The results the skill half contributed, after those of the plugin
    half. *)
Definition skill_results (w : SyncWorld) (run : SyncRun) : list SyncResult :=
  drop (length (pu_outcomes (sw_plugins w))) (run_results run).

(** The ledger entry of a skill. *)
Definition ledger_entry (cfg : SimpleClawConfig) (k : string)
    : option SkillInstallRecord :=
  skill_installs cfg !! k.

(** [r.status === "updated"] *)
Definition is_updated (r : SyncResult) : bool := String.eqb (r_status r) "updated".

(** The classification of one marketplace skill, with what it means for
    the ledger: [before] is the configuration the skill half started from,
    [after] the one it ended with. *)
Inductive sync_outcome (w : SyncWorld) (catalog : MarketplaceCatalog)
    (token : option string) (before after : SimpleClawConfig)
    : string * SkillInstallRecord -> SyncResult -> Prop :=
  | sync_gone k r :
      find_skill catalog k = None ->
      ledger_entry after k = ledger_entry before k ->
      sync_outcome w catalog token before after (k, r)
        (skill_result k "skipped" None None (Some (version r))
           (Some "No longer in catalog"))
  | sync_unchanged k r e :
      find_skill catalog k = Some e ->
      version r = se_version e ->
      ledger_entry after k = ledger_entry before k ->
      sync_outcome w catalog token before after (k, r)
        (skill_result k "unchanged" None None (Some (version r)) None)
  | sync_no_reference k r e :
      find_skill catalog k = Some e ->
      version r <> se_version e ->
      or_null (se_archiveUrl e) = None ->
      ledger_entry after k = ledger_entry before k ->
      sync_outcome w catalog token before after (k, r)
        (skill_result k "skipped" None None (Some (version r))
           (Some "No archive URL"))
  | sync_updated k r e url n t :
      find_skill catalog k = Some e ->
      version r <> se_version e ->
      or_null (se_archiveUrl e) = Some url ->
      sw_install w (install_request k url token) = Resolved (InstallSuccess n t) ->
      ledger_entry after k
      = Some {| source := SrcMarketplace; version := se_version e;
                archiveUrl := Some url; installedAt := Some (sw_now w k) |} ->
      sync_outcome w catalog token before after (k, r)
        (skill_result k "updated" (Some (version r)) (Some (se_version e))
           None None)
  | sync_errored k r e url err :
      find_skill catalog k = Some e ->
      version r <> se_version e ->
      or_null (se_archiveUrl e) = Some url ->
      sw_install w (install_request k url token) = Resolved (InstallFailure err) ->
      ledger_entry after k = ledger_entry before k ->
      sync_outcome w catalog token before after (k, r)
        (skill_result k "error" (Some (version r)) None None (Some err)).

(* ===================================================================== *)
(** * Catalog client, continued ([marketplace.ts]) *)
(* ===================================================================== *)

(** [m === s] for an optional string. *)
Definition opt_is (m : option string) (s : string) : bool :=
  match m with
  | Some x => String.eqb x s
  | None => false
  end.

(** [fetchCatalogWithAuth({ catalogUrl, authMethod, authToken })].  The
    resolver runs in the world [aw], the fetch settles as [fetched]. *)
Definition fetchCatalogWithAuth (js : JsRuntime) (aw : AuthWorld)
    (fetched : Outcome CatalogResponse) (catalogUrl : string)
    (method token0 : option string) : Eff.M Json unit :=
  token <- (if negb (truthy_opt token0) && opt_is method "gcloud-adc"
            then Eff.await None (resolveGarAuthToken js aw)
            else Eff.ret token0) ;;
  body <- Eff.await JNull (fetchCatalog fetched catalogUrl token) ;;
  Eff.return_ body.

(** The request [fetchCatalog] sends for a URL and a token. *)
Definition catalog_request (catalogUrl : string) (token : option string) : Event :=
  EvFetch (resolveGcsUrl catalogUrl)
    match bearer_of token with
    | Some b => [("Authorization", b)]
    | None => []
    end
    FETCH_TIMEOUT_MS.

(** The calls of the global [fetch] in a trace. *)
Definition is_fetch (ev : Event) : bool :=
  match ev with EvFetch _ _ _ => true | _ => false end.

(* ===================================================================== *)
(** * Credential resolver, continued ([gcloud-auth.ts]) *)
(* ===================================================================== *)

Definition METADATA_PROJECT_PATH : string := "/project/project-id".

Record ProjectResponse : Type := mkProjectResponse {
  pr_ok : bool;
  pr_text : Outcome string
}.

Definition project_request : Event :=
  EvFetch (GCE_METADATA_BASE ++ METADATA_PROJECT_PATH)
          [("Metadata-Flavor", "Google")] METADATA_TIMEOUT_MS.

(** An awaited promise that makes no request of its own (reading the text
    of a response already received). *)
Definition awaited {R A} (o : Outcome A) : Eff.M R A :=
  match o with
  | Resolved a => (Normal a, [])
  | Rejected e => (Throw e, [])
  end.

(** [resolveGceProjectId()] *)
Definition resolveGceProjectId (js : JsRuntime)
    (fetched : Outcome ProjectResponse)
    : Eff.M (option string) unit :=
  Eff.try_catch
    (res <- Eff.call project_request fetched ;;
     if negb (pr_ok res) then Eff.return_ None
     else
       text <- awaited (pr_text res) ;;
       Eff.return_ (or_null (Some (trim js text))))
    (fun _ => Eff.return_ None).

(** What [buildGarRegistryEnv] takes from the runtime: [new URL(s)] as the
    host and the path name of [s], or [None] when the constructor throws,
    and [Buffer.from(s).toString("base64")]. *)
Record UrlRuntime : Type := mkUrlRuntime {
  parse_url : string -> option (string * string);
  base64 : string -> string
}.

(** [s.replace(/\/$/, "/")] *)
Fixpoint replace_final_slash (s : string) : string :=
  match s with
  | EmptyString => EmptyString
  | String c s' =>
      match s' with
      | EmptyString => if Ascii.eqb c "/" then "/" else String c EmptyString
      | _ => String c (replace_final_slash s')
      end
  end.

(** [s.replace(/^https?:/, "")] *)
Definition strip_http_scheme (s : string) : string :=
  if startsWith s "https:" then String.substring 6 (String.length s - 6) s
  else if startsWith s "http:" then String.substring 5 (String.length s - 5) s
  else s.

(** [s.endsWith("/")] *)
Fixpoint ends_with_slash (s : string) : bool :=
  match s with
  | EmptyString => false
  | String c s' =>
      match s' with
      | EmptyString => Ascii.eqb c "/"
      | _ => ends_with_slash s'
      end
  end.

(** [s.replaceAll(from, to)] for one-character strings. *)
Fixpoint replaceAll (from to : ascii) (s : string) : string :=
  match s with
  | EmptyString => EmptyString
  | String c s' =>
      String (if Ascii.eqb c from then to else c) (replaceAll from to s')
  end.

(** The [registryPath] of [buildGarRegistryEnv]. *)
Definition registry_path (rt : UrlRuntime) (registryUrl : string) : string :=
  match parse_url rt registryUrl with
  | Some (host, pathname) => replace_final_slash ("//" ++ host ++ pathname)
  | None =>
      let stripped := strip_http_scheme registryUrl in
      if negb (ends_with_slash stripped) then stripped ++ "/" else stripped
  end.

(** The [envKey] of [buildGarRegistryEnv]. *)
Definition env_key (rt : UrlRuntime) (registryUrl : string) : string :=
  replaceAll ":" "_"
    (replaceAll "/" "_"
       ("npm_config_" ++ registry_path rt registryUrl ++ ":_authToken")).

(** [buildGarRegistryEnv({ registryUrl, token })] *)
Definition buildGarRegistryEnv (rt : UrlRuntime) (registryUrl token : string)
    : gmap string string :=
  <["NPM_CONFIG__AUTH" := base64 rt ("_:" ++ token)]>
    (<[env_key rt registryUrl := token]> ∅).

(* ===================================================================== *)
(** * Registry credentials ([registry-auth.ts]) *)
(* ===================================================================== *)

(** [registry.npmRegistry], one of the fields kept in [registry_rest]. *)
Definition npmRegistry_of (reg : PrivateRegistryConfig) : option string :=
  match registry_rest reg !! "npmRegistry" with
  | Some (JStr s) => Some s
  | _ => None
  end.

Record ResolvedRegistryAuth : Type := mkResolvedRegistryAuth {
  ra_registryUrl : string;
  ra_registryEnv : gmap string string
}.

(** [resolveRegistryAuth(registry)] *)
Definition resolveRegistryAuth (js : JsRuntime) (rt : UrlRuntime) (aw : AuthWorld)
    (reg : option PrivateRegistryConfig)
    : Eff.M (option ResolvedRegistryAuth) unit :=
  match reg with
  | None => Eff.return_ None
  | Some r =>
      match or_null (npmRegistry_of r) with
      | None => Eff.return_ None
      | Some registryUrl =>
          registryEnv <-
            match authMethod r with
            | Some GcloudAdc =>
                token <- Eff.await None (resolveGarAuthToken js aw) ;;
                match or_null token with
                | Some t => Eff.ret (buildGarRegistryEnv rt registryUrl t)
                | None => Eff.ret ∅
                end
            | Some Token =>
                match or_null (authToken r) with
                | Some t => Eff.ret (buildGarRegistryEnv rt registryUrl t)
                | None => Eff.ret ∅
                end
            | _ => Eff.ret ∅
            end ;;
          Eff.return_ (Some {| ra_registryUrl := registryUrl;
                               ra_registryEnv := registryEnv |})
      end
  end.

(** Strings made of white space only, and strings in which a character
    occurs. *)
Fixpoint blank (s : string) : bool :=
  match s with
  | EmptyString => true
  | String c s' => is_space c && blank s'
  end.

Fixpoint has_char (c : ascii) (s : string) : bool :=
  match s with
  | EmptyString => false
  | String d s' => Ascii.eqb d c || has_char c s'
  end.

(* ===================================================================== *)
(** * HTTP handlers ([marketplace-http.ts]) *)
(* ===================================================================== *)

(** What a handler answers with. *)
Inductive HttpReply : Type :=
  | ReplyBodyError                            (* readJsonBodyOrError answered *)
  | ReplyMethodNotAllowed (allow : string)    (* sendMethodNotAllowed *)
  | ReplyInvalidRequest (message : string)    (* sendInvalidRequest *)
  | ReplyJson (status : nat) (body : list (string * Json)).  (* sendJson *)

(** What one request leaves behind: the reply (the handler rejects when
    an awaited call outside a [try] does), the configurations handed to
    [writeConfigFile], and the outside calls made by the handler itself, by
    the credential resolver and by the archive installer.  The
    collaborators that are given by their outcome ([loadConfig],
    [fetchCatalogWithAuth], [uninstallPlugin], [doInstallPlugin]) are not
    unfolded into calls. *)
Record HandlerRun : Type := mkHandlerRun {
  h_reply : Outcome HttpReply;
  h_written : list SimpleClawConfig;
  h_trace : list Event
}.

Definition replied (r : HttpReply) : HandlerRun :=
  {| h_reply := Resolved r; h_written := []; h_trace := [] |}.

(** [typeof body.k === "string" ? body.k : undefined] *)
Definition body_string (body : Json) (k : string) : option string :=
  match js_prop body k with
  | Some (JStr s) => Some s
  | _ => None
  end.

(** [typeof body.id === "string" ? body.id.trim() : ""] *)
Definition body_id (js : JsRuntime) (body : Json) : string :=
  match body_string body "id" with
  | Some s => trim js s
  | None => ""
  end.

(** [{ ok: false, error }] *)
Definition error_body (error : string) : list (string * Json) :=
  [("ok", JBool false); ("error", JStr error)].

(** The result of [uninstallPlugin]. *)
Inductive PluginUninstallResult : Type :=
  | UninstallFailed (error : string)
  | Uninstalled (config : SimpleClawConfig) (warnings : list string).

Record UninstallWorld : Type := mkUninstallWorld {
  uw_config : SimpleClawConfig;                          (* loadConfig() *)
  uw_rm : Outcome unit;                                  (* fs.rm(skill dir) *)
  uw_uninstallPlugin : string -> Outcome PluginUninstallResult;
  uw_writeConfig : Outcome unit                          (* writeConfigFile *)
}.

(** The directory of an installed skill:
    [path.join(path.join(CONFIG_DIR, "skills"), id)]. *)
Definition skill_dir (pf : Platform) (id : string) : string :=
  path_join pf (path_join pf (CONFIG_DIR pf) "skills") id.

(** The properties a plain object inherits from [Object.prototype]: a
    read [o[k]] finds them when [o] has no own property [k]. *)
Definition OBJECT_PROTOTYPE_KEYS : list string :=
  [ "constructor"; "__proto__"; "hasOwnProperty"; "isPrototypeOf";
    "propertyIsEnumerable"; "toLocaleString"; "toString"; "valueOf";
    "__defineGetter__"; "__defineSetter__"; "__lookupGetter__";
    "__lookupSetter__" ].

Definition inherited (k : string) : bool :=
  existsb (String.eqb k) OBJECT_PROTOTYPE_KEYS.

(** Truthiness of [cfg.skills?.installs?.[id]]: the ledger, when there is
    one, holds a record under [id] or inherits a property of that name
    (records, functions and the prototype are all truthy). *)
Definition has_install (cfg : SimpleClawConfig) (id : string) : bool :=
  match skills cfg ≫= installs with
  | Some m => bool_decide (is_Some (m !! id)) || inherited id
  | None => false
  end.

(** Lines 351-365: the skill branch of [handleUninstall]. *)
Definition uninstall_skill (pf : Platform) (w : UninstallWorld) (id : string)
    : HandlerRun :=
  let cfg := uw_config w in
  if negb (has_install cfg id)
  then
      replied (ReplyJson 404
                 (error_body ("Skill " ++ quoted id ++ " is not installed")))
  else
      match uw_rm w with
      | Rejected e =>
          {| h_reply := Rejected e; h_written := [];
             h_trace := [EvRm (skill_dir pf id)] |}
      | Resolved _ =>
          let next := removeSkillInstall cfg id in
          {| h_reply :=
               match uw_writeConfig w with
               | Resolved _ =>
                   Resolved (ReplyJson 200
                               [("ok", JBool true); ("id", JStr id);
                                ("type", JStr "skill")])
               | Rejected e => Rejected e
               end;
             h_written := [next];
             h_trace := [EvRm (skill_dir pf id)] |}
      end.

(** Lines 367-383: the plugin branch of [handleUninstall]. *)
Definition uninstall_plugin (w : UninstallWorld) (id : string) : HandlerRun :=
  match uw_uninstallPlugin w id with
  | Rejected e => {| h_reply := Rejected e; h_written := []; h_trace := [] |}
  | Resolved (UninstallFailed error) => replied (ReplyJson 404 (error_body error))
  | Resolved (Uninstalled config warnings) =>
      {| h_reply :=
           match uw_writeConfig w with
           | Resolved _ =>
               Resolved (ReplyJson 200
                           ([("ok", JBool true); ("id", JStr id);
                             ("type", JStr "plugin");
                             ("restartRequired", JBool true)]
                            ++ match warnings with
                               | [] => []
                               | _ => [("warnings", JArr (List.map JStr warnings))]
                               end)%list)
           | Rejected e => Rejected e
           end;
         h_written := [config];
         h_trace := [] |}
  end.

(** [handleUninstall(req, res)]; [body] is what [readJsonBodyOrError]
    returned, [None] when it answered the request itself. *)
Definition handleUninstall (js : JsRuntime) (pf : Platform) (w : UninstallWorld)
    (method : string) (body : option Json) : HandlerRun :=
  if negb (String.eqb method "POST")
  then replied (ReplyMethodNotAllowed "POST")
  else
    match body with
    | None => replied ReplyBodyError
    | Some b =>
        let id := body_id js b in
        if negb (truthy id)
        then replied (ReplyInvalidRequest "Missing 'id' in request body")
        else
          let type := body_string b "type" in
          if negb (opt_is type "plugin") && negb (opt_is type "skill")
          then replied (ReplyInvalidRequest
                          "Missing or invalid 'type' (must be 'plugin' or 'skill')")
          else if opt_is type "skill"
          then uninstall_skill pf w id
          else uninstall_plugin w id
    end.

Record InstallHandlerWorld : Type := mkInstallHandlerWorld {
  iw_config : SimpleClawConfig;                  (* loadConfig() *)
  iw_catalog : Outcome MarketplaceCatalog;       (* fetchCatalogWithAuth *)
  iw_auth : AuthWorld;                           (* world of resolveGarAuthToken *)
  iw_install : InstallWorld;                     (* world of the archive install *)
  iw_now : string;                               (* clock at the ledger write *)
  iw_writeConfig : Outcome unit;                 (* writeConfigFile *)
  iw_installPlugin : string -> MarketplacePluginEntry -> HandlerRun
                                                 (* doInstallPlugin *)
}.

(** The ledger record [doInstallSkill] and the sync loop write. *)
Definition marketplace_record (entry : MarketplaceSkillEntry) (url : string)
    : SkillInstallRecord :=
  {| source := SrcMarketplace; version := se_version entry;
     archiveUrl := Some url; installedAt := None |}.

(** How an awaited call of a modelled [async] function settles. *)
Definition settled {A} (dflt : A) (m : Eff.M A unit) : Outcome A :=
  match fst m with
  | Return r => Resolved r
  | Normal _ => Resolved dflt
  | Throw e => Rejected e
  end.

(** The outside calls of [await resolveMarketplaceAuthToken(cfg)]: those of
    the credential resolver, which is consulted under [gcloud-adc] only. *)
Definition token_calls (js : JsRuntime) (aw : AuthWorld)
    (cfg : SimpleClawConfig) : list Event :=
  match registry_of cfg ≫= authMethod with
  | Some GcloudAdc => Eff.trace (resolveGarAuthToken js aw)
  | _ => []
  end.

(** [doInstallSkill(res, cfg, entry)] *)
Definition doInstallSkill (js : JsRuntime)
    (pf : Platform) (w : InstallHandlerWorld)
    (cfg : SimpleClawConfig) (entry : MarketplaceSkillEntry) : HandlerRun :=
  match or_null (se_archiveUrl entry) with
  | None =>
      replied (ReplyJson 400
                 (error_body ("Skill " ++ quoted (se_name entry)
                              ++ " has no archive URL")))
  | Some url =>
      let asked := token_calls js (iw_auth w) cfg in
      match resolveMarketplaceAuthToken
              (settled None (resolveGarAuthToken js (iw_auth w))) cfg with
      | Rejected e => {| h_reply := Rejected e; h_written := []; h_trace := asked |}
      | Resolved token =>
          let install :=
            installSkillFromArchiveUrl pf (iw_install w)
              (install_request (se_name entry) url token) in
          match fst install with
          | Throw e =>
              {| h_reply := Rejected e; h_written := [];
                 h_trace := (asked ++ Eff.trace install)%list |}
          | Normal _ =>
              (* a call that ends without [return] gives [undefined], on
                 which [result.ok] throws; the installer never ends so *)
              {| h_reply :=
                   Rejected {| err_name := "TypeError";
                               err_message :=
                                 "Cannot read properties of undefined (reading 'ok')" |};
                 h_written := [];
                 h_trace := (asked ++ Eff.trace install)%list |}
          | Return (InstallFailure error) =>
              {| h_reply := Resolved (ReplyJson 500 (error_body error));
                 h_written := [];
                 h_trace := (asked ++ Eff.trace install)%list |}
          | Return (InstallSuccess _ _) =>
              let next :=
                recordSkillInstall (iw_now w) cfg (se_name entry)
                  (marketplace_record entry url) in
              {| h_reply :=
                   match iw_writeConfig w with
                   | Resolved _ =>
                       Resolved (ReplyJson 200
                                   [("ok", JBool true);
                                    ("id", JStr (se_name entry));
                                    ("type", JStr "skill");
                                    ("version", JStr (se_version entry))])
                   | Rejected e => Rejected e
                   end;
                 h_written := [next];
                 h_trace := (asked ++ Eff.trace install)%list |}
          end
      end
  end.

(** [catalog.plugins.find((p) => p.id === id || p.npmSpec === id)] *)
Definition find_plugin (catalog : MarketplaceCatalog) (id : string)
    : option MarketplacePluginEntry :=
  List.find (fun p => String.eqb (pe_id p) id || String.eqb (pe_npmSpec p) id)
    (cat_plugins catalog).

(** [handleInstall(req, res)] *)
Definition handleInstall (js : JsRuntime)
    (pf : Platform) (w : InstallHandlerWorld)
    (method : string) (body : option Json) : HandlerRun :=
  if negb (String.eqb method "POST")
  then replied (ReplyMethodNotAllowed "POST")
  else
    match body with
    | None => replied ReplyBodyError
    | Some b =>
        let id := body_id js b in
        if negb (truthy id)
        then replied (ReplyInvalidRequest "Missing 'id' in request body")
        else
          let typeHint := body_string b "type" in
          let cfg := iw_config w in
          match registry_of cfg ≫= (fun reg => or_null (catalogUrl reg)) with
          | None =>
              replied (ReplyJson 500
                         (error_body "No marketplace catalog configured"))
          | Some _ =>
              match iw_catalog w with
              | Rejected e =>
                  replied (ReplyJson 502
                             (error_body ("Failed to fetch catalog: "
                                          ++ String_of_err e)))
              | Resolved catalog =>
                  let skillEntry := find_skill catalog id in
                  let pluginEntry := find_plugin catalog id in
                  match (if opt_is typeHint "skill" then skillEntry else None) with
                  | Some s => doInstallSkill js pf w cfg s
                  | None =>
                  match (if opt_is typeHint "plugin" then pluginEntry else None) with
                  | Some p => iw_installPlugin w (cat_registry catalog) p
                  | None =>
                  match pluginEntry with
                  | Some p => iw_installPlugin w (cat_registry catalog) p
                  | None =>
                  match skillEntry with
                  | Some s => doInstallSkill js pf w cfg s
                  | None =>
                      replied (ReplyJson 404
                                 (error_body (quoted id ++ " not found in catalog")))
                  end end end end
              end
          end
    end.

(* ===================================================================== *)
(** * Concrete inputs used by the examples below *)
(* ===================================================================== *)

Module Sample.

Definition t1 : string := "2026-01-01T00:00:00.000Z".
Definition t2 : string := "2026-01-02T00:00:00.000Z".

(** [{ source: "marketplace", version: "1.0.0" }] *)
Definition record : SkillInstallRecord :=
  {| source := SrcMarketplace; version := "1.0.0";
     archiveUrl := None; installedAt := None |}.

(** [{ skills: { installs: { "other-skill": {...} } } }] *)
Definition config_with_other : SimpleClawConfig :=
  {| skills :=
       Some {| installs :=
                 Some {[ "other-skill" :=
                           {| source := SrcArchive; version := "2.0.0";
                              archiveUrl := None;
                              installedAt := Some t1 |} ]};
               skills_rest := ∅ |};
     plugins := None;
     cfg_rest := ∅ |}.

(** A POSIX-like platform. *)
Definition platform : Platform :=
  {| path_join := fun a b => a ++ "/" ++ b;
     os_tmpdir := "/tmp";
     CONFIG_DIR := "/home/user/.simpleclaw" |}.

Definition world : InstallWorld :=
  resolving_world "/tmp/simpleclaw-skill-good-skill-Ab12Cd" 200 "OK" [].

Definition params_of (name : string) : InstallParams :=
  {| p_name := name;
     p_archiveUrl := "gs://bucket/skills/good-skill-1.0.0.tar.gz";
     p_managedSkillsDir := Some "/srv/skills";
     p_authToken := None |}.

(** As [world], but the extracted archive has no [SKILL.md]. *)
Definition world_without_marker : InstallWorld :=
  {| w_mkdtemp := Resolved "/tmp/simpleclaw-skill-bad-skill-Ab12Cd";
     w_fetch := Resolved {| resp_ok := true; resp_status := 200;
                            resp_statusText := "OK";
                            resp_arrayBuffer := Resolved [] |};
     w_release := Resolved tt;
     w_writeFile := Resolved tt;
     w_ensureExtractDir := Resolved tt;
     w_extract := Resolved tt;
     w_statSkillMd := Rejected (Error "ENOENT: no such file or directory");
     w_rmTarget := Resolved tt;
     w_ensureManagedDir := Resolved tt;
     w_cp := Resolved tt;
     w_rmTmp := Resolved tt |}.

(** The catalog of the test suite of [marketplace.ts]. *)
Definition MOCK_CATALOG : MarketplaceCatalog :=
  {| cat_version := 1;
     cat_updatedAt := "2026-02-25T00:00:00Z";
     cat_registry := "https://us-central1-npm.pkg.dev/project/repo";
     cat_plugins :=
       [ {| pe_id := "discord"; pe_name := "Discord";
            pe_description := "Discord channel plugin";
            pe_npmSpec := "@simpleclaw/discord"; pe_version := "1.0.0";
            pe_kind := KChannel; pe_tags := Some ["chat"; "messaging"] |};
         {| pe_id := "memory-core"; pe_name := "Memory Core";
            pe_description := "Core memory search plugin";
            pe_npmSpec := "@simpleclaw/memory-core"; pe_version := "1.0.0";
            pe_kind := KMemory; pe_tags := None |} ];
     cat_skills :=
       [ {| se_name := "runbook";
            se_description := "Internal runbook automation";
            se_archiveUrl := Some "gs://bucket/runbook.tar.gz";
            se_version := "1.0.0";
            se_tags := Some ["ops"; "automation"] |} ] |}.

(** [{ version: 1, skills: [] }]: the body of the test "throws on invalid
    catalog missing plugins array". *)
Definition body_without_plugins : Json :=
  JObj [("version", JNum 1); ("skills", JArr [])].

(** [{ plugins: [], skills: [] }] *)
Definition body_without_version : Json :=
  JObj [("plugins", JArr []); ("skills", JArr [])].

Definition ok_response (body : Json) : Outcome CatalogResponse :=
  Resolved {| cr_ok := true; cr_status := 200; cr_statusText := "OK";
              cr_json := Resolved body |}.

(** A configuration with one marketplace skill, [runbook] at 0.9.0, and
    the registry settings given. *)
Definition runbook_record : SkillInstallRecord :=
  {| source := SrcMarketplace; version := "0.9.0";
     archiveUrl := Some "gs://bucket/runbook-0.9.0.tar.gz";
     installedAt := Some t1 |}.

Definition sync_config (reg : option PrivateRegistryConfig) : SimpleClawConfig :=
  {| skills :=
       Some {| installs := Some {[ "runbook" := runbook_record ]};
               skills_rest := ∅ |};
     plugins := Some {| registry := reg; plugins_rest := ∅ |};
     cfg_rest := ∅ |}.

Definition sync_world (reg : option PrivateRegistryConfig) : SyncWorld :=
  {| sw_config := sync_config reg;
     sw_order := ["runbook"];
     sw_plugins := {| pu_config := sync_config reg; pu_changed := false;
                      pu_outcomes := [] |};
     sw_catalog := Resolved MOCK_CATALOG;
     sw_garToken := Resolved None;
     sw_install := fun params =>
       Resolved (InstallSuccess (p_name params)
                   ("/home/user/.simpleclaw/skills/" ++ p_name params));
     sw_now := fun _ => t2;
     sw_writeConfig := Resolved tt |}.

Definition registry_with_catalog : PrivateRegistryConfig :=
  {| catalogUrl := Some "gs://bucket/catalog.json"; authMethod := None;
     authToken := None; registry_rest := ∅ |}.

(** What [fetch] rejects with when the host cannot be reached. *)
Definition fetch_failed : Err :=
  {| err_name := "TypeError"; err_message := "fetch failed" |}.

(** A machine with neither a metadata server nor [gcloud]. *)
Definition no_credentials : AuthWorld :=
  {| w_metadata := Rejected fetch_failed;
     w_gcloud := Rejected (Error "spawn gcloud ENOENT") |}.

End Sample.

(* ===================================================================== *)
(** * Concrete inputs of the handler examples *)
(* ===================================================================== *)

Module HandlerSample.

(** [{ "id": " runbook ", "type": "skill" }] *)
Definition skill_body : Json :=
  JObj [("id", JStr " runbook "); ("type", JStr "skill")].

(** A world in which [runbook] is installed and every call resolves. *)
Definition uninstall_world : UninstallWorld :=
  {| uw_config := Sample.sync_config (Some Sample.registry_with_catalog);
     uw_rm := Resolved tt;
     uw_uninstallPlugin := fun _ => Resolved (UninstallFailed "Plugin not found");
     uw_writeConfig := Resolved tt |}.

(** A catalog that offers [runbook] both as a skill and as a plugin. *)
Definition both_catalog : MarketplaceCatalog :=
  {| cat_version := 1;
     cat_updatedAt := "2026-02-25T00:00:00Z";
     cat_registry := "https://us-central1-npm.pkg.dev/project/repo";
     cat_plugins :=
       [ {| pe_id := "runbook"; pe_name := "Runbook";
            pe_description := "Runbook plugin";
            pe_npmSpec := "@simpleclaw/runbook"; pe_version := "1.0.0";
            pe_kind := KTool; pe_tags := None |} ];
     cat_skills := cat_skills Sample.MOCK_CATALOG |}.

Definition plugin_installed : HandlerRun :=
  {| h_reply := Resolved (ReplyJson 200 [("ok", JBool true)]);
     h_written := []; h_trace := [] |}.

Definition install_world (catalog : MarketplaceCatalog) : InstallHandlerWorld :=
  {| iw_config := Sample.sync_config (Some Sample.registry_with_catalog);
     iw_catalog := Resolved catalog;
     iw_auth := Sample.no_credentials;
     iw_install := Sample.world;
     iw_now := Sample.t2;
     iw_writeConfig := Resolved tt;
     iw_installPlugin := fun _ _ => plugin_installed |}.

(** A configuration whose registry asks for [gcloud-adc]. *)
Definition adc_config : SimpleClawConfig :=
  {| skills := None;
     plugins :=
       Some {| registry :=
                 Some {| catalogUrl := Some "gs://bucket/catalog.json";
                         authMethod := Some GcloudAdc;
                         authToken := None; registry_rest := ∅ |};
               plugins_rest := ∅ |};
     cfg_rest := ∅ |}.

(** A catalog entry whose name would leave the managed directory. *)
Definition escaping_entry : MarketplaceSkillEntry :=
  {| se_name := "../escape"; se_description := "";
     se_archiveUrl := Some "https://example.com/skill.tar.gz";
     se_version := "1.0.0"; se_tags := None |}.

End HandlerSample.

(** Worlds of the sync examples: the sample world with a catalog that
    cannot be fetched, and a ledger of two skills with an installer that
    rejects for the second. *)
Module SyncSample.

Definition config : SimpleClawConfig :=
  Sample.sync_config (Some Sample.registry_with_catalog).

Definition unreachable_catalog (e : Err) : SyncWorld :=
  {| sw_config := config;
     sw_order := ["runbook"];
     sw_plugins := {| pu_config := config; pu_changed := false;
                      pu_outcomes := [] |};
     sw_catalog := Rejected e;
     sw_garToken := Resolved None;
     sw_install := fun params =>
       Resolved (InstallSuccess (p_name params)
                   ("/home/user/.simpleclaw/skills/" ++ p_name params));
     sw_now := fun _ => Sample.t2;
     sw_writeConfig := Resolved tt |}.

(** A ledger that holds two marketplace skills, recorded as [zeta] and then
    [alpha], both behind the catalog, and a world in which the re-install
    of [alpha] rejects. *)
Definition old_record : SkillInstallRecord :=
  {| source := SrcMarketplace; version := "0.9.0";
     archiveUrl := None; installedAt := Some Sample.t1 |}.

Definition entry_of (name : string) : MarketplaceSkillEntry :=
  {| se_name := name; se_description := "";
     se_archiveUrl := Some ("gs://bucket/" ++ name ++ ".tar.gz");
     se_version := "1.0.0"; se_tags := None |}.

Definition two_skills : SimpleClawConfig :=
  {| skills :=
       Some {| installs :=
                 Some (<["alpha" := old_record]> {[ "zeta" := old_record ]});
               skills_rest := ∅ |};
     plugins := Some {| registry := Some Sample.registry_with_catalog;
                        plugins_rest := ∅ |};
     cfg_rest := ∅ |}.

Definition two_skill_catalog : MarketplaceCatalog :=
  {| cat_version := 1; cat_updatedAt := "2026-02-25T00:00:00Z";
     cat_registry := "https://us-central1-npm.pkg.dev/project/repo";
     cat_plugins := [];
     cat_skills := [entry_of "alpha"; entry_of "zeta"] |}.

Definition second_install_rejects (e : Err) : SyncWorld :=
  {| sw_config := two_skills;
     sw_order := ["zeta"; "alpha"];
     sw_plugins := {| pu_config := two_skills; pu_changed := false;
                      pu_outcomes := [] |};
     sw_catalog := Resolved two_skill_catalog;
     sw_garToken := Resolved None;
     sw_install := fun params =>
       if String.eqb (p_name params) "alpha" then Rejected e
       else Resolved (InstallSuccess (p_name params)
                        ("/home/user/.simpleclaw/skills/" ++ p_name params));
     sw_now := fun _ => Sample.t2;
     sw_writeConfig := Resolved tt |}.

End SyncSample.

(* ===================================================================== *)
(** * Properties *)
(* ===================================================================== *)

(** ** Strings *)

Section StringFacts.

Lemma startsWith_app (p rest : string) : startsWith (p ++ rest) p = true.
Proof.
  induction p as [|c p IH]; simpl; [reflexivity|].
  rewrite Ascii.eqb_refl. exact IH.
Qed.

Lemma startsWith_inv (s p : string) :
  startsWith s p = true -> exists rest, s = p ++ rest.
Proof.
  revert s. induction p as [|c p IH]; intros s H; simpl in H.
  - exists s. reflexivity.
  - destruct s as [|d s]; [discriminate|].
    destruct (Ascii.eqb c d) eqn:E; [|discriminate].
    apply Ascii.eqb_eq in E. subst d.
    destruct (IH _ H) as [rest ->]. exists rest. reflexivity.
Qed.

Lemma startsWith_spec (s p : string) :
  startsWith s p = true <-> exists rest, s = p ++ rest.
Proof.
  split; [apply startsWith_inv|].
  intros [rest ->]. apply startsWith_app.
Qed.

Lemma includes_spec (s q : string) :
  includes s q = true <-> contains s q.
Proof.
  unfold contains. split.
  - induction s as [|c s IH]; simpl; intros H.
    + rewrite orb_false_r in H. apply startsWith_inv in H as [rest H].
      exists "", rest. exact H.
    + apply orb_true_iff in H as [H|H].
      * apply startsWith_inv in H as [rest H]. exists "", rest. exact H.
      * destruct (IH H) as (pre & post & ->).
        exists (String c pre), post. reflexivity.
  - intros (pre & post & ->).
    induction pre as [|c pre IH].
    + simpl "++". destruct (q ++ post) eqn:E; simpl.
      * destruct q; [reflexivity|discriminate].
      * rewrite <- E, startsWith_app. reflexivity.
    + simpl. rewrite IH. apply orb_true_r.
Qed.

Lemma includes_false (s q : string) :
  includes s q = false <-> ~ contains s q.
Proof.
  rewrite <- includes_spec. destruct (includes s q); split; intros H;
    try reflexivity; try discriminate; try (intros ?; discriminate).
  exfalso. apply H. reflexivity.
Qed.

(** Every string includes the empty string. *)
Lemma includes_empty (s : string) : includes s "" = true.
Proof. destruct s; reflexivity. Qed.

Lemma append_cons (c : ascii) (s t : string) :
  String c s ++ t = String c (s ++ t).
Proof. reflexivity. Qed.

(** The runtime on the empty string. *)
Lemma toLowerCase_empty (js : JsRuntime) : toLowerCase js "" = "".
Proof. apply (toLowerCase_ascii js ""). reflexivity. Qed.

(** Lower-casing of ASCII and the case of letters. *)
Lemma nat_of_ascii_inj (c d : ascii) : nat_of_ascii c = nat_of_ascii d -> c = d.
Proof.
  intros H. apply (f_equal ascii_of_nat) in H.
  rewrite !ascii_nat_embedding in H. exact H.
Qed.

Lemma lower_ascii_nat (c : ascii) :
  nat_of_ascii (lower_ascii c)
  = if (65 <=? nat_of_ascii c)%nat && (nat_of_ascii c <=? 90)%nat
    then (nat_of_ascii c + 32)%nat else nat_of_ascii c.
Proof.
  unfold lower_ascii.
  destruct (Nat.leb_spec 65 (nat_of_ascii c));
    destruct (Nat.leb_spec (nat_of_ascii c) 90); cbn [andb]; try reflexivity.
  apply nat_ascii_embedding. lia.
Qed.

Lemma lower_ascii_inv (c d : ascii) :
  lower_ascii c = lower_ascii d -> same_letter c d.
Proof.
  intros H. apply (f_equal nat_of_ascii) in H.
  rewrite !lower_ascii_nat in H.
  unfold same_letter, is_capital.
  destruct (Nat.leb_spec 65 (nat_of_ascii c));
    destruct (Nat.leb_spec (nat_of_ascii c) 90);
    destruct (Nat.leb_spec 65 (nat_of_ascii d));
    destruct (Nat.leb_spec (nat_of_ascii d) 90);
    cbn [andb] in H;
    first [ left; apply nat_of_ascii_inj; lia
          | right; left; split; [split; assumption|lia]
          | right; right; split; [split; assumption|lia] ].
Qed.

Lemma lower_ascii_same (c d : ascii) :
  same_letter c d -> lower_ascii c = lower_ascii d.
Proof.
  intros H. apply nat_of_ascii_inj. rewrite !lower_ascii_nat.
  destruct H as [->|[[[H1 H2] H3]|[[H1 H2] H3]]]; [reflexivity| |].
  - destruct (Nat.leb_spec 65 (nat_of_ascii c)); [|lia].
    destruct (Nat.leb_spec (nat_of_ascii c) 90); [|lia].
    destruct (Nat.leb_spec (nat_of_ascii d) 90); [lia|].
    rewrite andb_false_r. cbn [andb]. lia.
  - destruct (Nat.leb_spec 65 (nat_of_ascii d)); [|lia].
    destruct (Nat.leb_spec (nat_of_ascii d) 90); [|lia].
    destruct (Nat.leb_spec (nat_of_ascii c) 90); [lia|].
    rewrite andb_false_r. cbn [andb]. lia.
Qed.

Lemma ascii_toLowerCase_app (a b : string) :
  ascii_toLowerCase (a ++ b) = ascii_toLowerCase a ++ ascii_toLowerCase b.
Proof.
  induction a as [|c a IH]; [reflexivity|].
  rewrite append_cons. simpl. rewrite IH. reflexivity.
Qed.

Lemma ascii_toLowerCase_app_inv (f x y : string) :
  ascii_toLowerCase f = x ++ y ->
  exists f1 f2, f = f1 ++ f2 /\ ascii_toLowerCase f1 = x
                /\ ascii_toLowerCase f2 = y.
Proof.
  revert f. induction x as [|c x IH]; intros f H.
  - exists "", f. repeat split. exact H.
  - destruct f as [|d f]; [discriminate H|].
    rewrite append_cons in H. simpl in H. inversion H as [[Hc Hf]].
    destruct (IH f Hf) as (f1 & f2 & -> & H1 & H2).
    exists (String d f1), f2. repeat split; [|exact H2].
    simpl. rewrite H1. reflexivity.
Qed.

Lemma same_ignoring_case_fold (s t : string) :
  same_ignoring_case s t <-> ascii_toLowerCase s = ascii_toLowerCase t.
Proof.
  split.
  - induction 1 as [|c d s t Hcd _ IH]; [reflexivity|].
    simpl. rewrite (lower_ascii_same c d Hcd), IH. reflexivity.
  - revert t. induction s as [|c s IH]; intros [|d t] H; try discriminate H.
    + constructor.
    + simpl in H. inversion H as [[Hc Hs]].
      constructor; [apply lower_ascii_inv; exact Hc|apply IH; exact Hs].
Qed.

(** Containment after lower-casing of ASCII is occurrence up to case. *)
Lemma contains_fold_spec (field query : string) :
  contains (ascii_toLowerCase field) (ascii_toLowerCase query)
  <-> occurs_ignoring_case field query.
Proof.
  unfold contains, occurs_ignoring_case. split.
  - intros (a & b & H).
    apply ascii_toLowerCase_app_inv in H as (pre & rest & -> & H1 & H2).
    apply ascii_toLowerCase_app_inv in H2 as (mid & post & -> & H2 & H3).
    exists pre, mid, post. split; [reflexivity|].
    apply same_ignoring_case_fold. exact H2.
  - intros (pre & mid & post & -> & H).
    apply same_ignoring_case_fold in H.
    exists (ascii_toLowerCase pre), (ascii_toLowerCase post).
    rewrite !ascii_toLowerCase_app, H. reflexivity.
Qed.

End StringFacts.

(** ** Install ledger *)

Module Ledger.

Lemma size_pos_nonempty (m : gmap string SkillInstallRecord) :
  (0 <? size m)%nat = true <-> m <> ∅.
Proof.
  rewrite Nat.ltb_lt, <- map_size_non_empty_iff. lia.
Qed.

Lemma size_zero_empty (m : gmap string SkillInstallRecord) :
  (0 <? size m)%nat = false <-> m = ∅.
Proof.
  rewrite Nat.ltb_ge, <- map_size_empty_iff. lia.
Qed.

(** Removing a key that was just recorded and was not there before gives
    back the ledger as it was. *)
Lemma delete_fresh_insert (m : gmap string SkillInstallRecord) k v :
  m !! k = None -> delete k (<[k := v]> m) = m.
Proof. intros H. rewrite delete_insert_eq. by apply delete_id. Qed.

End Ledger.

Module LedgerProps.
Import Ledger.

(** C1, counterexample.  Starting from the configuration [{}], which has
    no record for ["my-skill"], recording and then removing ["my-skill"]
    does not give [{}] back: the result carries a skills sub-tree. *)
Lemma roundtrip_from_empty_config_differs :
  skill_installs empty_config !! "my-skill" = None
  /\ removeSkillInstall
       (recordSkillInstall Sample.t1 empty_config "my-skill" Sample.record)
       "my-skill"
     <> empty_config.
Proof.
  split; [reflexivity|].
  intros H. apply (f_equal skills) in H. simpl in H. discriminate H.
Qed.

(** C1, as amended.  When [k] has no record in [c], removing [k] after
    recording it yields [c] with its skills sub-tree made explicit and an
    empty ledger omitted; this is [c] itself whenever [c] has a skills
    sub-tree whose ledger is absent or non-empty; and the ledger of the
    result is never an empty container. *)
Theorem remove_after_record_roundtrip
    (now : string) (c : SimpleClawConfig) (k : string) (r : SkillInstallRecord) :
  skill_installs c !! k = None ->
  removeSkillInstall (recordSkillInstall now c k r) k = prune_installs c
  /\ (ledger_canonical c -> prune_installs c = c)
  /\ (s ← skills (removeSkillInstall (recordSkillInstall now c k r) k); installs s)
     <> Some ∅.
Proof.
  intros Hk. split; [|split].
  - unfold removeSkillInstall, recordSkillInstall, prune_installs. simpl.
    destruct c as [[s|] pl rest]; simpl.
    + unfold skill_installs in Hk. simpl in Hk.
      rewrite delete_fresh_insert by exact Hk.
      destruct s as [[m|] srest]; simpl; [reflexivity|].
      rewrite map_size_empty. reflexivity.
    + rewrite delete_fresh_insert by apply lookup_empty.
      rewrite map_size_empty. reflexivity.
  - intros (s & Hs & Hne). unfold prune_installs. rewrite Hs. simpl.
    destruct c as [sk pl rest]. simpl in Hs. subst sk.
    destruct s as [[m|] srest]; simpl in *; [|reflexivity].
    destruct (0 <? size m)%nat eqn:E; [reflexivity|].
    apply size_zero_empty in E. subst m. congruence.
  - unfold removeSkillInstall. simpl.
    destruct (0 <? size _)%nat eqn:E; simpl; [|discriminate].
    apply size_pos_nonempty in E. congruence.
Qed.

Lemma config_with_other_canonical : ledger_canonical Sample.config_with_other.
Proof.
  eexists. split; [reflexivity|]. simpl. intros H.
  apply (f_equal (fun o => (m ← o; m !! "other-skill"))) in H.
  vm_compute in H. discriminate H.
Qed.

Lemma remove_after_record_roundtrip_witness :
  skill_installs Sample.config_with_other !! "my-skill" = None
  /\ removeSkillInstall
       (recordSkillInstall Sample.t1 Sample.config_with_other "my-skill" Sample.record)
       "my-skill"
     = Sample.config_with_other.
Proof.
  assert (H : skill_installs Sample.config_with_other !! "my-skill" = None)
    by (vm_compute; reflexivity).
  split; [exact H|].
  destruct (remove_after_record_roundtrip Sample.t1 Sample.config_with_other
              "my-skill" Sample.record H) as (E1 & E2 & _).
  rewrite E1. apply E2. apply config_with_other_canonical.
Defined.

(** C2, counterexample.  Recording the same record (without
    [installedAt]) a second time, at a later instant, does not keep the
    timestamp of the first application: the stored [installedAt] is that
    of the second call, and the configuration differs from the one the
    first call produced. *)
Lemma rerecord_replaces_installedAt :
  installedAt Sample.record = None
  /\ (skill_installs
        (recordSkillInstall Sample.t2
           (recordSkillInstall Sample.t1 empty_config "my-skill" Sample.record)
           "my-skill" Sample.record)
      !! "my-skill") ≫= installedAt = Some Sample.t2
  /\ (skill_installs
        (recordSkillInstall Sample.t1 empty_config "my-skill" Sample.record)
      !! "my-skill") ≫= installedAt = Some Sample.t1
  /\ recordSkillInstall Sample.t2
       (recordSkillInstall Sample.t1 empty_config "my-skill" Sample.record)
       "my-skill" Sample.record
     <> recordSkillInstall Sample.t1 empty_config "my-skill" Sample.record.
Proof.
  split; [reflexivity|]. split; [|split].
  - unfold skill_installs, recordSkillInstall. simpl.
    rewrite lookup_insert_eq. reflexivity.
  - unfold skill_installs, recordSkillInstall. simpl.
    rewrite lookup_insert_eq. reflexivity.
  - intros H.
    apply (f_equal (fun c => (skill_installs c !! "my-skill") ≫= installedAt)) in H.
    unfold skill_installs, recordSkillInstall in H. simpl in H.
    rewrite !lookup_insert_eq in H. simpl in H. discriminate H.
Qed.

(** C2, as amended.  Recording the same record twice yields what a
    single application at the time of the second call yields: every field
    but [installedAt] is as after the first call, and [installedAt] is
    the caller's value when one is supplied and otherwise the time of
    the latest call (the timestamp of the first call is replaced). *)
Theorem rerecord_last_write_wins
    (t1 t2 : string) (c : SimpleClawConfig) (k : string) (r : SkillInstallRecord) :
  recordSkillInstall t2 (recordSkillInstall t1 c k r) k r
    = recordSkillInstall t2 c k r
  /\ skill_installs (recordSkillInstall t2 (recordSkillInstall t1 c k r) k r) !! k
     = Some {| source := source r; version := version r;
               archiveUrl := archiveUrl r;
               installedAt := Some (default t2 (installedAt r)) |}
  /\ (forall k', k' <> k ->
        skill_installs (recordSkillInstall t2 (recordSkillInstall t1 c k r) k r) !! k'
        = skill_installs c !! k').
Proof.
  split; [|split].
  - unfold recordSkillInstall. simpl. rewrite insert_insert_eq. reflexivity.
  - unfold skill_installs, recordSkillInstall. simpl.
    rewrite lookup_insert_eq. reflexivity.
  - intros k' Hne. unfold skill_installs, recordSkillInstall. simpl.
    rewrite !lookup_insert_ne by congruence.
    destruct (skills c) as [s|]; simpl; [|reflexivity].
    destruct (installs s); reflexivity.
Qed.

End LedgerProps.

(** ** Completions and traces *)

Section EffFacts.
Context {R A B : Type}.

Lemma fst_bind (m : Eff.M R A) (k : A -> Eff.M R B) :
  fst (Eff.bind m k)
  = match fst m with
    | Normal a => fst (k a)
    | Return r => Return r
    | Throw e => Throw e
    end.
Proof.
  destruct m as [[a|r|e] t]; simpl; try reflexivity.
  destruct (k a); reflexivity.
Qed.

Lemma trace_bind (m : Eff.M R A) (k : A -> Eff.M R B) :
  Eff.trace (Eff.bind m k)
  = (Eff.trace m
     ++ match fst m with
        | Normal a => Eff.trace (k a)
        | _ => []
        end)%list.
Proof.
  destruct m as [[a|r|e] t]; unfold Eff.trace; simpl;
    try (rewrite app_nil_r; reflexivity).
  destruct (k a); reflexivity.
Qed.

Lemma fst_try_catch (m : Eff.M R A) (h : Err -> Eff.M R A) :
  fst (Eff.try_catch m h)
  = match fst m with
    | Throw e => fst (h e)
    | c => c
    end.
Proof.
  destruct m as [[a|r|e] t]; simpl; try reflexivity.
  destruct (h e); reflexivity.
Qed.

Lemma trace_try_catch (m : Eff.M R A) (h : Err -> Eff.M R A) :
  Eff.trace (Eff.try_catch m h)
  = (Eff.trace m
     ++ match fst m with
        | Throw e => Eff.trace (h e)
        | _ => []
        end)%list.
Proof.
  destruct m as [[a|r|e] t]; unfold Eff.trace; simpl;
    try (rewrite app_nil_r; reflexivity).
  destruct (h e); reflexivity.
Qed.

Lemma fst_try_finally (m : Eff.M R A) (f : Eff.M R unit) :
  fst (Eff.try_finally m f)
  = match fst f with
    | Normal _ => fst m
    | Return r => Return r
    | Throw e => Throw e
    end.
Proof. destruct m as [c t], f as [[u|r|e] t']; reflexivity. Qed.

Lemma trace_try_finally (m : Eff.M R A) (f : Eff.M R unit) :
  Eff.trace (Eff.try_finally m f) = (Eff.trace m ++ Eff.trace f)%list.
Proof. destruct m as [c t], f as [[u|r|e] t']; reflexivity. Qed.

Lemma fst_call (ev : Event) (o : Outcome A) :
  fst (Eff.call (R:=R) ev o)
  = match o with Resolved a => Normal a | Rejected e => Throw e end.
Proof. destruct o; reflexivity. Qed.

Lemma trace_call (ev : Event) (o : Outcome A) :
  Eff.trace (Eff.call (R:=R) ev o) = [ev].
Proof. destruct o; reflexivity. Qed.

End EffFacts.

Lemma release_count_app (t u : list Event) :
  release_count (t ++ u)%list = release_count t + release_count u.
Proof.
  unfold release_count. rewrite List.filter_app, length_app. reflexivity.
Qed.

(** ** Archive installer *)

Lemma release_count_run (p d : string) (t : list Event) :
  release_count (EvMkdtemp p :: (t ++ [EvRm d]))%list = release_count t.
Proof.
  change (EvMkdtemp p :: (t ++ [EvRm d]))%list
    with ([EvMkdtemp p] ++ (t ++ [EvRm d]))%list.
  rewrite !release_count_app. unfold release_count at 1 3. simpl. lia.
Qed.

Module InstallerFacts.

Lemma truthy_false (s : string) : truthy s = false <-> s = "".
Proof. destruct s; simpl; split; congruence. Qed.

Lemma name_malformed_spec (name : string) :
  name_malformed name = true <-> malformed_name name.
Proof.
  unfold name_malformed, malformed_name.
  rewrite !orb_true_iff, negb_true_iff, truthy_false,
    !includes_spec, !String.eqb_eq.
  tauto.
Qed.

Lemma dot_name_spec (name : string) :
  startsWith name "." = true <-> dot_name name.
Proof. apply startsWith_spec. Qed.

Lemma acceptable_not_malformed (name : string) :
  acceptable_name name -> name_malformed name = false.
Proof.
  intros (H1 & H2 & H3 & H4 & H5 & _).
  destruct (name_malformed name) eqn:E; [|reflexivity].
  apply name_malformed_spec in E. unfold malformed_name in E. tauto.
Qed.

Lemma acceptable_not_dot (name : string) :
  acceptable_name name -> startsWith name "." = false.
Proof.
  intros (_ & _ & _ & _ & _ & H).
  destruct (startsWith name ".") eqn:E; [|reflexivity].
  apply dot_name_spec in E. contradiction.
Qed.

(** Validation lets an acceptable name through. *)
Lemma validate_acceptable {R} (name : string) :
  acceptable_name name -> validateSkillName (R:=R) name = Eff.ret tt.
Proof.
  intros H. unfold validateSkillName.
  rewrite (acceptable_not_malformed _ H), (acceptable_not_dot _ H).
  reflexivity.
Qed.

(** Once the name is accepted and the temporary directory exists, a run
    is the creation of that directory, the guarded steps, and the removal
    of the directory. *)
Lemma run_shape pf w params tmpDir :
  acceptable_name (p_name params) ->
  w_mkdtemp w = Resolved tmpDir ->
  installSkillFromArchiveUrl pf w params
  = (caught (fst (install_steps pf w params tmpDir)),
     EvMkdtemp (path_join pf (os_tmpdir pf)
                  ("simpleclaw-skill-" ++ p_name params ++ "-"))
     :: (Eff.trace (install_steps pf w params tmpDir) ++ [EvRm tmpDir])%list).
Proof.
  intros Hn Hm. unfold installSkillFromArchiveUrl.
  rewrite (validate_acceptable _ Hn), Hm. simpl.
  destruct (install_steps pf w params tmpDir) as [[u|r|e] t]; simpl;
    rewrite ?app_nil_r; reflexivity.
Qed.

(** When the temporary directory cannot be created nothing else is
    called and the promise rejects. *)
Lemma run_without_tmpdir pf w params e :
  acceptable_name (p_name params) ->
  w_mkdtemp w = Rejected e ->
  installSkillFromArchiveUrl pf w params
  = (Throw e,
     [EvMkdtemp (path_join pf (os_tmpdir pf)
                   ("simpleclaw-skill-" ++ p_name params ++ "-"))]).
Proof.
  intros Hn Hm. unfold installSkillFromArchiveUrl.
  rewrite (validate_acceptable _ Hn), Hm. reflexivity.
Qed.

(** The download calls [release()] once when the fetch resolved and not
    at all when it rejected. *)
Lemma download_release_count {R} w url auth archivePath (fail : string -> R) :
  release_count (Eff.trace (download w url auth archivePath fail))
  = match w_fetch w with Resolved _ => 1 | Rejected _ => 0 end.
Proof.
  unfold download.
  destruct (w_fetch w) as [resp|e]; [|reflexivity].
  destruct resp as [ok st stt ab].
  destruct ok, ab, (w_writeFile w), (w_release w); reflexivity.
Qed.

(** The download returns early only with a failure. *)
Lemma download_returns_failure {R} w url auth archivePath (fail : string -> R) r :
  fst (download w url auth archivePath fail) = Return r ->
  exists msg, r = fail msg.
Proof.
  unfold download.
  destruct (w_fetch w) as [resp|e]; [|discriminate].
  destruct resp as [ok st stt ab].
  destruct ok, ab, (w_writeFile w), (w_release w); simpl; intros H;
    try discriminate; inversion H; eauto.
Qed.

(** The later steps never call [release()]. *)
Lemma unpack_release_count pf w params tmpDir :
  release_count (Eff.trace (unpack_and_place pf w params tmpDir)) = 0.
Proof.
  unfold unpack_and_place.
  destruct (w_ensureExtractDir w), (w_extract w), (w_statSkillMd w),
    (w_rmTarget w), (w_ensureManagedDir w), (w_cp w); reflexivity.
Qed.

(** A success of the later steps names the skill and its target. *)
Lemma unpack_success pf w params tmpDir n t :
  fst (unpack_and_place pf w params tmpDir) = Return (InstallSuccess n t) ->
  n = p_name params /\ t = target_dir_of pf params.
Proof.
  unfold unpack_and_place.
  destruct (w_ensureExtractDir w), (w_extract w), (w_statSkillMd w),
    (w_rmTarget w), (w_ensureManagedDir w), (w_cp w); simpl; intros H;
    try discriminate; inversion H; auto.
Qed.

Lemma steps_release_count pf w params tmpDir :
  release_count (Eff.trace (install_steps pf w params tmpDir))
  = match w_fetch w with Resolved _ => 1 | Rejected _ => 0 end.
Proof.
  unfold install_steps. rewrite trace_bind, release_count_app.
  rewrite download_release_count.
  destruct (fst (download _ _ _ _ _)) eqn:E.
  - rewrite unpack_release_count. lia.
  - simpl. unfold release_count. simpl. lia.
  - simpl. unfold release_count. simpl. lia.
Qed.

Lemma steps_success pf w params tmpDir n t :
  fst (install_steps pf w params tmpDir) = Return (InstallSuccess n t) ->
  n = p_name params /\ t = target_dir_of pf params.
Proof.
  unfold install_steps. rewrite fst_bind.
  destruct (fst (download _ _ _ _ _)) eqn:E; intros H.
  - eapply unpack_success; eauto.
  - apply download_returns_failure in E as [msg ->]. discriminate H.
  - discriminate H.
Qed.

End InstallerFacts.

Module InstallerProps.
Import InstallerFacts.

(** C3.  A name that is empty, contains a slash or a backslash, is [.]
    or [..], or starts with a dot, makes the installer resolve with a
    failure without a single outside call (so the guarded fetch is never
    invoked).  The first shape gives the message [Invalid skill name],
    a remaining leading-dot name the message [cannot start with a dot],
    and the two messages differ. *)
Theorem invalid_name_rejected_before_network
    (pf : Platform) (w : InstallWorld) (params : InstallParams) :
  malformed_name (p_name params) \/ dot_name (p_name params) ->
  Eff.trace (installSkillFromArchiveUrl pf w params) = []
  /\ (malformed_name (p_name params) ->
      fst (installSkillFromArchiveUrl pf w params)
      = Return (InstallFailure ("Invalid skill name: " ++ quoted (p_name params))))
  /\ (~ malformed_name (p_name params) ->
      fst (installSkillFromArchiveUrl pf w params)
      = Return (InstallFailure
                  ("Skill name cannot start with a dot: " ++ quoted (p_name params))))
  /\ (forall a b, "Invalid skill name: " ++ a
                  <> "Skill name cannot start with a dot: " ++ b).
Proof.
  intros H. unfold installSkillFromArchiveUrl, validateSkillName.
  destruct (name_malformed (p_name params)) eqn:E.
  - apply name_malformed_spec in E. repeat split; try reflexivity.
    + intros Hn. contradiction.
    + intros a b; discriminate.
  - assert (Hn : ~ malformed_name (p_name params)).
    { intros Hm. apply name_malformed_spec in Hm. congruence. }
    destruct H as [H|H]; [contradiction|].
    apply dot_name_spec in H. rewrite H.
    repeat split; try reflexivity.
    + intros Hm. contradiction.
    + intros a b; discriminate.
Qed.

Lemma invalid_name_rejected_before_network_witness :
  (malformed_name "../escape" \/ dot_name "../escape")
  /\ Eff.trace (installSkillFromArchiveUrl Sample.platform Sample.world
                  (Sample.params_of "../escape")) = [].
Proof.
  assert (H : malformed_name "../escape" \/ dot_name "../escape").
  { left. right. left. exists "..", "escape". reflexivity. }
  split; [exact H|].
  exact (proj1 (invalid_name_rejected_before_network Sample.platform
                  Sample.world (Sample.params_of "../escape") H)).
Defined.

(** The two tests on the path-traversal names of the test suite. *)
Example rejects_escape :
  fst (installSkillFromArchiveUrl Sample.platform Sample.world
         (Sample.params_of "../escape"))
  = Return (InstallFailure ("Invalid skill name: " ++ quoted "../escape")).
Proof. reflexivity. Qed.

Example rejects_hidden :
  fst (installSkillFromArchiveUrl Sample.platform Sample.world
         (Sample.params_of ".hidden"))
  = Return (InstallFailure
              ("Skill name cannot start with a dot: " ++ quoted ".hidden")).
Proof. reflexivity. Qed.

(** C4.  When the archive is downloaded and extracted but the staging
    directory has no [SKILL.md], the installer resolves with the failure
    [Archive does not contain a SKILL.md file. Not a valid skill
    package.], which names the marker file and is no download failure;
    the calls made are exactly those on the temporary directory, ending
    with its removal: no [fs.cp], no [fs.rm] other than that of the
    temporary directory and no [ensureDir] other than that of the staging
    directory, so nothing is done to the managed target.  And on every
    run in which the temporary directory was created the last call is
    its removal. *)
Theorem missing_marker_rejected
    (pf : Platform) (w : InstallWorld) (params : InstallParams)
    (tmpDir : string) (response : Response) (body : list Byte.byte) :
  acceptable_name (p_name params) ->
  extracted_without_marker w tmpDir response body ->
  let run := installSkillFromArchiveUrl pf w params in
  let archivePath := path_join pf tmpDir (p_name params ++ ".tar.gz") in
  let extractDir := path_join pf tmpDir "extracted" in
  fst run = Return (InstallFailure MISSING_SKILL_MD)
  /\ contains MISSING_SKILL_MD "SKILL.md"
  /\ contains MISSING_SKILL_MD "Not a valid skill package"
  /\ (forall rest, MISSING_SKILL_MD <> "Download failed: " ++ rest)
  /\ Eff.trace run
     = [ EvMkdtemp (path_join pf (os_tmpdir pf)
                      ("simpleclaw-skill-" ++ p_name params ++ "-"));
         EvGuardedFetch (resolveGcsUrl (p_archiveUrl params))
           (bearer_of (p_authToken params)) DOWNLOAD_TIMEOUT_MS;
         EvArrayBuffer;
         EvWriteFile archivePath body;
         EvRelease;
         EvEnsureDir extractDir;
         EvExtractArchive archivePath extractDir EXTRACT_TIMEOUT_MS 1;
         EvStat (path_join pf extractDir "SKILL.md");
         EvRm tmpDir ]
  /\ (forall ev, In ev (Eff.trace run) ->
        (forall src dest, ev <> EvCp src dest)
        /\ (forall p, ev = EvRm p -> p = tmpDir)
        /\ (forall p, ev = EvEnsureDir p -> p = extractDir))
  /\ (forall w' tmpDir',
        w_mkdtemp w' = Resolved tmpDir' ->
        exists before,
          Eff.trace (installSkillFromArchiveUrl pf w' params)
          = (before ++ [EvRm tmpDir'])%list).
Proof.
  intros Hn (Hm & Hf & Hok & Hab & Hwf & Hrel & Hed & Hex & e & Hst) run archivePath extractDir.
  assert (Hrun : run
    = (Return (InstallFailure MISSING_SKILL_MD),
       [ EvMkdtemp (path_join pf (os_tmpdir pf)
                      ("simpleclaw-skill-" ++ p_name params ++ "-"));
         EvGuardedFetch (resolveGcsUrl (p_archiveUrl params))
           (bearer_of (p_authToken params)) DOWNLOAD_TIMEOUT_MS;
         EvArrayBuffer;
         EvWriteFile archivePath body;
         EvRelease;
         EvEnsureDir extractDir;
         EvExtractArchive archivePath extractDir EXTRACT_TIMEOUT_MS 1;
         EvStat (path_join pf extractDir "SKILL.md");
         EvRm tmpDir ])).
  { unfold run. rewrite (run_shape pf w params tmpDir Hn Hm).
    unfold install_steps, download, unpack_and_place.
    rewrite Hf. simpl. rewrite Hok. simpl. rewrite Hab. simpl.
    rewrite Hwf, Hrel. simpl. rewrite Hed, Hex, Hst. reflexivity. }
  rewrite Hrun. simpl fst. unfold Eff.trace. simpl snd.
  split; [reflexivity|].
  split; [exists "Archive does not contain a ", " file. Not a valid skill package."; reflexivity|].
  split; [exists "Archive does not contain a SKILL.md file. ", "."; reflexivity|].
  split; [intros rest; discriminate|].
  split; [reflexivity|].
  split.
  - intros ev Hin. simpl in Hin.
    repeat (destruct Hin as [<-|Hin]; [repeat split; intros; congruence|]).
    contradiction.
  - intros w' tmpDir' Hm'.
    rewrite (run_shape pf w' params tmpDir' Hn Hm'). simpl snd.
    eexists (_ :: _). reflexivity.
Qed.

Lemma sample_without_marker :
  extracted_without_marker Sample.world_without_marker
    "/tmp/simpleclaw-skill-bad-skill-Ab12Cd"
    {| resp_ok := true; resp_status := 200; resp_statusText := "OK";
       resp_arrayBuffer := Resolved [] |} [].
Proof. unfold extracted_without_marker. simpl. repeat split. eauto. Qed.

Lemma bad_skill_acceptable : acceptable_name "bad-skill".
Proof.
  assert (Hm : name_malformed "bad-skill" = false) by reflexivity.
  assert (Hd : startsWith "bad-skill" "." = false) by reflexivity.
  unfold acceptable_name.
  assert (Hn : ~ malformed_name "bad-skill").
  { intros H. apply name_malformed_spec in H. congruence. }
  unfold malformed_name in Hn.
  repeat split; try tauto.
  intros H. apply dot_name_spec in H. congruence.
Qed.

Lemma missing_marker_rejected_witness :
  acceptable_name "bad-skill"
  /\ fst (installSkillFromArchiveUrl Sample.platform Sample.world_without_marker
            (Sample.params_of "bad-skill"))
     = Return (InstallFailure MISSING_SKILL_MD).
Proof.
  split; [exact bad_skill_acceptable|].
  exact (proj1 (missing_marker_rejected Sample.platform
                  Sample.world_without_marker (Sample.params_of "bad-skill")
                  _ _ _ bad_skill_acceptable sample_without_marker)).
Defined.

Lemma good_skill_acceptable : acceptable_name "good-skill".
Proof.
  assert (Hm : name_malformed "good-skill" = false) by reflexivity.
  assert (Hd : startsWith "good-skill" "." = false) by reflexivity.
  assert (Hn : ~ malformed_name "good-skill").
  { intros H. apply name_malformed_spec in H. congruence. }
  unfold acceptable_name, malformed_name in *.
  repeat split; try tauto.
  intros H. apply dot_name_spec in H. congruence.
Qed.

(** C9.  On every run in which the guarded fetch resolved, whatever the
    later calls do (success, the early return on a non-success status, a
    body that cannot be read or written, a [release()] that itself
    rejects), [release()] is called exactly once; it is never called when
    the fetch rejected. *)
Theorem release_called_exactly_once
    (pf : Platform) (w : InstallWorld) (params : InstallParams)
    (tmpDir : string) :
  acceptable_name (p_name params) ->
  w_mkdtemp w = Resolved tmpDir ->
  (forall response, w_fetch w = Resolved response ->
     release_count (Eff.trace (installSkillFromArchiveUrl pf w params)) = 1)
  /\ (forall e, w_fetch w = Rejected e ->
        release_count (Eff.trace (installSkillFromArchiveUrl pf w params)) = 0).
Proof.
  intros Hn Hm.
  assert (Hc : release_count (Eff.trace (installSkillFromArchiveUrl pf w params))
               = release_count (Eff.trace (install_steps pf w params tmpDir))).
  { rewrite (run_shape pf w params tmpDir Hn Hm). unfold Eff.trace at 1.
    simpl snd. apply release_count_run. }
  rewrite Hc, steps_release_count.
  split; intros x Hx; rewrite Hx; reflexivity.
Qed.

Lemma release_called_exactly_once_witness :
  acceptable_name "good-skill"
  /\ release_count
       (Eff.trace (installSkillFromArchiveUrl Sample.platform Sample.world
                     (Sample.params_of "good-skill"))) = 1.
Proof.
  split; [exact good_skill_acceptable|].
  exact (proj1 (release_called_exactly_once Sample.platform Sample.world
                  (Sample.params_of "good-skill")
                  "/tmp/simpleclaw-skill-good-skill-Ab12Cd"
                  good_skill_acceptable eq_refl) _ eq_refl).
Defined.

(** The three exit paths named by the test suite and the specification,
    evaluated. *)
Example release_on_http_error :
  release_count
    (Eff.trace
       (installSkillFromArchiveUrl Sample.platform
          {| w_mkdtemp := Resolved "/tmp/simpleclaw-skill-test-skill-Ab12Cd";
             w_fetch := Resolved {| resp_ok := false; resp_status := 404;
                                    resp_statusText := "Not Found";
                                    resp_arrayBuffer := Resolved [] |};
             w_release := Resolved tt; w_writeFile := Resolved tt;
             w_ensureExtractDir := Resolved tt; w_extract := Resolved tt;
             w_statSkillMd := Resolved tt; w_rmTarget := Resolved tt;
             w_ensureManagedDir := Resolved tt; w_cp := Resolved tt;
             w_rmTmp := Resolved tt |}
          (Sample.params_of "test-skill"))) = 1.
Proof. reflexivity. Qed.

Example release_on_body_error :
  release_count
    (Eff.trace
       (installSkillFromArchiveUrl Sample.platform
          {| w_mkdtemp := Resolved "/tmp/simpleclaw-skill-test-skill-Ab12Cd";
             w_fetch := Resolved {| resp_ok := true; resp_status := 200;
                                    resp_statusText := "OK";
                                    resp_arrayBuffer := Rejected (Error "terminated") |};
             w_release := Resolved tt; w_writeFile := Resolved tt;
             w_ensureExtractDir := Resolved tt; w_extract := Resolved tt;
             w_statSkillMd := Resolved tt; w_rmTarget := Resolved tt;
             w_ensureManagedDir := Resolved tt; w_cp := Resolved tt;
             w_rmTmp := Resolved tt |}
          (Sample.params_of "test-skill"))) = 1.
Proof. reflexivity. Qed.

(** C10.  A non-empty name without slash or backslash that is neither
    [.] nor [..] and has no leading dot passes validation; the installer
    then joins that very name under the managed directory: whenever a run
    succeeds the result carries the name and [path.join(managedSkillsDir,
    name)], and in a world where every call resolves the run does succeed,
    its last three calls before the clean-up being the removal of, the
    creation of the parent of, and the copy to that target. *)
Theorem acceptable_name_installed_verbatim
    (pf : Platform) (params : InstallParams) :
  acceptable_name (p_name params) ->
  let name := p_name params in
  let managedSkillsDir := managed_dir_of pf params in
  let targetDir := path_join pf managedSkillsDir name in
  validateSkillName (R:=SkillInstallResult) name = Eff.ret tt
  /\ (forall w n t,
        fst (installSkillFromArchiveUrl pf w params) = Return (InstallSuccess n t) ->
        n = name /\ t = targetDir)
  /\ (forall tmpDir status statusText body,
        let archivePath := path_join pf tmpDir (name ++ ".tar.gz") in
        let extractDir := path_join pf tmpDir "extracted" in
        installSkillFromArchiveUrl pf
          (resolving_world tmpDir status statusText body) params
        = (Return (InstallSuccess name targetDir),
           [ EvMkdtemp (path_join pf (os_tmpdir pf)
                          ("simpleclaw-skill-" ++ name ++ "-"));
             EvGuardedFetch (resolveGcsUrl (p_archiveUrl params))
               (bearer_of (p_authToken params)) DOWNLOAD_TIMEOUT_MS;
             EvArrayBuffer;
             EvWriteFile archivePath body;
             EvRelease;
             EvEnsureDir extractDir;
             EvExtractArchive archivePath extractDir EXTRACT_TIMEOUT_MS 1;
             EvStat (path_join pf extractDir "SKILL.md");
             EvRm targetDir;
             EvEnsureDir managedSkillsDir;
             EvCp extractDir targetDir;
             EvRm tmpDir ])).
Proof.
  intros Hn name managedSkillsDir targetDir.
  split; [exact (validate_acceptable name Hn)|]. split.
  - intros w n t H.
    destruct (w_mkdtemp w) as [tmpDir|e] eqn:Hm.
    + rewrite (run_shape pf w params tmpDir Hn Hm) in H. simpl in H.
      destruct (fst (install_steps pf w params tmpDir)) eqn:E;
        simpl in H; try discriminate.
      inversion H; subst r.
      exact (steps_success pf w params tmpDir n t E).
    + rewrite (run_without_tmpdir pf w params e Hn Hm) in H. discriminate H.
  - intros tmpDir status statusText body archivePath extractDir.
    rewrite (run_shape pf (resolving_world tmpDir status statusText body)
               params tmpDir Hn eq_refl).
  reflexivity.
Qed.

Lemma acceptable_name_installed_verbatim_witness :
  acceptable_name "good-skill"
  /\ fst (installSkillFromArchiveUrl Sample.platform Sample.world
            (Sample.params_of "good-skill"))
     = Return (InstallSuccess "good-skill" "/srv/skills/good-skill").
Proof.
  split; [exact good_skill_acceptable|].
  destruct (acceptable_name_installed_verbatim Sample.platform
              (Sample.params_of "good-skill") good_skill_acceptable)
    as (_ & _ & H).
  unfold Sample.world. rewrite H. reflexivity.
Defined.

(** Names with an inner [..], white space or other special characters
    pass. *)
Example accepts_inner_dots :
  validateSkillName (R:=SkillInstallResult) "a..b" = Eff.ret tt.
Proof. reflexivity. Qed.

Example accepts_white_space :
  validateSkillName (R:=SkillInstallResult) "my skill" = Eff.ret tt.
Proof. reflexivity. Qed.

Example accepts_special_characters :
  validateSkillName (R:=SkillInstallResult) "sk!ll:$~*" = Eff.ret tt.
Proof. reflexivity. Qed.

End InstallerProps.

(** ** Catalog client *)

Module CatalogFacts.

Lemma tags_some_spec (js : JsRuntime)
    (query : string) (tags : option (list string)) :
  tags_some js (toLowerCase js query) tags = true <-> some_tag_contains_ci js tags query.
Proof.
  unfold tags_some, some_tag_contains_ci, contains_ci.
  destruct tags as [ts|].
  - rewrite existsb_exists. split.
    + intros (t & Hin & Ht). apply includes_spec in Ht. eauto.
    + intros (ts' & t & Heq & Hin & Ht). inversion Heq; subst ts'.
      exists t. split; [exact Hin|]. apply includes_spec. exact Ht.
  - split; [discriminate|]. intros (ts & t & Heq & _). discriminate Heq.
Qed.

Lemma plugin_matches_spec (js : JsRuntime)
    (query : string) (p : MarketplacePluginEntry) :
  plugin_matches js (toLowerCase js query) p = true <-> plugin_hit js query p.
Proof.
  unfold plugin_matches, plugin_hit, contains_ci.
  rewrite !orb_true_iff, !includes_spec, tags_some_spec. tauto.
Qed.

Lemma skill_matches_spec (js : JsRuntime)
    (query : string) (s : MarketplaceSkillEntry) :
  skill_matches js (toLowerCase js query) s = true <-> skill_hit js query s.
Proof.
  unfold skill_matches, skill_hit, contains_ci.
  rewrite !orb_true_iff, !includes_spec, tags_some_spec. tauto.
Qed.

Lemma filter_all {A} (f : A -> bool) (l : list A) :
  (forall x, In x l -> f x = true) -> List.filter f l = l.
Proof.
  induction l as [|x l IH]; intros H; simpl; [reflexivity|].
  rewrite (H x (or_introl eq_refl)), IH; [reflexivity|].
  intros y Hy. apply H. right. exact Hy.
Qed.

Lemma filter_none {A} (f : A -> bool) (l : list A) :
  (forall x, In x l -> f x = false) -> List.filter f l = [].
Proof.
  induction l as [|x l IH]; intros H; simpl; [reflexivity|].
  rewrite (H x (or_introl eq_refl)). apply IH.
  intros y Hy. apply H. right. exact Hy.
Qed.

Lemma filter_sublist {A} (f : A -> bool) (l : list A) :
  sublist (List.filter f l) l.
Proof.
  induction l as [|x l IH]; simpl; [constructor|].
  destruct (f x); constructor; exact IH.
Qed.

End CatalogFacts.

Module CatalogProps.
Import CatalogFacts.

(** C7.  The search keeps, in catalog order, exactly the plugins whose id,
    name, description or some tag contains the query, and exactly the skills
    whose name, description or some tag does, both sides lower-cased by the
    runtime.  Case is ignored: for a field and a query of ASCII characters,
    the lower-cased field contains the lower-cased query exactly when some
    substring of the field is the query up to the case of its letters.  The
    empty query keeps every entry; a query that no entry matches gives two
    empty lists. *)
Theorem searchCatalog_exact (js : JsRuntime)
    (catalog : MarketplaceCatalog) (query : string) :
  let result := searchCatalog js catalog query in
  (forall p, In p (sr_plugins result)
             <-> In p (cat_plugins catalog) /\ plugin_hit js query p)
  /\ (forall s, In s (sr_skills result)
                <-> In s (cat_skills catalog) /\ skill_hit js query s)
  /\ sublist (sr_plugins result) (cat_plugins catalog)
  /\ sublist (sr_skills result) (cat_skills catalog)
  /\ (forall field, is_ascii field = true -> is_ascii query = true ->
        (contains_ci js field query <-> occurs_ignoring_case field query))
  /\ searchCatalog js catalog ""
     = {| sr_plugins := cat_plugins catalog; sr_skills := cat_skills catalog |}
  /\ ((forall p, In p (cat_plugins catalog) -> ~ plugin_hit js query p) ->
      (forall s, In s (cat_skills catalog) -> ~ skill_hit js query s) ->
      result = {| sr_plugins := []; sr_skills := [] |}).
Proof.
  intros result. unfold result, searchCatalog. simpl.
  split; [|split; [|split; [|split; [|split; [|split]]]]].
  - intros p. rewrite List.filter_In, plugin_matches_spec. reflexivity.
  - intros s. rewrite List.filter_In, skill_matches_spec. reflexivity.
  - apply filter_sublist.
  - apply filter_sublist.
  - intros field Hf Hq. unfold contains_ci.
    rewrite (toLowerCase_ascii js field Hf), (toLowerCase_ascii js query Hq).
    apply contains_fold_spec.
  - rewrite toLowerCase_empty, !filter_all; [reflexivity| |].
    + intros s _. unfold skill_matches. rewrite includes_empty. reflexivity.
    + intros p _. unfold plugin_matches. rewrite includes_empty. reflexivity.
  - intros Hp Hs. rewrite !filter_none; [reflexivity| |].
    + intros s Hin. specialize (Hs s Hin).
      rewrite <- skill_matches_spec in Hs. destruct (skill_matches js _ s); congruence.
    + intros p Hin. specialize (Hp p Hin).
      rewrite <- plugin_matches_spec in Hp. destruct (plugin_matches js _ p); congruence.
Qed.

(** The searches of the test suite, on every runtime. *)
Ltac lower_literals js :=
  repeat match goal with
         | |- context [toLowerCase js ?s] =>
             rewrite (toLowerCase_ascii js s) by reflexivity
         end.

Example search_by_name_ignores_case (js : JsRuntime) :
  List.map pe_id (sr_plugins (searchCatalog js Sample.MOCK_CATALOG "MEMORY"))
  = ["memory-core"].
Proof.
  unfold searchCatalog, plugin_matches, tags_some. simpl.
  lower_literals js. reflexivity.
Qed.

Example search_by_tag (js : JsRuntime) :
  List.map pe_id (sr_plugins (searchCatalog js Sample.MOCK_CATALOG "messaging"))
  = ["discord"]
  /\ List.map se_name
       (sr_skills (searchCatalog js Sample.MOCK_CATALOG "automation"))
     = ["runbook"].
Proof.
  unfold searchCatalog, plugin_matches, skill_matches, tags_some. simpl.
  lower_literals js. split; reflexivity.
Qed.

Example search_without_match (js : JsRuntime) :
  searchCatalog js Sample.MOCK_CATALOG "nonexistent-xyz"
  = {| sr_plugins := []; sr_skills := [] |}.
Proof.
  unfold searchCatalog, plugin_matches, skill_matches, tags_some. simpl.
  lower_literals js. reflexivity.
Qed.

Example search_everything (js : JsRuntime) :
  searchCatalog js Sample.MOCK_CATALOG ""
  = {| sr_plugins := cat_plugins Sample.MOCK_CATALOG;
       sr_skills := cat_skills Sample.MOCK_CATALOG |}.
Proof.
  unfold searchCatalog, plugin_matches, skill_matches, tags_some. simpl.
  lower_literals js. reflexivity.
Qed.

End CatalogProps.

Module CatalogFetchFacts.

Lemma is_number_spec (body : Json) :
  is_number (js_prop body "version") = true <-> numeric_version body.
Proof.
  unfold numeric_version.
  destruct (js_prop body "version") as [[]|]; simpl; split;
    try discriminate; try (intros [? H]; discriminate H); eauto.
Qed.

Lemma is_array_spec (body : Json) (k : string) :
  is_array (js_prop body k) = true <-> array_field body k.
Proof.
  unfold array_field.
  destruct (js_prop body k) as [[]|]; simpl; split;
    try discriminate; try (intros [? H]; discriminate H); eauto.
Qed.

(** A value with a named field is an object. *)
Lemma js_prop_object (body : Json) (k : string) (v : Json) :
  js_prop body k = Some v -> is_object body = true.
Proof. destruct body; simpl; try discriminate; reflexivity. Qed.

(** With a success status and a parsed body, fetching is validating. *)
Lemma fetchCatalog_ok catalogUrl authToken res body :
  cr_ok res = true -> cr_json res = Resolved body ->
  fst (fetchCatalog (Resolved res) catalogUrl authToken)
  = match fst (validateCatalog (R:=Json) body) with
    | Normal _ => Return body
    | other => other
    end.
Proof.
  intros Hok Hj. unfold fetchCatalog. simpl. rewrite Hok. simpl. rewrite Hj. simpl.
  destruct (validateCatalog body) as [[[]|r|e] t]; reflexivity.
Qed.

End CatalogFetchFacts.

Module CatalogFetchProps.
Import CatalogFetchFacts.

(** C6, counterexample.  The body [{ version: 1, skills: [] }] has neither
    a [plugins] nor an [extensions] collection; fetching it fails with
    [Invalid catalog: missing 'plugins' array], a message in which the word
    [extensions] does not occur. *)
Lemma missing_collection_message_lacks_extensions :
  js_prop Sample.body_without_plugins "extensions" = None
  /\ js_prop Sample.body_without_plugins "plugins" = None
  /\ fst (fetchCatalog (Sample.ok_response Sample.body_without_plugins)
            "https://example.com/catalog.json" None)
     = Throw (Error "Invalid catalog: missing 'plugins' array")
  /\ ~ contains "Invalid catalog: missing 'plugins' array" "extensions".
Proof.
  repeat split; try reflexivity.
  apply includes_false. reflexivity.
Qed.

(** C6, as amended.  For a response with a success status and a parsed
    body, [fetchCatalog] rejects with an [Invalid catalog] error every body
    whose [version] is not a number or whose [plugins] or [skills] is not an
    array; an object without [version] fails with a message containing
    [version]; a body with a numeric [version] and without the [plugins]
    collection (the catalog's extensions) fails with a message containing
    [plugins], not [extensions]; and a body that meets the three
    conditions is returned. *)
Theorem fetchCatalog_rejects_malformed
    (catalogUrl : string) (authToken : option string)
    (res : CatalogResponse) (body : Json) :
  cr_ok res = true ->
  cr_json res = Resolved body ->
  let run := fetchCatalog (Resolved res) catalogUrl authToken in
  (~ numeric_version body \/ ~ array_field body "plugins"
   \/ ~ array_field body "skills" ->
   exists rest, fst run = Throw (Error ("Invalid catalog: " ++ rest)))
  /\ (is_object body = true -> js_prop body "version" = None ->
      fst run = Throw (Error "Invalid catalog: missing 'version' field"))
  /\ contains "Invalid catalog: missing 'version' field" "version"
  /\ (numeric_version body -> js_prop body "plugins" = None ->
      fst run = Throw (Error "Invalid catalog: missing 'plugins' array"))
  /\ contains "Invalid catalog: missing 'plugins' array" "plugins"
  /\ ~ contains "Invalid catalog: missing 'plugins' array" "extensions"
  /\ (numeric_version body -> array_field body "plugins" ->
      array_field body "skills" -> fst run = Return body).
Proof.
  intros Hok Hj run. unfold run.
  rewrite (fetchCatalog_ok _ _ _ _ Hok Hj). unfold validateCatalog.
  pose proof (is_number_spec body) as Hv.
  pose proof (is_array_spec body "plugins") as Hp.
  pose proof (is_array_spec body "skills") as Hs.
  split; [|split; [|split; [|split; [|split; [|split]]]]].
  - intros H.
    destruct (is_object body); simpl; [|eexists; reflexivity].
    destruct (is_number _); simpl; [|eexists; reflexivity].
    destruct (is_array (js_prop body "plugins")); simpl; [|eexists; reflexivity].
    destruct (is_array (js_prop body "skills")); simpl; [|eexists; reflexivity].
    exfalso. tauto.
  - intros Ho Hnone. rewrite Ho, Hnone. reflexivity.
  - exists "Invalid catalog: missing '", "' field". reflexivity.
  - intros Hnum Hnone.
    destruct Hnum as [n Hn]. rewrite (js_prop_object _ _ _ Hn), Hn, Hnone.
    reflexivity.
  - exists "Invalid catalog: missing '", "' array". reflexivity.
  - apply includes_false. reflexivity.
  - intros Hnum Hpl Hsk.
    pose proof Hnum as [n Hn]. rewrite (js_prop_object _ _ _ Hn).
    apply Hv in Hnum. apply Hp in Hpl. apply Hs in Hsk.
    rewrite Hnum, Hpl, Hsk. reflexivity.
Qed.

Lemma fetchCatalog_rejects_malformed_witness :
  fst (fetchCatalog (Sample.ok_response Sample.body_without_version)
         "gs://my-bucket/path/catalog.json" (Some "ya29.test"))
  = Throw (Error "Invalid catalog: missing 'version' field").
Proof.
  exact (proj1 (proj2 (fetchCatalog_rejects_malformed
                         "gs://my-bucket/path/catalog.json" (Some "ya29.test")
                         {| cr_ok := true; cr_status := 200; cr_statusText := "OK";
                            cr_json := Resolved Sample.body_without_version |}
                         Sample.body_without_version eq_refl eq_refl))
           eq_refl eq_refl).
Defined.

(** The requests of the test suite. *)
Example gs_url_is_rewritten :
  Eff.trace (fetchCatalog (Sample.ok_response Sample.body_without_version)
               "gs://my-bucket/path/catalog.json" (Some "ya29.test"))
  = [ EvFetch "https://storage.googleapis.com/my-bucket/path/catalog.json"
        [("Authorization", "Bearer ya29.test")] FETCH_TIMEOUT_MS;
      EvJson ].
Proof. reflexivity. Qed.

Example non_success_status_is_reported :
  fst (fetchCatalog
         (Resolved {| cr_ok := false; cr_status := 403;
                      cr_statusText := "Forbidden"; cr_json := Rejected (Error "") |})
         "https://example.com/catalog.json" None)
  = Throw (Error "Failed to fetch catalog from https://example.com/catalog.json: 403 Forbidden").
Proof. reflexivity. Qed.

End CatalogFetchProps.

(** ** Credential resolver *)

Module AuthFacts.

Lemma or_null_nonempty (v : option string) (t : string) :
  or_null v = Some t -> t <> "".
Proof.
  destruct v as [[|c s]|]; simpl; intros H; inversion H; subst; discriminate.
Qed.

Lemma metadata_token_nonempty (w : AuthWorld) (t : string) :
  metadata_token w = Some t -> t <> "".
Proof.
  unfold metadata_token.
  destruct (w_metadata w) as [[ok [body|e]]|e]; try discriminate;
    destruct ok; try discriminate.
  apply or_null_nonempty.
Qed.

Lemma gcloud_token_nonempty (js : JsRuntime) (w : AuthWorld) (t : string) :
  gcloud_token js w = Some t -> t <> "".
Proof.
  unfold gcloud_token.
  destruct (w_gcloud w) as [[[[|p|p]|] out]|e]; try discriminate.
  apply or_null_nonempty.
Qed.

Lemma truthy_opt_Some (t : string) : t <> "" -> truthy_opt (Some t) = true.
Proof. destruct t; simpl; congruence. Qed.

(** The metadata strategy never throws and finds what [metadata_token]
    says. *)
Lemma fetchMetadataToken_total (w : AuthWorld) :
  fst (fetchMetadataToken w) = Return (metadata_token w)
  /\ exists rest, Eff.trace (fetchMetadataToken w) = metadata_request :: rest
                  /\ ~ In gcloud_request rest.
Proof.
  unfold fetchMetadataToken, metadata_token.
  destruct (w_metadata w) as [[ok [body|e]]|e]; simpl.
  - destruct ok; simpl; (split; [reflexivity|]); eexists; (split; [reflexivity|]);
      simpl; intros H; repeat (destruct H as [H|H]; [discriminate H|]); exact H.
  - destruct ok; simpl; (split; [reflexivity|]); eexists; (split; [reflexivity|]);
      simpl; intros H; repeat (destruct H as [H|H]; [discriminate H|]); exact H.
  - split; [reflexivity|]. eexists; split; [reflexivity|]. intros [].
Qed.

(** The command-line strategy never throws, finds what [gcloud_token]
    says, and makes the one call. *)
Lemma fetchGcloudCliToken_total (js : JsRuntime) (w : AuthWorld) :
  fst (fetchGcloudCliToken js w) = Return (gcloud_token js w)
  /\ Eff.trace (fetchGcloudCliToken js w) = [gcloud_request].
Proof.
  unfold fetchGcloudCliToken, gcloud_token.
  destruct (w_gcloud w) as [[code out]|e]; simpl; [|split; reflexivity].
  destruct code as [[|p|p]|]; simpl; split; reflexivity.
Qed.

Lemma await_returned {R R'} (dflt : R') (m : Eff.M R' unit) (v : R') :
  fst m = Return v -> Eff.await (R:=R) dflt m = (Normal v, Eff.trace m).
Proof. destruct m as [[u|r|e] t]; simpl; intros H; inversion H; reflexivity. Qed.

End AuthFacts.

Module AuthProps.
Import AuthFacts.

(** C8.  [resolveGarAuthToken] never throws: whatever the metadata server
    and the [gcloud] command do, it returns the token of the metadata
    endpoint when that strategy finds a non-empty one, else that of the
    command when non-empty, else [null].  The metadata endpoint is asked
    first, with the [Metadata-Flavor: Google] header and a 3000 ms
    time-out; the command is run, with a 10000 ms time-out, exactly when
    the metadata strategy found nothing. *)
Theorem resolveGarAuthToken_never_throws (js : JsRuntime) (w : AuthWorld) :
  let run := resolveGarAuthToken js w in
  fst run
  = Return (match metadata_token w with
            | Some t => Some t
            | None => gcloud_token js w
            end)
  /\ (forall t, fst run = Return (Some t) -> t <> "")
  /\ (metadata_token w = None /\ gcloud_token js w = None <-> fst run = Return None)
  /\ (exists rest, Eff.trace run = metadata_request :: rest)
  /\ (In gcloud_request (Eff.trace run) <-> metadata_token w = None)
  /\ metadata_request
     = EvFetch
         "http://metadata.google.internal/computeMetadata/v1/instance/service-accounts/default/token"
         [("Metadata-Flavor", "Google")] 3000
  /\ gcloud_request
     = EvRunCommand ["gcloud"; "auth"; "print-access-token"] 10000.
Proof.
  intros run.
  destruct (fetchMetadataToken_total w) as (Hm & restm & Htm & Hnotin).
  destruct (fetchGcloudCliToken_total js w) as (Hg & Htg).
  assert (Hrun : run
    = (Return (match metadata_token w with
               | Some t => Some t
               | None => gcloud_token js w
               end),
       match metadata_token w with
       | Some _ => metadata_request :: restm
       | None => (metadata_request :: restm) ++ [gcloud_request]
       end%list)).
  { unfold run, resolveGarAuthToken.
    rewrite (await_returned None _ _ Hm), Htm.
    destruct (metadata_token w) as [t|] eqn:Em.
    - unfold Eff.bind.
      rewrite (truthy_opt_Some t (metadata_token_nonempty w t Em)).
      simpl. rewrite app_nil_r. reflexivity.
    - unfold Eff.bind at 1. simpl truthy_opt. cbv iota.
      rewrite (await_returned None _ _ Hg), Htg.
      destruct (gcloud_token js w) as [t|] eqn:Eg.
      + unfold Eff.bind.
        rewrite (truthy_opt_Some t (gcloud_token_nonempty js w t Eg)). reflexivity.
      + reflexivity. }
  rewrite Hrun. unfold Eff.trace. simpl fst. simpl snd.
  split; [reflexivity|]. split; [|split; [|split; [|split; [|split]]]].
  - intros t H. inversion H as [H1].
    destruct (metadata_token w) as [t'|] eqn:E.
    + inversion H1; subst t'. exact (metadata_token_nonempty w t E).
    + exact (gcloud_token_nonempty js w t H1).
  - split.
    + intros [-> ->]. reflexivity.
    + intros H. inversion H as [H1].
      destruct (metadata_token w); [discriminate|]. split; congruence.
  - destruct (metadata_token w); eexists; reflexivity.
  - destruct (metadata_token w) as [t|]; split.
    + intros [H|H]; [discriminate H|contradiction].
    + discriminate.
    + reflexivity.
    + intros _. right. apply in_or_app. right. left. reflexivity.
  - reflexivity.
  - reflexivity.
Qed.

(** On a machine without metadata server and with a logged-in [gcloud],
    the token is the trimmed output of the command. *)
Example token_from_gcloud (js : JsRuntime) :
  resolveGarAuthToken js
    {| w_metadata := Rejected Sample.fetch_failed;
       w_gcloud := Resolved {| cmd_code := Some 0%Z;
                               cmd_stdout := "ya29.cli-token
" |} |}
  = (Return (Some "ya29.cli-token"), [metadata_request; gcloud_request]).
Proof.
  unfold resolveGarAuthToken, fetchGcloudCliToken. simpl.
  rewrite (trim_ascii js) by reflexivity. reflexivity.
Qed.

Example token_from_metadata (js : JsRuntime) :
  resolveGarAuthToken js
    {| w_metadata :=
         Resolved {| md_ok := true;
                     md_json := Resolved {| access_token := Some "ya29.gce" |} |};
       w_gcloud := Rejected (Error "spawn gcloud ENOENT") |}
  = (Return (Some "ya29.gce"), [metadata_request; EvJson]).
Proof. reflexivity. Qed.

Example no_token_anywhere (js : JsRuntime) :
  resolveGarAuthToken js
    {| w_metadata := Resolved {| md_ok := false; md_json := Rejected (Error "") |};
       w_gcloud := Resolved {| cmd_code := Some 1%Z; cmd_stdout := "" |} |}
  = (Return None, [metadata_request; gcloud_request]).
Proof. reflexivity. Qed.

End AuthProps.

(** ** Sync handler *)

Module SyncFacts.

Lemma ledger_record_same now c k r :
  ledger_entry (recordSkillInstall now c k r) k
  = Some {| source := source r; version := version r;
            archiveUrl := archiveUrl r;
            installedAt := Some (default now (installedAt r)) |}.
Proof.
  unfold ledger_entry, skill_installs, recordSkillInstall. simpl.
  apply lookup_insert_eq.
Qed.

Lemma ledger_record_other now c k r k' :
  k' <> k ->
  ledger_entry (recordSkillInstall now c k r) k' = ledger_entry c k'.
Proof.
  intros Hne. unfold ledger_entry, skill_installs, recordSkillInstall. simpl.
  rewrite lookup_insert_ne by congruence.
  destruct (skills c) as [s|]; simpl; [|reflexivity].
  destruct (installs s); reflexivity.
Qed.

(** The classification of a skill depends on the two configurations only
    through the entry of that skill. *)
Lemma sync_outcome_rebase w catalog token before before' after after' k r res :
  ledger_entry before' k = ledger_entry before k ->
  ledger_entry after' k = ledger_entry after k ->
  sync_outcome w catalog token before after (k, r) res ->
  sync_outcome w catalog token before' after' (k, r) res.
Proof.
  intros Hb Ha H. inversion H; subst.
  - apply sync_gone; congruence.
  - eapply sync_unchanged; eauto; congruence.
  - eapply sync_no_reference; eauto; congruence.
  - eapply sync_updated; eauto; congruence.
  - eapply sync_errored; eauto; congruence.
Qed.

(** A skill has one classification. *)
Lemma sync_outcome_functional w catalog token before after kr res res' :
  sync_outcome w catalog token before after kr res ->
  sync_outcome w catalog token before after kr res' ->
  res = res'.
Proof.
  intros H H'. inversion H; subst; inversion H'; subst;
    try reflexivity; try congruence.
Qed.

Lemma sync_outcomes_rebase w catalog token before before' after entries rs :
  (forall k r, In (k, r) entries -> ledger_entry before' k = ledger_entry before k) ->
  Forall2 (sync_outcome w catalog token before after) entries rs ->
  Forall2 (sync_outcome w catalog token before' after) entries rs.
Proof.
  intros Hb H. induction H as [|[k r] res entries rs Hh Ht IH]; constructor.
  - eapply sync_outcome_rebase; [| |exact Hh]; [|reflexivity].
    apply (Hb k r). left. reflexivity.
  - apply IH. intros k' r' Hin. apply (Hb k' r'). right. exact Hin.
Qed.

Lemma in_map_fst {A B} (k : A) (v : B) (l : list (A * B)) :
  In (k, v) l -> In k (List.map fst l).
Proof. intros H. apply (in_map fst) in H. exact H. Qed.

Lemma NoDup_fst_filter {A B} (f : A * B -> bool) (l : list (A * B)) :
  NoDup (List.map fst l) -> NoDup (List.map fst (List.filter f l)).
Proof.
  induction l as [|[k v] l IH]; simpl; intros H; [constructor|].
  apply NoDup_cons in H as [Hnin Hnd].
  destruct (f (k, v)); simpl; [|auto].
  apply NoDup_cons. split; [|auto].
  rewrite list_elem_of_In in *.
  intros Hin. apply Hnin.
  apply in_map_iff in Hin as ([k' v'] & Hk & Hin). simpl in Hk. subst k'.
  apply List.filter_In in Hin as [Hin _]. eapply in_map_fst; eauto.
Qed.

Lemma map_fst_fmap {A B} (l : list (A * B)) : l.*1 = List.map fst l.
Proof. induction l as [|x l IH]; simpl; [reflexivity|]. rewrite <- IH. reflexivity. Qed.

(** The entries of an object are those of the map, whatever the order. *)
Lemma object_entries_spec {V} (order : list string) :
  forall (m : gmap string V) k v,
    In (k, v) (object_entries order m) <-> m !! k = Some v.
Proof.
  induction order as [|k0 rest IH]; intros m k v; simpl.
  - rewrite <- list_elem_of_In. apply elem_of_map_to_list.
  - destruct (m !! k0) as [v0|] eqn:E; [|apply IH].
    simpl. rewrite IH. split.
    + intros [H|H].
      * inversion H; subst. exact E.
      * apply lookup_delete_Some in H as [_ H]. exact H.
    + intros H. destruct (String.string_dec k0 k) as [->|Hne].
      * left. congruence.
      * right. apply lookup_delete_Some. split; [exact Hne|exact H].
Qed.

(** Every key is enumerated once. *)
Lemma object_entries_NoDup {V} (order : list string) :
  forall (m : gmap string V), NoDup (List.map fst (object_entries order m)).
Proof.
  induction order as [|k0 rest IH]; intros m; simpl.
  - rewrite <- map_fst_fmap. apply NoDup_fst_map_to_list.
  - destruct (m !! k0) as [v0|] eqn:E; [|apply IH].
    simpl. apply NoDup_cons. split; [|apply IH].
    rewrite list_elem_of_In. intros Hin.
    apply in_map_iff in Hin as ([k v] & Hk & Hin). simpl in Hk. subst k.
    apply object_entries_spec in Hin. rewrite lookup_delete_eq in Hin.
    discriminate Hin.
Qed.

(** When [order] lists the keys of the map, once each, the entries that a
    filter keeps come in that order. *)
Lemma object_entries_listed {V} (f : string * V -> bool) (order : list string) :
  forall (m : gmap string V),
    NoDup order ->
    (forall k, In k order <-> is_Some (m !! k)) ->
    List.map fst (List.filter f (object_entries order m))
    = List.filter (fun k => match m !! k with
                            | Some v => f (k, v)
                            | None => false
                            end) order.
Proof.
  induction order as [|k0 rest IH]; intros m Hnd Hdom; simpl.
  - assert (m = ∅) as ->.
    { apply map_empty. intros k. destruct (m !! k) eqn:E; [|reflexivity].
      exfalso. apply (proj2 (Hdom k)). eauto. }
    rewrite map_to_list_empty. reflexivity.
  - apply NoDup_cons in Hnd as [Hnin Hnd]. rewrite list_elem_of_In in Hnin.
    destruct (proj1 (Hdom k0) (or_introl eq_refl)) as [v0 E]. rewrite E. simpl.
    assert (Hrest : List.map fst (List.filter f (object_entries rest (delete k0 m)))
                    = List.filter (fun k => match m !! k with
                                            | Some v => f (k, v)
                                            | None => false
                                            end) rest).
    { rewrite IH; [|exact Hnd|].
      - apply List.filter_ext_in. intros k Hin.
        rewrite lookup_delete_ne; [reflexivity|]. intros ->. contradiction.
      - intros k. split.
        + intros Hin. destruct (proj1 (Hdom k) (or_intror Hin)) as [v Hv].
          exists v. apply lookup_delete_Some. split; [|exact Hv].
          intros ->. contradiction.
        + intros [v Hv]. apply lookup_delete_Some in Hv as [Hne Hv].
          destruct (proj2 (Hdom k) (ex_intro _ v Hv)) as [->|Hin];
            [congruence|exact Hin]. }
    destruct (f (k0, v0)); simpl; rewrite Hrest; reflexivity.
Qed.

(** The marketplace skills are enumerated once each. *)
Lemma marketplaceSkills_NoDup (order : list string) (cfg : SimpleClawConfig) :
  NoDup (List.map fst (marketplaceSkills order cfg)).
Proof.
  unfold marketplaceSkills. apply NoDup_fst_filter. apply object_entries_NoDup.
Qed.

(** The marketplace skills are the ledger entries whose source is the
    marketplace. *)
Lemma marketplaceSkills_spec (order : list string) (cfg : SimpleClawConfig) k r :
  In (k, r) (marketplaceSkills order cfg)
  <-> ledger_entry cfg k = Some r /\ source r = SrcMarketplace.
Proof.
  unfold marketplaceSkills, ledger_entry, from_marketplace.
  rewrite List.filter_In, object_entries_spec. simpl.
  destruct (source r); split; intros [H1 H2]; split; congruence.
Qed.

Section Loop.
Variable w : SyncWorld.
Variable catalog : MarketplaceCatalog.
Variable token : option string.
Hypothesis installs_return :
  forall params, exists result, sw_install w params = Resolved result.

(** When no install rejects, the loop visits every entry, pushes one
    result for each, and rewrites the ledger entries of the updated
    skills only. *)
Lemma sync_loop_resolved (entries : list (string * SkillInstallRecord)) :
  NoDup (List.map fst entries) ->
  forall st, exists st' rs,
    sync_loop w catalog token entries st = (st', None)
    /\ st_results st' = (st_results st ++ rs)%list
    /\ st_changed st' = st_changed st || existsb is_updated rs
    /\ Forall2 (sync_outcome w catalog token (st_next st) (st_next st')) entries rs
    /\ (forall k, ~ In k (List.map fst entries) ->
          ledger_entry (st_next st') k = ledger_entry (st_next st) k).
Proof.
  induction entries as [|[k r] rest IH]; intros Hnd st.
  - exists st, []. simpl. rewrite app_nil_r, orb_false_r.
    repeat split; auto.
  - simpl in Hnd. apply NoDup_cons in Hnd as [Hk Hnd].
    rewrite list_elem_of_In in Hk.
    specialize (IH Hnd).
    (* what every branch that pushes [res] on a state [st1] needs *)
    assert (Hstep : forall st1 res,
      st_results st1 = st_results st ->
      st_changed st1 = st_changed st || is_updated res ->
      (forall k', k' <> k ->
         ledger_entry (st_next st1) k' = ledger_entry (st_next st) k') ->
      (forall after, ledger_entry after k = ledger_entry (st_next st1) k ->
         sync_outcome w catalog token (st_next st) after (k, r) res) ->
      exists st' rs,
        sync_loop w catalog token rest (push st1 res) = (st', None)
        /\ st_results st' = (st_results st ++ rs)%list
        /\ st_changed st' = st_changed st || existsb is_updated rs
        /\ Forall2 (sync_outcome w catalog token (st_next st) (st_next st'))
             ((k, r) :: rest) rs
        /\ (forall k', ~ In k' (List.map fst ((k, r) :: rest)) ->
              ledger_entry (st_next st') k' = ledger_entry (st_next st) k')).
    { intros st1 res Hres Hch Hother Hhead.
      destruct (IH (push st1 res)) as (st' & rs & Hloop & Hrs & Hc & Hall & Hframe).
      exists st', (res :: rs). simpl in *.
      split; [exact Hloop|]. split; [|split; [|split]].
      - rewrite Hrs, Hres, <- app_assoc. reflexivity.
      - rewrite Hc, Hch, orb_assoc. reflexivity.
      - constructor.
        + apply Hhead. apply Hframe. exact Hk.
        + eapply sync_outcomes_rebase; [|exact Hall].
          intros k' r' Hin. symmetry. apply Hother.
          intros ->. apply Hk. eapply in_map_fst; eauto.
      - intros k' Hnin. rewrite Hframe by tauto. apply Hother.
        intros ->. apply Hnin. left. reflexivity. }
    simpl.
    destruct (find_skill catalog k) as [e|] eqn:Hfind.
    + destruct (String.eqb (version r) (se_version e)) eqn:Hver.
      * apply String.eqb_eq in Hver.
        apply Hstep; auto; [rewrite orb_false_r; reflexivity|].
        intros after Ha. eapply sync_unchanged; eauto.
      * apply String.eqb_neq in Hver.
        destruct (or_null (se_archiveUrl e)) as [url|] eqn:Hurl.
        -- destruct (installs_return (install_request k url token)) as [result Hres].
           rewrite Hres. destruct result as [n t|err].
           ++ apply (Hstep
                {| st_next :=
                     recordSkillInstall (sw_now w k) (st_next st) k
                       {| source := SrcMarketplace; version := se_version e;
                          archiveUrl := Some url; installedAt := None |};
                   st_changed := true;
                   st_results := st_results st |}); simpl.
              ** reflexivity.
              ** rewrite orb_true_r. reflexivity.
              ** intros k' Hne. apply ledger_record_other. exact Hne.
              ** intros after Ha. eapply sync_updated; eauto.
                 rewrite Ha. apply ledger_record_same.
           ++ apply Hstep; auto; [rewrite orb_false_r; reflexivity|].
              intros after Ha. eapply sync_errored; eauto.
        -- apply Hstep; auto; [rewrite orb_false_r; reflexivity|].
           intros after Ha. eapply sync_no_reference; eauto.
    + apply Hstep; auto; [rewrite orb_false_r; reflexivity|].
      intros after Ha. apply sync_gone; auto.
Qed.

End Loop.

End SyncFacts.

Module SyncProps.
Import SyncFacts.

Lemma drop_plugin_results {A} (f : A -> SyncResult) (o : list A) (rs : list SyncResult) :
  drop (length o) (List.map f o ++ rs)%list = rs.
Proof.
  induction o as [|x o IH]; simpl; [reflexivity|exact IH].
Qed.

(** C5, counterexample.  With no catalog URL configured, the installed
    marketplace skill [runbook] is given no classification at all: the
    handler replies with an empty result list and writes nothing. *)
Lemma skill_without_catalog_url_is_not_classified :
  ledger_entry (sw_config (Sample.sync_world None)) "runbook"
  = Some Sample.runbook_record
  /\ source Sample.runbook_record = SrcMarketplace
  /\ In ("runbook", Sample.runbook_record)
       (marketplaceSkills (sw_order (Sample.sync_world None))
          (sw_config (Sample.sync_world None)))
  /\ run_reply (handleSync (Sample.sync_world None) "POST")
     = Resolved (SyncOk false [])
  /\ run_results (handleSync (Sample.sync_world None) "POST") = []
  /\ run_written (handleSync (Sample.sync_world None) "POST") = [].
Proof.
  assert (H : ledger_entry (sw_config (Sample.sync_world None)) "runbook"
              = Some Sample.runbook_record)
    by (vm_compute; reflexivity).
  split; [exact H|]. split; [reflexivity|]. split.
  - apply (proj2 (marketplaceSkills_spec (sw_order (Sample.sync_world None))
                    (sw_config (Sample.sync_world None))
                    "runbook" Sample.runbook_record)).
    split; [exact H|reflexivity].
  - vm_compute. repeat split.
Qed.

(** C5, as amended.  The marketplace skills are the ledger entries whose
    source is the marketplace, each enumerated once, in the key order of
    the ledger.  When a catalog URL is configured, the catalog was fetched,
    the token resolved and every re-install returns a result, the handler
    pushes for each of them, in that order, exactly one result: [skipped] with [No longer in catalog] when the catalog has
    no entry of that name, [unchanged] when the versions are equal,
    [skipped] with [No archive URL] when they differ and the entry has no
    archive URL, and otherwise [updated] with the two versions when the
    re-install succeeded and [error] with the message of the installer when
    it failed.  The ledger entry of a skill is rewritten in the first of the
    last two cases and left as it was in all others, as are the entries of
    all other skills; [changed] is set by the plugin half or by an update.
    When no catalog URL is configured the marketplace skills are not
    classified at all: the skill half pushes no result and leaves the
    configuration and [changed] as the plugin half left them.  In every
    case the configuration is written exactly when [changed] is set. *)
Theorem sync_classifies_marketplace_skills (w : SyncWorld) :
  let run := handleSync w "POST" in
  let cfg := sw_config w in
  let entries := marketplaceSkills (sw_order w) cfg in
  (forall k r, In (k, r) entries
               <-> ledger_entry cfg k = Some r /\ source r = SrcMarketplace)
  /\ NoDup (List.map fst entries)
  /\ (NoDup (sw_order w) ->
      (forall k, In k (sw_order w) <-> is_Some (ledger_entry cfg k)) ->
      List.map fst entries
      = List.filter (fun k => match ledger_entry cfg k with
                              | Some r => from_marketplace r
                              | None => false
                              end) (sw_order w))
  /\ (forall reg url catalog token,
        registry_of cfg = Some reg ->
        or_null (catalogUrl reg) = Some url ->
        sw_catalog w = Resolved catalog ->
        resolveMarketplaceAuthToken (sw_garToken w) cfg = Resolved token ->
        (forall params, exists result, sw_install w params = Resolved result) ->
        Forall2 (sync_outcome w catalog token (pu_config (sw_plugins w)) (run_next run))
          entries (skill_results w run)
        /\ (forall kr res res',
              sync_outcome w catalog token (pu_config (sw_plugins w)) (run_next run) kr res ->
              sync_outcome w catalog token (pu_config (sw_plugins w)) (run_next run) kr res' ->
              res = res')
        /\ (forall k, ~ In k (List.map fst entries) ->
              ledger_entry (run_next run) k = ledger_entry (pu_config (sw_plugins w)) k)
        /\ run_changed run
           = pu_changed (sw_plugins w) || existsb is_updated (skill_results w run))
  /\ ((registry_of cfg ≫= fun reg => or_null (catalogUrl reg)) = None ->
      skill_results w run = []
      /\ run_next run = pu_config (sw_plugins w)
      /\ run_changed run = pu_changed (sw_plugins w))
  /\ run_written run = (if run_changed run then [run_next run] else [])
  /\ run_reply run
     = (if run_changed run
        then match sw_writeConfig w with
             | Resolved _ => Resolved (SyncOk true (run_results run))
             | Rejected e => Rejected e
             end
        else Resolved (SyncOk false (run_results run))).
Proof.
  intros run cfg entries.
  set (st0 := {| st_next := pu_config (sw_plugins w);
                 st_changed := pu_changed (sw_plugins w);
                 st_results := List.map plugin_result (pu_outcomes (sw_plugins w)) |}).
  assert (Hrun : run_results run = st_results (sync_skills w st0)
                 /\ run_next run = st_next (sync_skills w st0)
                 /\ run_changed run = st_changed (sync_skills w st0)
                 /\ run_written run = (if run_changed run then [run_next run] else [])
                 /\ run_reply run
                    = (if run_changed run
                       then match sw_writeConfig w with
                            | Resolved _ => Resolved (SyncOk true (run_results run))
                            | Rejected e => Rejected e
                            end
                       else Resolved (SyncOk false (run_results run)))).
  { unfold run, handleSync. simpl negb. cbv iota. fold st0.
    destruct (st_changed (sync_skills w st0)); repeat split; reflexivity. }
  destruct Hrun as (Hres & Hnext & Hchg & Hwr & Hrep).
  split; [intros k r; apply marketplaceSkills_spec|].
  split; [apply marketplaceSkills_NoDup|].
  split.
  { intros Hnd Hdom. unfold entries, marketplaceSkills.
    apply (object_entries_listed (fun kr => from_marketplace (snd kr))
             (sw_order w) (skill_installs cfg) Hnd Hdom). }
  split; [|split; [|split; [exact Hwr|exact Hrep]]].
  - intros reg url catalog token Hreg Hurl Hcat Htok Hinst.
    assert (Hst : exists rs,
      st_results (sync_skills w st0) = (st_results st0 ++ rs)%list
      /\ st_changed (sync_skills w st0) = st_changed st0 || existsb is_updated rs
      /\ Forall2 (sync_outcome w catalog token (st_next st0)
                    (st_next (sync_skills w st0))) entries rs
      /\ (forall k, ~ In k (List.map fst entries) ->
            ledger_entry (st_next (sync_skills w st0)) k
            = ledger_entry (st_next st0) k)).
    { unfold sync_skills. fold cfg. fold entries.
      destruct (0 <? length entries)%nat eqn:Hlen.
      - rewrite Hreg, Hurl, Hcat, Htok.
        destruct (sync_loop_resolved w catalog token Hinst entries
                    (marketplaceSkills_NoDup (sw_order w) cfg) st0)
          as (st' & rs & Hloop & H1 & H2 & H3 & H4).
        rewrite Hloop. exists rs. auto.
      - apply Nat.ltb_ge in Hlen.
        destruct entries; [|simpl in Hlen; lia].
        exists []. rewrite app_nil_r, orb_false_r.
        repeat split; auto. }
    destruct Hst as (rs & Hrs & Hch & Hall & Hframe).
    assert (Hdrop : skill_results w run = rs).
    { unfold skill_results. rewrite Hres, Hrs. apply drop_plugin_results. }
    rewrite Hdrop, Hnext, Hchg.
    split; [exact Hall|]. split; [apply sync_outcome_functional|].
    split; [exact Hframe|exact Hch].
  - intros Hnone.
    assert (Hsk : sync_skills w st0 = st0).
    { unfold sync_skills. fold cfg.
      destruct (0 <? length (marketplaceSkills (sw_order w) cfg))%nat;
        [|reflexivity].
      destruct (registry_of cfg) as [reg|]; [|reflexivity].
      simpl in Hnone. rewrite Hnone. reflexivity. }
    unfold skill_results. rewrite Hres, Hnext, Hchg, Hsk. simpl.
    split; [|split; reflexivity].
    rewrite <- (app_nil_r (List.map plugin_result _)).
    apply drop_plugin_results.
Qed.

Lemma sync_classifies_marketplace_skills_witness :
  let W := Sample.sync_world (Some Sample.registry_with_catalog) in
  (forall params, exists result, sw_install W params = Resolved result)
  /\ Forall2
       (sync_outcome W Sample.MOCK_CATALOG None (pu_config (sw_plugins W))
          (run_next (handleSync W "POST")))
       (marketplaceSkills (sw_order W) (sw_config W))
       (skill_results W (handleSync W "POST")).
Proof.
  intros W.
  assert (H : forall params, exists result, sw_install W params = Resolved result).
  { intros params. eexists. reflexivity. }
  split; [exact H|].
  exact (proj1 (proj1 (proj2 (proj2 (proj2
           (sync_classifies_marketplace_skills W))))
           Sample.registry_with_catalog "gs://bucket/catalog.json"
           Sample.MOCK_CATALOG None eq_refl eq_refl eq_refl eq_refl H)).
Defined.

(** The same skill once a catalog URL is configured: the catalog carries
    version 1.0.0, the skill is re-installed and its ledger entry
    rewritten. *)
Example runbook_is_updated :
  let W := Sample.sync_world (Some Sample.registry_with_catalog) in
  run_reply (handleSync W "POST")
  = Resolved (SyncOk true
                [skill_result "runbook" "updated" (Some "0.9.0") (Some "1.0.0")
                   None None])
  /\ ledger_entry (run_next (handleSync W "POST")) "runbook"
     = Some {| source := SrcMarketplace; version := "1.0.0";
               archiveUrl := Some "gs://bucket/runbook.tar.gz";
               installedAt := Some Sample.t2 |}
  /\ run_written (handleSync W "POST") = [run_next (handleSync W "POST")].
Proof. vm_compute. repeat split. Qed.

End SyncProps.

(* ===================================================================== *)
(** * Further properties *)
(* ===================================================================== *)

(** ** URL rewriting *)

Module UrlFacts.

Lemma substring_all (s : string) : String.substring 0 (String.length s) s = s.
Proof. induction s as [|c s IH]; simpl; [reflexivity|]. rewrite IH. reflexivity. Qed.

(** Dropping a prefix: [(p ++ rest).slice(p.length)] is [rest]. *)
Lemma substring_drop_prefix (p rest : string) :
  String.substring (String.length p) (String.length (p ++ rest) - String.length p)
    (p ++ rest) = rest.
Proof.
  induction p as [|c p IH]; simpl.
  - rewrite Nat.sub_0_r. apply substring_all.
  - exact IH.
Qed.

Lemma startsWith_false_app (s p rest : string) :
  startsWith s p = false -> s <> p ++ rest.
Proof.
  intros H ->. rewrite startsWith_app in H. discriminate H.
Qed.

End UrlFacts.

Module UrlProps.
Import UrlFacts.

(** X1.  [resolveGcsUrl] rewrites [gs://rest] to
    [https://storage.googleapis.com/rest], keeps every other URL, never
    returns a [gs://] URL, and applying it twice is applying it once. *)
Theorem resolveGcsUrl_rewrites (url : string) :
  (forall rest,
     resolveGcsUrl ("gs://" ++ rest) = "https://storage.googleapis.com/" ++ rest)
  /\ (startsWith url "gs://" = false -> resolveGcsUrl url = url)
  /\ startsWith (resolveGcsUrl url) "gs://" = false
  /\ resolveGcsUrl (resolveGcsUrl url) = resolveGcsUrl url.
Proof.
  assert (H1 : forall rest,
    resolveGcsUrl ("gs://" ++ rest) = "https://storage.googleapis.com/" ++ rest).
  { intros rest. unfold resolveGcsUrl.
    rewrite startsWith_app. cbv [negb].
    f_equal. exact (substring_drop_prefix "gs://" rest). }
  assert (H2 : forall u, startsWith u "gs://" = false -> resolveGcsUrl u = u).
  { intros u H. unfold resolveGcsUrl. rewrite H. reflexivity. }
  assert (H3 : forall u, startsWith (resolveGcsUrl u) "gs://" = false).
  { intros u. destruct (startsWith u "gs://") eqn:E.
    - apply startsWith_inv in E as [rest ->]. rewrite H1. reflexivity.
    - rewrite (H2 u E). exact E. }
  split; [exact H1|]. split; [exact (H2 url)|]. split; [exact (H3 url)|].
  apply H2. apply H3.
Qed.

Example gcs_catalog_url :
  resolveGcsUrl "gs://my-bucket/path/catalog.json"
  = "https://storage.googleapis.com/my-bucket/path/catalog.json".
Proof. reflexivity. Qed.

End UrlProps.

(** ** Catalog client, continued *)

Module CatalogMoreFacts.
Import CatalogFetchFacts.

(** What validation leaves of a body: it completes normally or throws. *)
Lemma validateCatalog_cases {R} (body : Json) :
  (fst (validateCatalog (R:=R) body) = Normal tt
   /\ numeric_version body /\ array_field body "plugins" /\ array_field body "skills")
  \/ (exists rest, fst (validateCatalog (R:=R) body) = Throw (Error ("Invalid catalog: " ++ rest))).
Proof.
  unfold validateCatalog.
  destruct (is_object body); simpl; [|right; eexists; reflexivity].
  destruct (is_number _) eqn:Hv; simpl; [|right; eexists; reflexivity].
  destruct (is_array (js_prop body "plugins")) eqn:Hp; simpl;
    [|right; eexists; reflexivity].
  destruct (is_array (js_prop body "skills")) eqn:Hs; simpl;
    [|right; eexists; reflexivity].
  left. split; [reflexivity|].
  split; [apply is_number_spec; exact Hv|].
  split; apply is_array_spec; assumption.
Qed.

Lemma validateCatalog_trace {R} (body : Json) :
  Eff.trace (validateCatalog (R:=R) body) = [].
Proof.
  unfold validateCatalog.
  destruct (is_object body); simpl; [|reflexivity].
  destruct (is_number _); simpl; [|reflexivity].
  destruct (is_array (js_prop body "plugins")); simpl; [|reflexivity].
  destruct (is_array (js_prop body "skills")); reflexivity.
Qed.

(** The body of [fetchCatalog] ends in a [return] or a [throw]. *)
Lemma fetchCatalog_abrupt fetched catalogUrl token :
  (exists body, fst (fetchCatalog fetched catalogUrl token) = Return body)
  \/ (exists e, fst (fetchCatalog fetched catalogUrl token) = Throw e).
Proof.
  unfold fetchCatalog.
  destruct fetched as [[ok st stt [body|e]]|e]; simpl; [| |right; eauto].
  - destruct ok; simpl; [|right; eauto].
    destruct (validateCatalog body) as [[[]|r|e] t]; simpl; eauto.
  - destruct ok; simpl; right; eauto.
Qed.

(** Awaiting [fetchCatalog] and returning its value is [fetchCatalog]. *)
Lemma return_awaited_fetch fetched catalogUrl token :
  Eff.bind (Eff.await (R:=Json) JNull (fetchCatalog fetched catalogUrl token))
    (fun body => Eff.return_ (A:=unit) body)
  = fetchCatalog fetched catalogUrl token.
Proof.
  destruct (fetchCatalog_abrupt fetched catalogUrl token) as [[b H]|[e H]];
    destruct (fetchCatalog fetched catalogUrl token) as [[u|r|e'] t];
    simpl in *; inversion H; subst; rewrite ?app_nil_r; reflexivity.
Qed.

Lemma bind_ret_l {R A B} (a : A) (k : A -> Eff.M R B) :
  Eff.bind (Eff.ret a) k = k a.
Proof. unfold Eff.bind, Eff.ret. destruct (k a). reflexivity. Qed.

Lemma bind_normal {R A B} (a : A) (tr : list Event) (k : A -> Eff.M R B) :
  Eff.bind (Normal a, tr) k = (fst (k a), (tr ++ snd (k a))%list).
Proof. unfold Eff.bind. destruct (k a). reflexivity. Qed.

(** What the resolver returns, and that it makes a call. *)
Lemma resolveGarAuthToken_returns (js : JsRuntime) (aw : AuthWorld) :
  fst (resolveGarAuthToken js aw)
  = Return (match metadata_token aw with
            | Some t => Some t
            | None => gcloud_token js aw
            end)
  /\ Eff.trace (resolveGarAuthToken js aw) <> [].
Proof.
  destruct (AuthFacts.fetchMetadataToken_total aw) as (Hm & restm & Htm & _).
  destruct (AuthFacts.fetchGcloudCliToken_total js aw) as (Hg & Htg).
  unfold resolveGarAuthToken.
  rewrite (AuthFacts.await_returned None _ _ Hm), Htm.
  destruct (metadata_token aw) as [t|] eqn:Em.
  - unfold Eff.bind.
    rewrite (AuthFacts.truthy_opt_Some t (AuthFacts.metadata_token_nonempty aw t Em)).
    simpl. split; [reflexivity|discriminate].
  - unfold Eff.bind at 1. simpl truthy_opt. cbv iota.
    rewrite (AuthFacts.await_returned None _ _ Hg), Htg.
    destruct (gcloud_token js aw) as [t|] eqn:Eg.
    + unfold Eff.bind.
      rewrite (AuthFacts.truthy_opt_Some t (AuthFacts.gcloud_token_nonempty js aw t Eg)).
      simpl. split; [reflexivity|discriminate].
    + simpl. split; [reflexivity|discriminate].
Qed.

End CatalogMoreFacts.

Module CatalogMoreProps.
Import CatalogFetchFacts CatalogMoreFacts.

(** X2.  [fetchCatalog] sends one request and no more, to the rewritten
    URL, with the bearer header exactly when a non-empty token is given and a
    15000 ms time-out; the only other call it makes is the reading of the
    body, once, after a success status.  A rejected fetch is rethrown as it
    is; on a non-success status the body is not read and the error names
    the rewritten URL, the status and the reason phrase; a body that cannot
    be parsed rethrows the parser's error; a parsed body is returned or
    refused as an invalid catalog. *)
Theorem fetchCatalog_failure_modes (catalogUrl : string) (token : option string) :
  (forall e,
     fetchCatalog (Rejected e) catalogUrl token
     = (Throw e, [catalog_request catalogUrl token]))
  /\ (forall res,
        cr_ok res = false ->
        fetchCatalog (Resolved res) catalogUrl token
        = (Throw (Error ("Failed to fetch catalog from " ++ resolveGcsUrl catalogUrl
                         ++ ": " ++ pretty (cr_status res) ++ " "
                         ++ cr_statusText res)),
           [catalog_request catalogUrl token]))
  /\ (forall res e,
        cr_ok res = true -> cr_json res = Rejected e ->
        fetchCatalog (Resolved res) catalogUrl token
        = (Throw e, [catalog_request catalogUrl token; EvJson]))
  /\ (forall res body,
        cr_ok res = true -> cr_json res = Resolved body ->
        Eff.trace (fetchCatalog (Resolved res) catalogUrl token)
        = [catalog_request catalogUrl token; EvJson]
        /\ (fst (fetchCatalog (Resolved res) catalogUrl token) = Return body
            \/ exists rest,
                 fst (fetchCatalog (Resolved res) catalogUrl token)
                 = Throw (Error ("Invalid catalog: " ++ rest))))
  /\ (forall fetched,
        Eff.trace (fetchCatalog fetched catalogUrl token)
        = catalog_request catalogUrl token
          :: match fetched with
             | Resolved res => if cr_ok res then [EvJson] else []
             | Rejected _ => []
             end)
  /\ (forall fetched,
        length (List.filter is_fetch
                  (Eff.trace (fetchCatalog fetched catalogUrl token))) = 1)
  /\ catalog_request catalogUrl token
     = EvFetch (resolveGcsUrl catalogUrl)
         match token with
         | Some (String c t) => [("Authorization", "Bearer " ++ String c t)]
         | _ => []
         end 15000
  /\ (bearer_of token = None <-> token = None \/ token = Some "").
Proof.
  assert (Htrace : forall fetched,
            Eff.trace (fetchCatalog fetched catalogUrl token)
            = catalog_request catalogUrl token
              :: match fetched with
                 | Resolved res => if cr_ok res then [EvJson] else []
                 | Rejected _ => []
                 end).
  { intros fetched. unfold fetchCatalog.
    destruct fetched as [[ok st stt [body|e]]|e]; simpl;
      try (destruct ok; simpl); try reflexivity.
    pose proof (validateCatalog_trace (R:=Json) body) as Hv.
    destruct (validateCatalog body) as [[[]|r|e] t]; unfold Eff.trace in Hv;
      simpl in Hv; subst t; reflexivity. }
  split; [|split; [|split; [|split; [|split; [|split; [|split]]]]]].
  - intros e. reflexivity.
  - intros res Hok. unfold fetchCatalog. simpl. rewrite Hok. reflexivity.
  - intros res e Hok Hj. unfold fetchCatalog. simpl. rewrite Hok. simpl.
    rewrite Hj. reflexivity.
  - intros res body Hok Hj. split.
    + rewrite Htrace, Hok. reflexivity.
    + rewrite (fetchCatalog_ok _ _ _ _ Hok Hj).
      destruct (validateCatalog_cases (R:=Json) body) as [[H _]|[rest H]];
        rewrite H; [left; reflexivity|right; exists rest; reflexivity].
  - exact Htrace.
  - intros fetched. rewrite Htrace.
    destruct fetched as [res|e]; [destruct (cr_ok res)|]; reflexivity.
  - unfold catalog_request, bearer_of.
    destruct token as [[|c t]|]; reflexivity.
  - unfold bearer_of. destruct token as [[|c t]|]; simpl; split; intros H;
      try reflexivity; try discriminate; auto.
    + destruct H as [H|H]; discriminate H.
Qed.

Lemma fetchCatalog_failure_modes_witness :
  fetchCatalog
    (Resolved {| cr_ok := false; cr_status := 403; cr_statusText := "Forbidden";
                 cr_json := Rejected (Error "unused") |})
    "gs://bucket/catalog.json" None
  = (Throw (Error "Failed to fetch catalog from https://storage.googleapis.com/bucket/catalog.json: 403 Forbidden"),
     [catalog_request "gs://bucket/catalog.json" None]).
Proof.
  exact (proj1 (proj2 (fetchCatalog_failure_modes "gs://bucket/catalog.json" None))
           {| cr_ok := false; cr_status := 403; cr_statusText := "Forbidden";
              cr_json := Rejected (Error "unused") |} eq_refl).
Defined.

(** X3.  Whatever [fetchCatalog] returns is the parsed body of a response
    with a success status, and has a numeric [version] and array [plugins]
    and [skills]: no unvalidated document gets through. *)
Theorem fetchCatalog_returns_validated
    (fetched : Outcome CatalogResponse) (catalogUrl : string)
    (token : option string) (body : Json) :
  fst (fetchCatalog fetched catalogUrl token) = Return body ->
  (exists res, fetched = Resolved res /\ cr_ok res = true
               /\ cr_json res = Resolved body)
  /\ numeric_version body
  /\ array_field body "plugins"
  /\ array_field body "skills"
  /\ is_object body = true.
Proof.
  unfold fetchCatalog.
  destruct fetched as [[ok st stt [b|e]]|e]; simpl; try discriminate;
    destruct ok; simpl; try discriminate.
  destruct (validateCatalog_cases (R:=Json) b) as [(Hn & Hv & Hp & Hs)|[rest Ht]].
  - destruct (validateCatalog b) as [[[]|r|e] t]; simpl in *; try discriminate.
    intros H. inversion H; subst b.
    split; [eexists; split; [reflexivity|split; reflexivity]|].
    repeat split; try assumption.
    destruct Hv as [n Hn']. exact (js_prop_object _ _ _ Hn').
  - destruct (validateCatalog b) as [[[]|r|e] t]; simpl in *; discriminate.
Qed.

Lemma fetchCatalog_returns_validated_witness :
  let body := JObj [("version", JNum 1); ("plugins", JArr []); ("skills", JArr [])] in
  fst (fetchCatalog (Sample.ok_response body) "https://example.com/catalog.json" None)
  = Return body
  /\ numeric_version body.
Proof.
  intros body.
  assert (H : fst (fetchCatalog (Sample.ok_response body)
                     "https://example.com/catalog.json" None) = Return body)
    by reflexivity.
  split; [exact H|].
  exact (proj1 (proj2 (fetchCatalog_returns_validated _ _ _ _ H))).
Defined.

(** X4.  [fetchCatalogWithAuth] behaves as [fetchCatalog] with a chosen
    token: a non-empty static token is used and the credential resolver is
    not consulted; without one, the resolver is consulted exactly when the
    method is [gcloud-adc], and the fetch is made with what it found, or
    without credentials when it found nothing; for any other method the
    fetch is made without consulting it. *)
Theorem fetchCatalogWithAuth_token_choice (js : JsRuntime)
    (aw : AuthWorld) (fetched : Outcome CatalogResponse) (catalogUrl : string)
    (method token0 : option string) :
  let run := fetchCatalogWithAuth js aw fetched catalogUrl method token0 in
  let resolved := match metadata_token aw with
                  | Some t => Some t
                  | None => gcloud_token js aw
                  end in
  (truthy_opt token0 = true -> run = fetchCatalog fetched catalogUrl token0)
  /\ (opt_is method "gcloud-adc" = false ->
      run = fetchCatalog fetched catalogUrl token0)
  /\ (truthy_opt token0 = false -> opt_is method "gcloud-adc" = true ->
      fst run = fst (fetchCatalog fetched catalogUrl resolved)
      /\ Eff.trace run
         = (Eff.trace (resolveGarAuthToken js aw)
            ++ Eff.trace (fetchCatalog fetched catalogUrl resolved))%list
      /\ Eff.trace (resolveGarAuthToken js aw) <> []).
Proof.
  intros run resolved. unfold run, fetchCatalogWithAuth.
  split; [|split].
  - intros Ht. rewrite Ht. simpl andb. cbv iota.
    rewrite bind_ret_l. apply return_awaited_fetch.
  - intros Hm. rewrite Hm, andb_false_r.
    rewrite bind_ret_l. apply return_awaited_fetch.
  - intros Ht Hm. rewrite Ht, Hm. simpl andb. cbv iota.
    destruct (resolveGarAuthToken_returns js aw) as [Hr Hne].
    rewrite (AuthFacts.await_returned None _ _ Hr).
    fold resolved.
    rewrite bind_normal, return_awaited_fetch.
    repeat split. exact Hne.
Qed.

End CatalogMoreProps.

(** ** Credential resolver, continued *)

Module CredentialFacts.

Lemma trimStart_blank (s : string) : blank s = true -> trimStart s = "".
Proof.
  induction s as [|c s IH]; simpl; [reflexivity|].
  intros H. apply andb_true_iff in H as [Hc Hs]. rewrite Hc. exact (IH Hs).
Qed.

Lemma is_space_is_ascii (c : ascii) : is_space c = true -> is_ascii_char c = true.
Proof.
  unfold is_space, is_ascii_char. intros H.
  apply Nat.ltb_lt.
  destruct (Nat.leb_spec 9 (nat_of_ascii c));
    destruct (Nat.leb_spec (nat_of_ascii c) 13);
    destruct (Nat.eqb_spec (nat_of_ascii c) 32); simpl in H;
    try discriminate H; lia.
Qed.

Lemma blank_is_ascii (s : string) : blank s = true -> is_ascii s = true.
Proof.
  induction s as [|c s IH]; simpl; [reflexivity|].
  intros H. apply andb_true_iff in H as [Hc Hs].
  rewrite (is_space_is_ascii c Hc), (IH Hs). reflexivity.
Qed.

(** Every runtime trims a string of ASCII white space to the empty
    string. *)
Lemma trim_blank (js : JsRuntime) (s : string) : blank s = true -> trim js s = "".
Proof.
  intros H. rewrite (trim_ascii js s (blank_is_ascii s H)).
  unfold ascii_trim. rewrite (trimStart_blank s H). reflexivity.
Qed.

Lemma replace_final_slash_id (s : string) : replace_final_slash s = s.
Proof.
  induction s as [|c s IH]; simpl; [reflexivity|].
  destruct s as [|d s].
  - destruct (Ascii.eqb c "/") eqn:E; [|reflexivity].
    apply Ascii.eqb_eq in E. subst c. reflexivity.
  - rewrite IH. reflexivity.
Qed.

Lemma ends_with_slash_app (s : string) : ends_with_slash (s ++ "/") = true.
Proof.
  induction s as [|c s IH]; simpl; [reflexivity|].
  destruct (s ++ "/") eqn:E; [destruct s; discriminate E|exact IH].
Qed.

Lemma ends_with_slash_spec (s : string) :
  ends_with_slash s = true <-> exists p, s = p ++ "/".
Proof.
  split; [|intros [p ->]; apply ends_with_slash_app].
  induction s as [|c s IH]; simpl; [discriminate|].
  destruct s as [|d s].
  - intros H. apply Ascii.eqb_eq in H. subst c. exists "". reflexivity.
  - intros H. destruct (IH H) as [p Hp]. exists (String c p).
    rewrite Hp. reflexivity.
Qed.

Lemma replaceAll_app (from to : ascii) (a b : string) :
  replaceAll from to (a ++ b) = replaceAll from to a ++ replaceAll from to b.
Proof. induction a as [|c a IH]; simpl; [reflexivity|]. rewrite IH. reflexivity. Qed.

Lemma has_char_replaced (from to : ascii) (s : string) :
  from <> to -> has_char from (replaceAll from to s) = false.
Proof.
  intros Hne. induction s as [|c s IH]; simpl; [reflexivity|].
  rewrite IH, orb_false_r.
  destruct (Ascii.eqb c from) eqn:E.
  - apply Ascii.eqb_neq. congruence.
  - exact E.
Qed.

Lemma has_char_kept_out (x from to : ascii) (s : string) :
  x <> to -> has_char x s = false -> has_char x (replaceAll from to s) = false.
Proof.
  intros Hne. induction s as [|c s IH]; simpl; [reflexivity|].
  intros H. apply orb_false_iff in H as [Hc Hs]. rewrite (IH Hs), orb_false_r.
  destruct (Ascii.eqb c from); [|exact Hc].
  apply Ascii.eqb_neq. congruence.
Qed.

Lemma includes_char (c : ascii) (s : string) :
  includes s (String c EmptyString) = has_char c s.
Proof.
  induction s as [|d s IH]; simpl; [reflexivity|].
  rewrite IH. rewrite (Ascii.eqb_sym c d).
  destruct (Ascii.eqb d c); reflexivity.
Qed.

Lemma no_char_not_contained (c : ascii) (s : string) :
  has_char c s = false -> ~ contains s (String c EmptyString).
Proof. intros H. apply includes_false. rewrite includes_char. exact H. Qed.

(** The key with its two substitutions spelled out. *)
Lemma env_key_shape (rt : UrlRuntime) (registryUrl : string) :
  env_key rt registryUrl
  = "npm_config_"
    ++ replaceAll ":" "_" (replaceAll "/" "_" (registry_path rt registryUrl))
    ++ "__authToken".
Proof. unfold env_key. rewrite !replaceAll_app. reflexivity. Qed.

End CredentialFacts.

Module CredentialProps.
Import CredentialFacts.

(** X5.  [resolveGceProjectId] never throws and makes one request, to the
    project endpoint of the metadata server with the marker header and a
    3000 ms time-out.  Its result is fixed by the response: the trimmed text
    of a response with a success status when that text is not empty, and
    [null] in every other case, that is when the fetch rejects, the status
    is not a success, the text cannot be read, or the trimmed text is empty
    (as it is for a text of white space only). *)
Theorem resolveGceProjectId_total (js : JsRuntime)
    (fetched : Outcome ProjectResponse) :
  let run := resolveGceProjectId js fetched in
  Eff.trace run = [project_request]
  /\ project_request
     = EvFetch "http://metadata.google.internal/computeMetadata/v1/project/project-id"
         [("Metadata-Flavor", "Google")] 3000
  /\ (forall res text,
        fetched = Resolved res -> pr_ok res = true ->
        pr_text res = Resolved text -> trim js text <> "" ->
        fst run = Return (Some (trim js text)))
  /\ (forall res text,
        fetched = Resolved res -> pr_ok res = true ->
        pr_text res = Resolved text -> trim js text = "" ->
        fst run = Return None)
  /\ (forall res text,
        fetched = Resolved res -> pr_ok res = true ->
        pr_text res = Resolved text -> blank text = true ->
        fst run = Return None)
  /\ (forall res e,
        fetched = Resolved res -> pr_ok res = true ->
        pr_text res = Rejected e -> fst run = Return None)
  /\ (forall res, fetched = Resolved res -> pr_ok res = false ->
        fst run = Return None)
  /\ (forall e, fetched = Rejected e -> fst run = Return None)
  /\ (forall t, fst run = Return (Some t) ->
        t <> ""
        /\ exists res text, fetched = Resolved res /\ pr_ok res = true
                            /\ pr_text res = Resolved text /\ t = trim js text).
Proof.
  intros run.
  assert (Hrun : run
    = (Return (match fetched with
               | Resolved res =>
                   if pr_ok res
                   then match pr_text res with
                        | Resolved text => or_null (Some (trim js text))
                        | Rejected _ => None
                        end
                   else None
               | Rejected _ => None
               end),
       [project_request])).
  { unfold run, resolveGceProjectId.
    destruct fetched as [[[] [text|e]]|e]; reflexivity. }
  rewrite Hrun. unfold Eff.trace. cbn [fst snd].
  assert (Hnonempty : forall text, trim js text <> "" ->
            or_null (Some (trim js text)) = Some (trim js text)).
  { intros text H. simpl. destruct (trim js text); [congruence|reflexivity]. }
  split; [reflexivity|]. split; [reflexivity|].
  split; [|split; [|split; [|split; [|split; [|split]]]]].
  - intros res text -> Hok Htext Hne. rewrite Hok, Htext, (Hnonempty text Hne).
    reflexivity.
  - intros res text -> Hok Htext He. rewrite Hok, Htext, He. reflexivity.
  - intros res text -> Hok Htext Hb. rewrite Hok, Htext, (trim_blank js text Hb).
    reflexivity.
  - intros res e -> Hok Htext. rewrite Hok, Htext. reflexivity.
  - intros res -> Hok. rewrite Hok. reflexivity.
  - intros e ->. reflexivity.
  - intros t H. inversion H as [H1]. clear H.
    destruct fetched as [[ok [text|e]]|e]; simpl in H1; try discriminate H1;
      destruct ok; try discriminate H1.
    split; [exact (AuthFacts.or_null_nonempty (Some (trim js text)) t H1)|].
    exists {| pr_ok := true; pr_text := Resolved text |}, text.
    repeat split.
    simpl in H1. destruct (truthy (trim js text)); congruence.
Qed.

Example project_id_is_trimmed (js : JsRuntime) :
  resolveGceProjectId js
    (Resolved {| pr_ok := true; pr_text := Resolved " my-project-123
" |})
  = (Return (Some "my-project-123"), [project_request]).
Proof.
  unfold resolveGceProjectId. simpl.
  rewrite (trim_ascii js) by reflexivity. reflexivity.
Qed.

(** X6.  The environment built for a registry has exactly two entries: the
    token under a key derived from the registry URL, and the base64 form of
    [_:token] under [NPM_CONFIG__AUTH].  The derived key starts with
    [npm_config_], ends with [__authToken], and holds neither a slash nor a
    colon. *)
Theorem buildGarRegistryEnv_entries
    (rt : UrlRuntime) (registryUrl token : string) :
  let env := buildGarRegistryEnv rt registryUrl token in
  let key := env_key rt registryUrl in
  env !! key = Some token
  /\ env !! "NPM_CONFIG__AUTH" = Some (base64 rt ("_:" ++ token))
  /\ size env = 2
  /\ (forall k, k <> key -> k <> "NPM_CONFIG__AUTH" -> env !! k = None)
  /\ (exists middle, key = "npm_config_" ++ middle ++ "__authToken")
  /\ ~ contains key "/"
  /\ ~ contains key ":".
Proof.
  intros env key.
  assert (Hne : key <> "NPM_CONFIG__AUTH").
  { unfold key. rewrite env_key_shape. discriminate. }
  unfold env, buildGarRegistryEnv. fold key.
  split; [|split; [|split; [|split; [|split; [|split]]]]].
  - rewrite lookup_insert_ne by congruence. apply lookup_insert_eq.
  - apply lookup_insert_eq.
  - rewrite map_size_insert_None.
    + rewrite map_size_insert_None by apply lookup_empty.
      rewrite map_size_empty. reflexivity.
    + rewrite lookup_insert_ne by congruence. apply lookup_empty.
  - intros k H1 H2. rewrite !lookup_insert_ne by congruence. apply lookup_empty.
  - eexists. unfold key. apply env_key_shape.
  - apply no_char_not_contained. unfold key, env_key.
    apply has_char_kept_out; [discriminate|].
    apply has_char_replaced. discriminate.
  - apply no_char_not_contained. unfold key, env_key.
    apply has_char_replaced. discriminate.
Qed.

(** X7.  The registry path of the key is [//host/path] as the URL parser
    gives them, with no slash added or removed.  When the URL does not
    parse, it is the text with a leading [http:] or [https:] removed, kept
    as it is when it ends in a slash and with one slash appended when it
    does not, so that it always ends in a slash. *)
Theorem registry_path_shape (rt : UrlRuntime) (registryUrl : string) :
  (forall host pathname,
     parse_url rt registryUrl = Some (host, pathname) ->
     registry_path rt registryUrl = "//" ++ host ++ pathname)
  /\ (parse_url rt registryUrl = None ->
      (forall p, strip_http_scheme registryUrl = p ++ "/" ->
         registry_path rt registryUrl = strip_http_scheme registryUrl)
      /\ ((forall p, strip_http_scheme registryUrl <> p ++ "/") ->
          registry_path rt registryUrl = strip_http_scheme registryUrl ++ "/")
      /\ exists p, registry_path rt registryUrl = p ++ "/")
  /\ (forall s, ends_with_slash s = true <-> exists p, s = p ++ "/")
  /\ (forall rest, strip_http_scheme ("https:" ++ rest) = rest)
  /\ (forall rest, strip_http_scheme ("http:" ++ rest) = rest)
  /\ (startsWith registryUrl "http:" = false ->
      startsWith registryUrl "https:" = false ->
      strip_http_scheme registryUrl = registryUrl).
Proof.
  split; [|split; [|split; [|split; [|split]]]].
  - intros host pathname H. unfold registry_path. rewrite H.
    apply replace_final_slash_id.
  - intros H. unfold registry_path. rewrite H.
    destruct (ends_with_slash (strip_http_scheme registryUrl)) eqn:E; simpl.
    + split; [reflexivity|]. split.
      * intros Hno. apply ends_with_slash_spec in E as [p Hp].
        exfalso. exact (Hno p Hp).
      * apply ends_with_slash_spec. exact E.
    + split; [|split; [reflexivity|eexists; reflexivity]].
      intros p Hp. exfalso.
      assert (E' : ends_with_slash (strip_http_scheme registryUrl) = true)
        by (apply ends_with_slash_spec; exists p; exact Hp).
      congruence.
  - apply ends_with_slash_spec.
  - intros rest. unfold strip_http_scheme. rewrite startsWith_app.
    exact (UrlFacts.substring_drop_prefix "https:" rest).
  - intros rest. unfold strip_http_scheme.
    replace (startsWith ("http:" ++ rest) "https:") with false by reflexivity.
    rewrite startsWith_app.
    exact (UrlFacts.substring_drop_prefix "http:" rest).
  - intros H1 H2. unfold strip_http_scheme. rewrite H1, H2. reflexivity.
Qed.

(** A host that already ends in a slash gets no second one. *)
Example registry_path_keeps_final_slash (rt : UrlRuntime) :
  parse_url rt "registry.example/" = None ->
  registry_path rt "registry.example/" = "registry.example/".
Proof. intros H. unfold registry_path. rewrite H. reflexivity. Qed.

End CredentialProps.

(** ** Registry credentials *)

Module RegistryAuthProps.
Import CatalogMoreFacts.

(** X8.  [resolveRegistryAuth] never throws.  It returns [null] exactly
    when no non-empty [npmRegistry] is configured, and otherwise that
    registry URL with an environment that is either empty or the one
    [buildGarRegistryEnv] builds for that URL and a non-empty token: the
    resolver's token under [gcloud-adc], the configured one under [token],
    and always empty under [npmrc] or no method.  The credential resolver
    is consulted only for a configured registry under [gcloud-adc]. *)
Theorem resolveRegistryAuth_cases (js : JsRuntime)
    (rt : UrlRuntime) (aw : AuthWorld) (reg : option PrivateRegistryConfig) :
  let run := resolveRegistryAuth js rt aw reg in
  let resolved := match metadata_token aw with
                  | Some t => Some t
                  | None => gcloud_token js aw
                  end in
  (exists v, fst run = Return v)
  /\ (fst run = Return None <-> or_null (reg ≫= npmRegistry_of) = None)
  /\ (forall a, fst run = Return (Some a) ->
        exists r, reg = Some r
        /\ or_null (npmRegistry_of r) = Some (ra_registryUrl a)
        /\ ra_registryEnv a
           = match authMethod r with
             | Some GcloudAdc =>
                 match resolved with
                 | Some t => buildGarRegistryEnv rt (ra_registryUrl a) t
                 | None => ∅
                 end
             | Some Token =>
                 match or_null (authToken r) with
                 | Some t => buildGarRegistryEnv rt (ra_registryUrl a) t
                 | None => ∅
                 end
             | _ => ∅
             end)
  /\ (Eff.trace run <> [] ->
      exists r url, reg = Some r /\ or_null (npmRegistry_of r) = Some url
                    /\ authMethod r = Some GcloudAdc
                    /\ Eff.trace run = Eff.trace (resolveGarAuthToken js aw)).
Proof.
  intros run resolved. unfold run, resolveRegistryAuth.
  assert (Hnil : @nil Event <> [] -> False) by (intros H; apply H; reflexivity).
  destruct reg as [r|]; simpl.
  2:{ split; [eauto|]. split; [split; reflexivity|]. split.
      - intros a H. discriminate H.
      - intros H. destruct (Hnil H). }
  destruct (or_null (npmRegistry_of r)) as [url|] eqn:Hurl.
  2:{ simpl. split; [eauto|]. split; [split; reflexivity|]. split.
      - intros a H. discriminate H.
      - intros H. destruct (Hnil H). }
  destruct (resolveGarAuthToken_returns js aw) as [Hr Hne].
  assert (Hres : forall t, resolved = Some t -> t <> "").
  { intros t Ht. unfold resolved in Ht. destruct (metadata_token aw) eqn:E.
    - inversion Ht; subst. eapply AuthFacts.metadata_token_nonempty; eauto.
    - eapply AuthFacts.gcloud_token_nonempty; eauto. }
  destruct (authMethod r) as [[| |]|] eqn:Hm.
  - rewrite (AuthFacts.await_returned None _ _ Hr). fold resolved.
    destruct resolved as [t|] eqn:Et.
    + pose proof (Hres t eq_refl) as Hnz.
      destruct t as [|c t]; [congruence|].
      unfold Eff.bind. simpl. rewrite !app_nil_r.
      split; [eauto|]. split; [split; discriminate|]. split.
      * intros a H. inversion H; subst a. simpl. exists r.
        rewrite Hm. repeat split; auto.
      * intros _. exists r, url. repeat split; auto.
    + unfold Eff.bind. simpl. rewrite !app_nil_r.
      split; [eauto|]. split; [split; discriminate|]. split.
      * intros a H. inversion H; subst a. simpl. exists r.
        rewrite Hm. repeat split; auto.
      * intros _. exists r, url. repeat split; auto.
  - destruct (or_null (authToken r)) as [t|] eqn:Et; simpl;
      (split; [eauto|]); (split; [split; discriminate|]); split;
      try (intros H; exfalso; apply H; reflexivity);
      intros a H; inversion H; subst a; simpl; exists r;
      rewrite Hm, Et; repeat split; auto.
  - simpl. split; [eauto|]. split; [split; discriminate|]. split.
    + intros a H. inversion H; subst a. simpl. exists r.
      rewrite Hm. repeat split; auto.
    + intros H. exfalso. apply H. reflexivity.
  - simpl. split; [eauto|]. split; [split; discriminate|]. split.
    + intros a H. inversion H; subst a. simpl. exists r.
      rewrite Hm. repeat split; auto.
    + intros H. exfalso. apply H. reflexivity.
Qed.

End RegistryAuthProps.

(** ** Archive installer, continued *)

Module InstallerMoreFacts.
Import InstallerFacts.

Lemma acceptable_iff (name : string) :
  acceptable_name name
  <-> name_malformed name = false /\ startsWith name "." = false.
Proof.
  split.
  - intros H. split; [apply acceptable_not_malformed|apply acceptable_not_dot]; exact H.
  - intros [Hm Hd].
    assert (Hn : ~ malformed_name name).
    { intros H. apply name_malformed_spec in H. congruence. }
    unfold acceptable_name, malformed_name in *.
    repeat split; try tauto.
    intros H. apply dot_name_spec in H. congruence.
Qed.

(** A name that is not acceptable ends the run before any call. *)
Lemma run_rejected_name pf w params :
  ~ acceptable_name (p_name params) ->
  exists msg, installSkillFromArchiveUrl pf w params
              = (Return (InstallFailure msg), []).
Proof.
  intros H. unfold installSkillFromArchiveUrl, validateSkillName.
  destruct (name_malformed (p_name params)) eqn:Em; [eexists; reflexivity|].
  destruct (startsWith (p_name params) ".") eqn:Ed; [eexists; reflexivity|].
  exfalso. apply H. apply acceptable_iff. auto.
Qed.

Lemma acceptable_dec (name : string) :
  acceptable_name name \/ ~ acceptable_name name.
Proof.
  destruct (name_malformed name) eqn:Em;
    [right; intros H; apply acceptable_iff in H as [H _]; congruence|].
  destruct (startsWith name ".") eqn:Ed;
    [right; intros H; apply acceptable_iff in H as [_ H]; congruence|].
  left. apply acceptable_iff. auto.
Qed.

(** The later steps end in a [return] or a [throw]. *)
Lemma unpack_abrupt pf w params tmpDir u :
  fst (unpack_and_place pf w params tmpDir) <> Normal u.
Proof.
  unfold unpack_and_place.
  destruct (w_ensureExtractDir w), (w_extract w), (w_statSkillMd w),
    (w_rmTarget w), (w_ensureManagedDir w), (w_cp w); simpl; discriminate.
Qed.

Lemma steps_abrupt pf w params tmpDir u :
  fst (install_steps pf w params tmpDir) <> Normal u.
Proof.
  unfold install_steps. rewrite fst_bind.
  destruct (fst (download _ _ _ _ _)); try discriminate.
  apply unpack_abrupt.
Qed.

(** The download completes normally exactly when the fetch resolved with a
    success status and the body was read, written and released. *)
Lemma download_normal {R} w url auth archivePath (fail : string -> R) u :
  fst (download w url auth archivePath fail) = Normal u ->
  exists resp body,
    w_fetch w = Resolved resp /\ resp_ok resp = true
    /\ resp_arrayBuffer resp = Resolved body
    /\ w_writeFile w = Resolved tt /\ w_release w = Resolved tt.
Proof.
  unfold download.
  destruct (w_fetch w) as [resp|e]; [|discriminate].
  destruct resp as [ok st stt ab].
  destruct ok, ab as [body|e], (w_writeFile w) as [[]|e1], (w_release w) as [[]|e2];
    simpl; intros H; try discriminate.
  exists {| resp_ok := true; resp_status := st; resp_statusText := stt;
            resp_arrayBuffer := Resolved body |}, body.
  repeat split.
Qed.

Lemma download_never_copies {R} w url auth archivePath (fail : string -> R) src dest :
  ~ In (EvCp src dest) (Eff.trace (download w url auth archivePath fail)).
Proof.
  unfold download.
  destruct (w_fetch w) as [resp|e].
  - destruct resp as [ok st stt ab].
    destruct ok, ab, (w_writeFile w), (w_release w); simpl; intros H;
      repeat (destruct H as [H|H]; [discriminate H|]); exact H.
  - simpl. intros [H|H]; [discriminate H|exact H].
Qed.

(** The later steps succeed exactly when each of their calls resolved. *)
Lemma unpack_success_inv pf w params tmpDir n t :
  fst (unpack_and_place pf w params tmpDir) = Return (InstallSuccess n t) ->
  w_ensureExtractDir w = Resolved tt /\ w_extract w = Resolved tt
  /\ w_statSkillMd w = Resolved tt /\ w_rmTarget w = Resolved tt
  /\ w_ensureManagedDir w = Resolved tt /\ w_cp w = Resolved tt.
Proof.
  unfold unpack_and_place.
  destruct (w_ensureExtractDir w) as [[]|?], (w_extract w) as [[]|?],
    (w_statSkillMd w) as [[]|?], (w_rmTarget w) as [[]|?],
    (w_ensureManagedDir w) as [[]|?], (w_cp w) as [[]|?]; simpl; intros H;
    try discriminate; repeat split.
Qed.

(** The copy is the last of the later steps and needs all before it. *)
Lemma unpack_copy_inv pf w params tmpDir src dest :
  In (EvCp src dest) (Eff.trace (unpack_and_place pf w params tmpDir)) ->
  src = path_join pf tmpDir "extracted" /\ dest = target_dir_of pf params
  /\ w_ensureExtractDir w = Resolved tt /\ w_extract w = Resolved tt
  /\ w_statSkillMd w = Resolved tt /\ w_rmTarget w = Resolved tt
  /\ w_ensureManagedDir w = Resolved tt
  /\ exists before after,
       Eff.trace (unpack_and_place pf w params tmpDir)
       = (before
          ++ [EvStat (path_join pf (path_join pf tmpDir "extracted") "SKILL.md");
              EvRm (target_dir_of pf params);
              EvEnsureDir (managed_dir_of pf params);
              EvCp src dest]
          ++ after)%list.
Proof.
  unfold unpack_and_place.
  destruct (w_ensureExtractDir w) as [[]|?], (w_extract w) as [[]|?],
    (w_statSkillMd w) as [[]|?], (w_rmTarget w) as [[]|?],
    (w_ensureManagedDir w) as [[]|?]; simpl; intros H;
    repeat (destruct H as [H|H]; [try discriminate H|]); try contradiction.
  all: destruct (w_cp w); simpl in *;
    repeat (destruct H as [H|H]; [try discriminate H|]); try contradiction.
  all: inversion H; subst; repeat split;
    eexists [_; _], []; reflexivity.
Qed.

End InstallerMoreFacts.

Module InstallerMoreProps.
Import InstallerFacts InstallerMoreFacts.

(** X9.  The installer reports every failure as a result: its promise
    rejects only when the temporary directory cannot be created for an
    acceptable name, and then with the error of [fs.mkdtemp]; in every
    other case it resolves with a success or a failure. *)
Theorem installer_rejects_only_without_tmpdir
    (pf : Platform) (w : InstallWorld) (params : InstallParams) :
  let run := installSkillFromArchiveUrl pf w params in
  ((exists r, fst run = Return r) \/ (exists e, fst run = Throw e))
  /\ (forall e, fst run = Throw e
                <-> acceptable_name (p_name params) /\ w_mkdtemp w = Rejected e).
Proof.
  intros run. unfold run.
  destruct (acceptable_dec (p_name params)) as [Hn|Hn].
  - destruct (w_mkdtemp w) as [tmpDir|e0] eqn:Hm.
    + rewrite (run_shape pf w params tmpDir Hn Hm). simpl fst.
      pose proof (steps_abrupt pf w params tmpDir) as Hab.
      destruct (fst (install_steps pf w params tmpDir)) as [[]|r|e1]; simpl.
      * exfalso. exact (Hab tt eq_refl).
      * split; [left; eauto|]. intros e. split; [discriminate|].
        intros [_ H]. discriminate H.
      * split; [left; eauto|]. intros e. split; [discriminate|].
        intros [_ H]. discriminate H.
    + rewrite (run_without_tmpdir pf w params e0 Hn Hm). simpl.
      split; [right; eauto|]. intros e. split.
      * intros H. inversion H. auto.
      * intros [_ H]. inversion H. reflexivity.
  - destruct (run_rejected_name pf w params Hn) as [msg ->]. simpl.
    split; [left; eauto|]. intros e. split; [discriminate|].
    intros [H _]. contradiction.
Qed.

(** X10.  On a non-success status of the download the installer resolves
    with [Download failed: <status> <reason>]; it made four calls only: the
    temporary directory, the fetch, [release()] and the removal of the
    temporary directory, so nothing was written or extracted.  If
    [release()] itself rejects, its error is the one reported. *)
Theorem download_failure_reported
    (pf : Platform) (w : InstallWorld) (params : InstallParams)
    (tmpDir : string) (response : Response) :
  acceptable_name (p_name params) ->
  w_mkdtemp w = Resolved tmpDir ->
  w_fetch w = Resolved response ->
  resp_ok response = false ->
  let run := installSkillFromArchiveUrl pf w params in
  Eff.trace run
  = [ EvMkdtemp (path_join pf (os_tmpdir pf)
                   ("simpleclaw-skill-" ++ p_name params ++ "-"));
      EvGuardedFetch (resolveGcsUrl (p_archiveUrl params))
        (bearer_of (p_authToken params)) DOWNLOAD_TIMEOUT_MS;
      EvRelease;
      EvRm tmpDir ]
  /\ (w_release w = Resolved tt ->
      fst run
      = Return (InstallFailure
                  ("Download failed: " ++ pretty (resp_status response)
                   ++ " " ++ resp_statusText response)))
  /\ (forall e, w_release w = Rejected e ->
        fst run = Return (InstallFailure (message_of e))).
Proof.
  intros Hn Hm Hf Hok run. unfold run.
  rewrite (run_shape pf w params tmpDir Hn Hm).
  unfold install_steps, download. rewrite Hf. simpl. rewrite Hok. simpl.
  destruct (w_release w) as [[]|e0]; simpl.
  - repeat split; try reflexivity. intros e H. discriminate H.
  - repeat split; try reflexivity.
    + intros H. discriminate H.
    + intros e H. inversion H. reflexivity.
Qed.

Lemma download_failure_reported_witness :
  let w := {| w_mkdtemp := Resolved "/tmp/simpleclaw-skill-test-skill-Ab12Cd";
              w_fetch := Resolved {| resp_ok := false; resp_status := 404;
                                     resp_statusText := "Not Found";
                                     resp_arrayBuffer := Resolved [] |};
              w_release := Resolved tt; w_writeFile := Resolved tt;
              w_ensureExtractDir := Resolved tt; w_extract := Resolved tt;
              w_statSkillMd := Resolved tt; w_rmTarget := Resolved tt;
              w_ensureManagedDir := Resolved tt; w_cp := Resolved tt;
              w_rmTmp := Resolved tt |} in
  acceptable_name "good-skill"
  /\ fst (installSkillFromArchiveUrl Sample.platform w (Sample.params_of "good-skill"))
     = Return (InstallFailure "Download failed: 404 Not Found").
Proof.
  intros w.
  assert (Hn : acceptable_name "good-skill").
  { apply acceptable_iff. split; reflexivity. }
  split; [exact Hn|].
  exact (proj1 (proj2 (download_failure_reported Sample.platform w
                         (Sample.params_of "good-skill")
                         "/tmp/simpleclaw-skill-test-skill-Ab12Cd"
                         {| resp_ok := false; resp_status := 404;
                            resp_statusText := "Not Found";
                            resp_arrayBuffer := Resolved [] |}
                         Hn eq_refl eq_refl eq_refl)) eq_refl).
Defined.

(** X11.  The installer resolves with a success exactly when the name is
    acceptable and every one of its calls up to the copy resolved, the
    download with a success status; the outcome of the final clean-up does
    not matter. *)
Theorem install_succeeds_iff
    (pf : Platform) (w : InstallWorld) (params : InstallParams) :
  (exists n t, fst (installSkillFromArchiveUrl pf w params)
               = Return (InstallSuccess n t))
  <-> acceptable_name (p_name params)
      /\ (exists tmpDir, w_mkdtemp w = Resolved tmpDir)
      /\ (exists resp body, w_fetch w = Resolved resp /\ resp_ok resp = true
                            /\ resp_arrayBuffer resp = Resolved body)
      /\ w_writeFile w = Resolved tt /\ w_release w = Resolved tt
      /\ w_ensureExtractDir w = Resolved tt /\ w_extract w = Resolved tt
      /\ w_statSkillMd w = Resolved tt /\ w_rmTarget w = Resolved tt
      /\ w_ensureManagedDir w = Resolved tt /\ w_cp w = Resolved tt.
Proof.
  split.
  - intros (n & t & H).
    destruct (acceptable_dec (p_name params)) as [Hn|Hn].
    2:{ destruct (run_rejected_name pf w params Hn) as [msg E].
        rewrite E in H. discriminate H. }
    split; [exact Hn|].
    destruct (w_mkdtemp w) as [tmpDir|e] eqn:Hm.
    2:{ rewrite (run_without_tmpdir pf w params e Hn Hm) in H. discriminate H. }
    split; [eauto|].
    rewrite (run_shape pf w params tmpDir Hn Hm) in H. simpl fst in H.
    destruct (fst (install_steps pf w params tmpDir)) as [u|r|e] eqn:E;
      simpl in H; try discriminate.
    inversion H; subst r. clear H.
    unfold install_steps in E. rewrite fst_bind in E.
    destruct (fst (download _ _ _ _ _)) as [u|r|e] eqn:Ed.
    + apply download_normal in Ed as (resp & body & H1 & H2 & H3 & H4 & H5).
      apply unpack_success_inv in E as (H6 & H7 & H8 & H9 & H10 & H11).
      split; [eauto|]. repeat split; assumption.
    + apply download_returns_failure in Ed as [msg ->]. discriminate E.
    + discriminate E.
  - intros (Hn & [tmpDir Hm] & (resp & body & Hf & Hok & Hab)
            & Hw & Hr & He & Hx & Hs & Hrm & Hem & Hcp).
    exists (p_name params), (target_dir_of pf params).
    rewrite (run_shape pf w params tmpDir Hn Hm).
    unfold install_steps, download, unpack_and_place.
    rewrite Hf. simpl. rewrite Hok. simpl. rewrite Hab. simpl.
    rewrite Hw, Hr. simpl. rewrite He, Hx, Hs. simpl.
    rewrite Hrm, Hem, Hcp. reflexivity.
Qed.

(** X12.  The copy into the managed directory is made only once the
    archive was downloaded with a success status, extracted, found to hold
    [SKILL.md], and the previous target removed; it copies the staging
    directory to [path.join(managedSkillsDir, name)] and directly follows
    the check, the removal and the creation of the managed directory. *)
Theorem copy_only_after_marker_check
    (pf : Platform) (w : InstallWorld) (params : InstallParams)
    (src dest : string) :
  In (EvCp src dest) (Eff.trace (installSkillFromArchiveUrl pf w params)) ->
  acceptable_name (p_name params)
  /\ exists tmpDir,
       w_mkdtemp w = Resolved tmpDir
       /\ src = path_join pf tmpDir "extracted"
       /\ dest = target_dir_of pf params
       /\ (exists resp, w_fetch w = Resolved resp /\ resp_ok resp = true)
       /\ w_extract w = Resolved tt
       /\ w_statSkillMd w = Resolved tt
       /\ w_rmTarget w = Resolved tt
       /\ exists before after,
            Eff.trace (installSkillFromArchiveUrl pf w params)
            = (before
               ++ [EvStat (path_join pf (path_join pf tmpDir "extracted") "SKILL.md");
                   EvRm (target_dir_of pf params);
                   EvEnsureDir (managed_dir_of pf params);
                   EvCp src dest]
               ++ after)%list.
Proof.
  intros Hin.
  destruct (acceptable_dec (p_name params)) as [Hn|Hn].
  2:{ destruct (run_rejected_name pf w params Hn) as [msg E].
      rewrite E in Hin. destruct Hin. }
  split; [exact Hn|].
  destruct (w_mkdtemp w) as [tmpDir|e] eqn:Hm.
  2:{ rewrite (run_without_tmpdir pf w params e Hn Hm) in Hin.
      destruct Hin as [H|[]]. discriminate H. }
  exists tmpDir. split; [reflexivity|].
  rewrite (run_shape pf w params tmpDir Hn Hm) in *.
  unfold Eff.trace in Hin at 1. simpl snd in Hin.
  destruct Hin as [H|Hin]; [discriminate H|].
  apply in_app_or in Hin as [Hin|[H|[]]]; [|discriminate H].
  unfold install_steps in Hin. rewrite trace_bind in Hin.
  apply in_app_or in Hin as [Hin|Hin];
    [exfalso; exact (download_never_copies _ _ _ _ _ _ _ Hin)|].
  destruct (fst (download _ _ _ _ _)) as [u|r|e] eqn:Ed; try destruct Hin.
  apply download_normal in Ed as Hd.
  destruct Hd as (resp & body & H1 & H2 & H3 & H4 & H5).
  apply unpack_copy_inv in Hin as Hc.
  destruct Hc as (Hsrc & Hdest & H6 & H7 & H8 & H9 & H10 & before & after & Htr).
  repeat split; try assumption; [eauto|].
  unfold Eff.trace at 1. simpl snd.
  unfold install_steps. rewrite trace_bind, Ed, Htr.
  remember (Eff.trace (download w (resolveGcsUrl (p_archiveUrl params))
                         (bearer_of (p_authToken params))
                         (path_join pf tmpDir (p_name params ++ ".tar.gz"))
                         InstallFailure)) as dl.
  exists (EvMkdtemp (path_join pf (os_tmpdir pf)
                       ("simpleclaw-skill-" ++ p_name params ++ "-"))
          :: (dl ++ before))%list, (after ++ [EvRm tmpDir])%list.
  cbn [app]. f_equal. rewrite <- !app_assoc. cbn [app]. reflexivity.
Qed.

Lemma copy_only_after_marker_check_witness :
  In (EvCp "/tmp/simpleclaw-skill-good-skill-Ab12Cd/extracted" "/srv/skills/good-skill")
     (Eff.trace (installSkillFromArchiveUrl Sample.platform Sample.world
                   (Sample.params_of "good-skill")))
  /\ acceptable_name "good-skill".
Proof.
  assert (H : In (EvCp "/tmp/simpleclaw-skill-good-skill-Ab12Cd/extracted"
                       "/srv/skills/good-skill")
                 (Eff.trace (installSkillFromArchiveUrl Sample.platform Sample.world
                               (Sample.params_of "good-skill")))).
  { simpl. do 10 right. left. reflexivity. }
  split; [exact H|].
  exact (proj1 (copy_only_after_marker_check _ _ _ _ _ H)).
Defined.

End InstallerMoreProps.

(** ** Install ledger, continued *)

Module LedgerMoreFacts.

(** The ledger after a removal and after a recording. *)
Lemma skill_installs_remove (c : SimpleClawConfig) (k : string) :
  skill_installs (removeSkillInstall c k) = delete k (skill_installs c).
Proof.
  unfold skill_installs, removeSkillInstall. simpl.
  assert (E : default ∅ (installs (default empty_skills (skills c)))
              = default (∅ : gmap string SkillInstallRecord)
                  (skills c ≫= installs)).
  { destruct (skills c) as [s|]; reflexivity. }
  rewrite E.
  destruct (0 <? size _)%nat eqn:Hs; simpl; [reflexivity|].
  apply Ledger.size_zero_empty in Hs. symmetry. exact Hs.
Qed.

Lemma skill_installs_record now (c : SimpleClawConfig) (k : string) r :
  skill_installs (recordSkillInstall now c k r)
  = <[k := {| source := source r; version := version r;
              archiveUrl := archiveUrl r;
              installedAt := Some (default now (installedAt r)) |}]>
      (skill_installs c).
Proof.
  unfold skill_installs, recordSkillInstall. simpl.
  destruct (skills c) as [s|]; reflexivity.
Qed.

Lemma default_pruned (m : gmap string SkillInstallRecord) :
  default ∅ (if (0 <? size m)%nat then Some m else None) = m.
Proof.
  destruct (0 <? size m)%nat eqn:Hs; simpl; [reflexivity|].
  apply Ledger.size_zero_empty in Hs. symmetry. exact Hs.
Qed.

End LedgerMoreFacts.

Module LedgerMoreProps.
Import LedgerMoreFacts.

(** X13.  [removeSkillInstall] removes the entry of the given skill and
    nothing else: every other ledger entry and every field outside the
    ledger is kept; removing twice is removing once; and removing a skill
    that has no entry gives the configuration back when it has a skills
    object whose ledger is absent or non-empty. *)
Theorem removeSkillInstall_effect (c : SimpleClawConfig) (k : string) :
  ledger_entry (removeSkillInstall c k) k = None
  /\ (forall k', k' <> k ->
        ledger_entry (removeSkillInstall c k) k' = ledger_entry c k')
  /\ plugins (removeSkillInstall c k) = plugins c
  /\ cfg_rest (removeSkillInstall c k) = cfg_rest c
  /\ skills_rest (default empty_skills (skills (removeSkillInstall c k)))
     = skills_rest (default empty_skills (skills c))
  /\ removeSkillInstall (removeSkillInstall c k) k = removeSkillInstall c k
  /\ (ledger_entry c k = None -> ledger_canonical c ->
      removeSkillInstall c k = c).
Proof.
  unfold ledger_entry.
  split; [|split; [|split; [|split; [|split; [|split]]]]].
  - rewrite skill_installs_remove. apply lookup_delete_eq.
  - intros k' Hne. rewrite skill_installs_remove.
    apply lookup_delete_ne. congruence.
  - reflexivity.
  - reflexivity.
  - reflexivity.
  - unfold removeSkillInstall. simpl.
    rewrite default_pruned, delete_delete_eq. reflexivity.
  - intros Hk (s & Hs & Hne). unfold removeSkillInstall.
    destruct c as [sk pl rest]. simpl in *. subst sk. simpl.
    unfold skill_installs in Hk. simpl in Hk.
    rewrite (delete_id _ _ Hk).
    destruct s as [[m|] srest]; simpl in *.
    + destruct (0 <? size m)%nat eqn:E; [reflexivity|].
      apply Ledger.size_zero_empty in E. subst m. congruence.
    + rewrite map_size_empty. reflexivity.
Qed.

(** X14.  Recording two different skills one after the other, the first
    call at [t1] and the second at [t2], in one order or the other: the two
    results agree on everything but the [installedAt] of the two entries,
    which each call stamps with its own time when the record carries none.
    They are the same configuration exactly when those stamps agree, as
    they do when both records carry an [installedAt] or the clock did not
    advance between the calls. *)
Theorem recordSkillInstall_commutes
    (t1 t2 : string) (c : SimpleClawConfig) (k1 k2 : string)
    (r1 r2 : SkillInstallRecord) :
  k1 <> k2 ->
  let one := recordSkillInstall t2 (recordSkillInstall t1 c k1 r1) k2 r2 in
  let other := recordSkillInstall t2 (recordSkillInstall t1 c k2 r2) k1 r1 in
  (one = other
   <-> default t1 (installedAt r1) = default t2 (installedAt r1)
       /\ default t1 (installedAt r2) = default t2 (installedAt r2))
  /\ (is_Some (installedAt r1) -> is_Some (installedAt r2) -> one = other)
  /\ (t1 = t2 -> one = other)
  /\ (forall k, unstamped <$> ledger_entry one k = unstamped <$> ledger_entry other k)
  /\ (forall k, k <> k1 -> k <> k2 ->
        ledger_entry one k = ledger_entry c k
        /\ ledger_entry other k = ledger_entry c k)
  /\ (installedAt <$> ledger_entry one k1 = Some (Some (default t1 (installedAt r1)))
      /\ installedAt <$> ledger_entry other k1 = Some (Some (default t2 (installedAt r1))))
  /\ (installedAt <$> ledger_entry one k2 = Some (Some (default t2 (installedAt r2)))
      /\ installedAt <$> ledger_entry other k2 = Some (Some (default t1 (installedAt r2))))
  /\ plugins one = plugins other
  /\ cfg_rest one = cfg_rest other.
Proof.
  intros Hne one other.
  assert (H11 : ledger_entry one k1
                = Some {| source := source r1; version := version r1;
                          archiveUrl := archiveUrl r1;
                          installedAt := Some (default t1 (installedAt r1)) |}).
  { unfold one. rewrite SyncFacts.ledger_record_other by exact Hne.
    apply SyncFacts.ledger_record_same. }
  assert (H12 : ledger_entry one k2
                = Some {| source := source r2; version := version r2;
                          archiveUrl := archiveUrl r2;
                          installedAt := Some (default t2 (installedAt r2)) |}).
  { unfold one. apply SyncFacts.ledger_record_same. }
  assert (H21 : ledger_entry other k1
                = Some {| source := source r1; version := version r1;
                          archiveUrl := archiveUrl r1;
                          installedAt := Some (default t2 (installedAt r1)) |}).
  { unfold other. apply SyncFacts.ledger_record_same. }
  assert (H22 : ledger_entry other k2
                = Some {| source := source r2; version := version r2;
                          archiveUrl := archiveUrl r2;
                          installedAt := Some (default t1 (installedAt r2)) |}).
  { unfold other. rewrite SyncFacts.ledger_record_other by congruence.
    apply SyncFacts.ledger_record_same. }
  assert (Hother : forall k, k <> k1 -> k <> k2 ->
            ledger_entry one k = ledger_entry c k
            /\ ledger_entry other k = ledger_entry c k).
  { intros k Hk1 Hk2. unfold one, other.
    rewrite !SyncFacts.ledger_record_other by assumption. split; reflexivity. }
  assert (Hback : default t1 (installedAt r1) = default t2 (installedAt r1) ->
                  default t1 (installedAt r2) = default t2 (installedAt r2) ->
                  one = other).
  { intros E1 E2. unfold one, other, recordSkillInstall. simpl.
    rewrite E1, E2. rewrite insert_insert_ne by congruence. reflexivity. }
  split; [|split; [|split; [|split; [|split; [exact Hother|]]]]].
  - split.
    + intros E. rewrite E in H11, H12. rewrite H21 in H11. rewrite H22 in H12.
      inversion H11. inversion H12. split; congruence.
    + intros [E1 E2]. exact (Hback E1 E2).
  - intros [a Ha] [b Hb]. apply Hback; [rewrite Ha|rewrite Hb]; reflexivity.
  - intros ->. apply Hback; reflexivity.
  - intros k.
    destruct (String.string_dec k k1) as [->|Hk1]; [rewrite H11, H21; reflexivity|].
    destruct (String.string_dec k k2) as [->|Hk2]; [rewrite H12, H22; reflexivity|].
    destruct (Hother k Hk1 Hk2) as [-> ->]. reflexivity.
  - rewrite H11, H12, H21, H22. repeat split; reflexivity.
Qed.

Lemma recordSkillInstall_commutes_witness :
  recordSkillInstall Sample.t2
    (recordSkillInstall Sample.t1 empty_config "a" Sample.runbook_record)
    "b" Sample.runbook_record
  = recordSkillInstall Sample.t2
      (recordSkillInstall Sample.t1 empty_config "b" Sample.runbook_record)
      "a" Sample.runbook_record.
Proof.
  refine (proj1 (proj2 (recordSkillInstall_commutes Sample.t1 Sample.t2
                          empty_config "a" "b" Sample.runbook_record
                          Sample.runbook_record _)) _ _).
  - discriminate.
  - eexists. reflexivity.
  - eexists. reflexivity.
Defined.

(** Records without [installedAt], the second call a day after the
    first: the order shows in the stamps. *)
Example recording_order_shows_in_stamps :
  recordSkillInstall Sample.t2
    (recordSkillInstall Sample.t1 empty_config "a" Sample.record) "b" Sample.record
  <> recordSkillInstall Sample.t2
       (recordSkillInstall Sample.t1 empty_config "b" Sample.record) "a" Sample.record.
Proof.
  intros H.
  apply (f_equal (fun c => installedAt <$> ledger_entry c "a")) in H.
  rewrite SyncFacts.ledger_record_other in H by discriminate.
  rewrite !SyncFacts.ledger_record_same in H. discriminate H.
Qed.

(** X15.  Recording is an upsert: what was stored for the skill before
    does not matter.  Recording after removing the skill gives what
    recording alone gives, and the entry stored is the record given with
    [installedAt] filled in, whatever the previous entry held. *)
Theorem recordSkillInstall_overwrites
    (now : string) (c : SimpleClawConfig) (k : string) (r : SkillInstallRecord) :
  recordSkillInstall now (removeSkillInstall c k) k r = recordSkillInstall now c k r
  /\ ledger_entry (recordSkillInstall now c k r) k
     = Some {| source := source r; version := version r;
               archiveUrl := archiveUrl r;
               installedAt := Some (default now (installedAt r)) |}
  /\ plugins (recordSkillInstall now c k r) = plugins c
  /\ cfg_rest (recordSkillInstall now c k r) = cfg_rest c
  /\ skills_rest (default empty_skills (skills (recordSkillInstall now c k r)))
     = skills_rest (default empty_skills (skills c)).
Proof.
  split; [|split; [|repeat split]].
  - unfold recordSkillInstall, removeSkillInstall. simpl.
    rewrite default_pruned, insert_delete_eq. reflexivity.
  - unfold ledger_entry. rewrite skill_installs_record. apply lookup_insert_eq.
Qed.

End LedgerMoreProps.

(** ** HTTP handlers *)

Module HandlerFacts.
Import LedgerMoreFacts.

Lemma truthy_spec_ne (s : string) : truthy s = true -> s <> "".
Proof. destruct s; simpl; congruence. Qed.

Lemma opt_is_spec (m : option string) (s : string) :
  opt_is m s = true <-> m = Some s.
Proof.
  destruct m as [x|]; simpl; [|split; discriminate].
  rewrite String.eqb_eq. split; congruence.
Qed.

Lemma inherited_spec (k : string) :
  inherited k = true <-> In k OBJECT_PROTOTYPE_KEYS.
Proof.
  unfold inherited. rewrite existsb_exists. split.
  - intros (x & Hin & Hx). apply String.eqb_eq in Hx. subst x. exact Hin.
  - intros Hin. exists k. split; [exact Hin|apply String.eqb_refl].
Qed.

Lemma has_install_spec (cfg : SimpleClawConfig) (id : string) :
  has_install cfg id = true
  <-> exists m, skills cfg ≫= installs = Some m
                /\ (is_Some (m !! id) \/ In id OBJECT_PROTOTYPE_KEYS).
Proof.
  unfold has_install.
  destruct (skills cfg ≫= installs) as [m|].
  - rewrite orb_true_iff, bool_decide_eq_true, inherited_spec. split.
    + intros H. exists m. split; [reflexivity|exact H].
    + intros (m' & Hm & H). inversion Hm; subst m'. exact H.
  - split; [discriminate|]. intros (m & Hm & _). discriminate Hm.
Qed.

(** A record of the ledger is an own property of an existing ledger. *)
Lemma ledger_entry_own (cfg : SimpleClawConfig) (id : string) :
  is_Some (ledger_entry cfg id) ->
  exists m, skills cfg ≫= installs = Some m
            /\ (is_Some (m !! id) \/ In id OBJECT_PROTOTYPE_KEYS).
Proof.
  unfold ledger_entry, skill_installs. intros [r Hr].
  destruct (skills cfg ≫= installs) as [m|] eqn:E.
  - exists m. split; [reflexivity|]. left. exists r. exact Hr.
  - simpl in Hr. rewrite lookup_empty in Hr. discriminate Hr.
Qed.

Lemma find_skill_name catalog id s :
  find_skill catalog id = Some s -> se_name s = id /\ In s (cat_skills catalog).
Proof.
  unfold find_skill. intros H. apply List.find_some in H as [Hin Heq].
  apply String.eqb_eq in Heq. auto.
Qed.

Lemma find_plugin_id catalog id p :
  find_plugin catalog id = Some p ->
  (pe_id p = id \/ pe_npmSpec p = id) /\ In p (cat_plugins catalog).
Proof.
  unfold find_plugin. intros H. apply List.find_some in H as [Hin Heq].
  apply orb_true_iff in Heq. rewrite !String.eqb_eq in Heq. auto.
Qed.

End HandlerFacts.

Module HandlerProps.
Import HandlerFacts LedgerMoreFacts.

(** X16.  [handleUninstall] acts only on a [POST] whose parsed body holds
    a string [id] that is not blank and a [type] that is [skill] or
    [plugin]: in every other case it writes no configuration and makes no
    call, and a blank or missing [id] is answered with [Missing 'id' in
    request body] before the type is looked at. *)
Theorem handleUninstall_guards (js : JsRuntime)
    (pf : Platform) (w : UninstallWorld) (method : string) (body : option Json) :
  let run := handleUninstall js pf w method body in
  (h_written run <> [] \/ h_trace run <> [] ->
   method = "POST"
   /\ exists b, body = Some b /\ body_id js b <> ""
      /\ (body_string b "type" = Some "skill"
          \/ body_string b "type" = Some "plugin"))
  /\ (forall b, method = "POST" -> body = Some b ->
        (body_string b "id" = None
         \/ exists s, body_string b "id" = Some s /\ blank s = true) ->
        run = replied (ReplyInvalidRequest "Missing 'id' in request body")).
Proof.
  intros run. unfold run, handleUninstall. split.
  - destruct (String.eqb method "POST") eqn:Em; simpl;
      [|intros [H|H]; exfalso; apply H; reflexivity].
    apply String.eqb_eq in Em.
    destruct body as [b|]; simpl;
      [|intros [H|H]; exfalso; apply H; reflexivity].
    destruct (truthy (body_id js b)) eqn:Ei; simpl;
      [|intros [H|H]; exfalso; apply H; reflexivity].
    apply truthy_spec_ne in Ei.
    destruct (opt_is (body_string b "type") "plugin") eqn:Ep;
      destruct (opt_is (body_string b "type") "skill") eqn:Es; simpl;
      try apply opt_is_spec in Ep; try apply opt_is_spec in Es;
      intros H; try (split; [exact Em|exists b; auto]).
    destruct H as [H|H]; exfalso; apply H; reflexivity.
  - intros b -> -> Hid. simpl.
    assert (E : body_id js b = "").
    { unfold body_id. destruct Hid as [->|(s & -> & Hs)]; [reflexivity|].
      apply CredentialFacts.trim_blank. exact Hs. }
    rewrite E. reflexivity.
Qed.

(** X17.  Uninstalling a skill.  The handler looks the id up with a
    property read on the ledger, which finds a record stored under the id
    and also, whenever the ledger exists, a property of that name inherited
    from [Object.prototype] ([constructor], [toString], ...).  When the read
    finds nothing (no ledger, or neither a record nor an inherited name) the
    answer is 404 and nothing is removed or written.  When it finds
    something, the directory [CONFIG_DIR/skills/<id>] is removed first; if
    that fails the handler rejects and writes nothing; otherwise it writes
    the configuration without an entry for the id, in which every other
    ledger entry and everything outside the ledger is as before, and answers
    200. *)
Theorem uninstall_skill_effect (js : JsRuntime)
    (pf : Platform) (w : UninstallWorld) (b : Json) :
  truthy (body_id js b) = true ->
  body_string b "type" = Some "skill" ->
  let id := body_id js b in
  let cfg := uw_config w in
  let run := handleUninstall js pf w "POST" (Some b) in
  (has_install cfg id = true
   <-> exists m, skills cfg ≫= installs = Some m
                 /\ (is_Some (m !! id) \/ In id OBJECT_PROTOTYPE_KEYS))
  /\ (is_Some (ledger_entry cfg id) -> has_install cfg id = true)
  /\ (has_install cfg id = false ->
      run = replied (ReplyJson 404
                       (error_body ("Skill " ++ quoted id ++ " is not installed"))))
  /\ (has_install cfg id = true ->
      h_trace run = [EvRm (skill_dir pf id)]
      /\ (forall e, uw_rm w = Rejected e ->
            h_written run = [] /\ h_reply run = Rejected e)
      /\ (uw_rm w = Resolved tt ->
          h_written run = [removeSkillInstall cfg id]
          /\ (uw_writeConfig w = Resolved tt ->
              h_reply run
              = Resolved (ReplyJson 200
                            [("ok", JBool true); ("id", JStr id);
                             ("type", JStr "skill")]))
          /\ (forall e, uw_writeConfig w = Rejected e ->
                h_reply run = Rejected e)))
  /\ (forall next, In next (h_written run) ->
        ledger_entry next id = None
        /\ (forall k, k <> id -> ledger_entry next k = ledger_entry cfg k)
        /\ plugins next = plugins cfg
        /\ cfg_rest next = cfg_rest cfg).
Proof.
  intros Hid Htype id cfg run.
  assert (Hrun : run = uninstall_skill pf w id).
  { unfold run, handleUninstall, id. rewrite String.eqb_refl. cbv [negb]. cbv zeta.
    rewrite Hid, Htype. reflexivity. }
  rewrite Hrun. unfold uninstall_skill. fold cfg.
  split; [|split; [|split; [|split; [|]]]].
  - apply has_install_spec.
  - intros Hsome. apply has_install_spec. apply ledger_entry_own. exact Hsome.
  - intros H. rewrite H. reflexivity.
  - intros H. rewrite H. cbv [negb].
    destruct (uw_rm w) as [[]|e0]; simpl.
    + split; [reflexivity|]. split; [intros e He; discriminate He|].
      intros _. split; [reflexivity|].
      split; [intros ->; reflexivity|intros e ->; reflexivity].
    + split; [reflexivity|]. split.
      * intros e He. inversion He. auto.
      * intros He. discriminate He.
  - intros next Hin.
    assert (Hnext : next = removeSkillInstall cfg id).
    { destruct (has_install cfg id); [|destruct Hin].
      cbv [negb] in Hin.
      destruct (uw_rm w); simpl in Hin; [|destruct Hin].
      destruct Hin as [H|[]]. congruence. }
    subst next. unfold ledger_entry. rewrite skill_installs_remove.
    split; [apply lookup_delete_eq|].
    split; [intros k Hk; apply lookup_delete_ne; congruence|].
    split; reflexivity.
Qed.

Lemma uninstall_skill_effect_witness :
  truthy (body_id ascii_runtime HandlerSample.skill_body) = true
  /\ h_written (handleUninstall ascii_runtime Sample.platform HandlerSample.uninstall_world
                  "POST" (Some HandlerSample.skill_body))
     = [removeSkillInstall (uw_config HandlerSample.uninstall_world) "runbook"].
Proof.
  split; [reflexivity|].
  pose proof (uninstall_skill_effect ascii_runtime Sample.platform HandlerSample.uninstall_world
                HandlerSample.skill_body eq_refl eq_refl) as (_ & _ & _ & H & _).
  assert (Hin : has_install (uw_config HandlerSample.uninstall_world)
                  (body_id ascii_runtime HandlerSample.skill_body) = true).
  { vm_compute. reflexivity. }
  exact (proj1 (proj2 (proj2 (H Hin)) eq_refl)).
Defined.

(** The id [constructor] on the sample configuration, whose ledger holds
    [runbook] only: the directory is removed, the configuration is
    written and the answer is 200. *)
Example uninstall_inherited_name (js : JsRuntime) :
  let run := handleUninstall js Sample.platform HandlerSample.uninstall_world
               "POST" (Some (JObj [("id", JStr "constructor");
                                   ("type", JStr "skill")])) in
  ledger_entry (uw_config HandlerSample.uninstall_world) "constructor" = None
  /\ h_trace run = [EvRm "/home/user/.simpleclaw/skills/constructor"]
  /\ length (h_written run) = 1
  /\ h_reply run
     = Resolved (ReplyJson 200
                   [("ok", JBool true); ("id", JStr "constructor");
                    ("type", JStr "skill")]).
Proof.
  unfold handleUninstall, body_id. simpl.
  rewrite (trim_ascii js) by reflexivity.
  vm_compute. repeat split.
Qed.


(** The catalog entry [../escape]: 500 with the validation message, no
    call, no write. *)
Example escaping_entry_is_refused (js : JsRuntime) :
  doInstallSkill js Sample.platform
    (HandlerSample.install_world Sample.MOCK_CATALOG)
    empty_config HandlerSample.escaping_entry
  = replied (ReplyJson 500
               (error_body ("Invalid skill name: " ++ quoted "../escape"))).
Proof. reflexivity. Qed.

(** The same entry under [gcloud-adc]: the metadata server and [gcloud] are
    asked for a token before the name is refused. *)
Example escaping_entry_after_token (js : JsRuntime) :
  doInstallSkill js Sample.platform
    (HandlerSample.install_world Sample.MOCK_CATALOG)
    HandlerSample.adc_config HandlerSample.escaping_entry
  = {| h_reply := Resolved (ReplyJson 500
                              (error_body ("Invalid skill name: "
                                           ++ quoted "../escape")));
       h_written := [];
       h_trace := [metadata_request; gcloud_request] |}.
Proof. reflexivity. Qed.

(** X19.  How [handleInstall] chooses between the skill and the plugin of
    a catalog that answers to the id: the skill is installed when the hint
    is [skill] or when there is no plugin of that id; in every other case
    in which a plugin exists the plugin is installed, also when the hint
    is [skill] and no such skill exists; with neither the answer is 404.
    The skill found has the id as its name, the plugin found has it as its
    id or as its npm spec. *)
Theorem handleInstall_dispatch (js : JsRuntime)
    (pf : Platform) (w : InstallHandlerWorld) (b : Json)
    (reg : PrivateRegistryConfig) (url : string) (catalog : MarketplaceCatalog) :
  truthy (body_id js b) = true ->
  registry_of (iw_config w) = Some reg ->
  or_null (catalogUrl reg) = Some url ->
  iw_catalog w = Resolved catalog ->
  let id := body_id js b in
  let hint := body_string b "type" in
  let run := handleInstall js pf w "POST" (Some b) in
  (forall s, find_skill catalog id = Some s ->
     (hint = Some "skill" \/ find_plugin catalog id = None) ->
     run = doInstallSkill js pf w (iw_config w) s /\ se_name s = id)
  /\ (forall p, find_plugin catalog id = Some p ->
        (hint <> Some "skill" \/ find_skill catalog id = None) ->
        run = iw_installPlugin w (cat_registry catalog) p
        /\ (pe_id p = id \/ pe_npmSpec p = id))
  /\ (find_skill catalog id = None -> find_plugin catalog id = None ->
      run = replied (ReplyJson 404
                       (error_body (quoted id ++ " not found in catalog")))).
Proof.
  intros Hid Hreg Hurl Hcat id hint run.
  assert (Hrun : run
    = match (if opt_is hint "skill" then find_skill catalog id else None) with
      | Some s => doInstallSkill js pf w (iw_config w) s
      | None =>
      match (if opt_is hint "plugin" then find_plugin catalog id else None) with
      | Some p => iw_installPlugin w (cat_registry catalog) p
      | None =>
      match find_plugin catalog id with
      | Some p => iw_installPlugin w (cat_registry catalog) p
      | None =>
      match find_skill catalog id with
      | Some s => doInstallSkill js pf w (iw_config w) s
      | None => replied (ReplyJson 404
                           (error_body (quoted id ++ " not found in catalog")))
      end end end end).
  { unfold run, handleInstall, id, hint. rewrite String.eqb_refl. cbv [negb]. cbv zeta.
    rewrite Hid, Hreg. cbn [mbind option_bind]. rewrite Hurl, Hcat. reflexivity. }
  rewrite Hrun. clear Hrun.
  split; [|split].
  - intros s Hs Hcase. split; [|exact (proj1 (find_skill_name _ _ _ Hs))].
    rewrite Hs. destruct (opt_is hint "skill") eqn:Eh; [reflexivity|].
    destruct Hcase as [H|H]; [apply opt_is_spec in H; congruence|].
    rewrite H. destruct (opt_is hint "plugin"); reflexivity.
  - intros p Hp Hcase. split; [|exact (proj1 (find_plugin_id _ _ _ Hp))].
    rewrite Hp.
    destruct (opt_is hint "skill") eqn:Eh.
    + apply opt_is_spec in Eh. destruct Hcase as [H|H]; [congruence|].
      rewrite H. destruct (opt_is hint "plugin"); reflexivity.
    + destruct (opt_is hint "plugin"); reflexivity.
  - intros Hs Hp. rewrite Hs, Hp.
    destruct (opt_is hint "skill"), (opt_is hint "plugin"); reflexivity.
Qed.

Lemma handleInstall_dispatch_witness :
  let w := HandlerSample.install_world HandlerSample.both_catalog in
  truthy (body_id ascii_runtime (JObj [("id", JStr "runbook")])) = true
  /\ handleInstall ascii_runtime Sample.platform w "POST" (Some (JObj [("id", JStr "runbook")]))
     = HandlerSample.plugin_installed.
Proof.
  intros w. split; [reflexivity|].
  pose proof (handleInstall_dispatch ascii_runtime Sample.platform w (JObj [("id", JStr "runbook")])
                Sample.registry_with_catalog "gs://bucket/catalog.json"
                HandlerSample.both_catalog eq_refl eq_refl eq_refl eq_refl)
    as (_ & H & _).
  refine (proj1 (H _ eq_refl _)). left. discriminate.
Defined.

End HandlerProps.

(** ** Sync handler, continued *)

Module SyncMoreFacts.
Import SyncFacts.

(** The ledger record an update writes for a skill. *)
Lemma ledger_after_update w st k e url :
  ledger_entry
    (recordSkillInstall (sw_now w k) (st_next st) k
       {| source := SrcMarketplace; version := se_version e;
          archiveUrl := Some url; installedAt := None |}) k
  = Some {| source := SrcMarketplace; version := se_version e;
            archiveUrl := Some url; installedAt := Some (sw_now w k) |}.
Proof. apply ledger_record_same. Qed.

(** What the loop keeps in every world, whether or not it is left by a
    rejected install. *)
Lemma sync_loop_invariant w catalog token entries :
  forall st,
    let st' := fst (sync_loop w catalog token entries st) in
    (forall k, ~ In k (List.map fst entries) ->
       ledger_entry (st_next st') k = ledger_entry (st_next st) k)
    /\ (forall k,
          ledger_entry (st_next st') k = ledger_entry (st_next st) k
          \/ exists e url,
               find_skill catalog k = Some e
               /\ or_null (se_archiveUrl e) = Some url
               /\ ledger_entry (st_next st') k
                  = Some {| source := SrcMarketplace; version := se_version e;
                            archiveUrl := Some url;
                            installedAt := Some (sw_now w k) |})
    /\ (exists rs, st_results st' = (st_results st ++ rs)%list)
    /\ (st_changed st = true -> st_changed st' = true)
    /\ plugins (st_next st') = plugins (st_next st)
    /\ cfg_rest (st_next st') = cfg_rest (st_next st).
Proof.
  induction entries as [|[k r] rest IH]; intros st.
  - simpl. repeat split; auto. exists []. rewrite app_nil_r. reflexivity.
  - (* a branch that pushes [res] and goes on from a state with the same
       configuration *)
    assert (Hsame : forall res,
      let st' := fst (sync_loop w catalog token rest (push st res)) in
      (forall k0, ~ In k0 (List.map fst ((k, r) :: rest)) ->
         ledger_entry (st_next st') k0 = ledger_entry (st_next st) k0)
      /\ (forall k0,
            ledger_entry (st_next st') k0 = ledger_entry (st_next st) k0
            \/ exists e url,
                 find_skill catalog k0 = Some e
                 /\ or_null (se_archiveUrl e) = Some url
                 /\ ledger_entry (st_next st') k0
                    = Some {| source := SrcMarketplace; version := se_version e;
                              archiveUrl := Some url;
                              installedAt := Some (sw_now w k0) |})
      /\ (exists rs, st_results st' = (st_results st ++ rs)%list)
      /\ (st_changed st = true -> st_changed st' = true)
      /\ plugins (st_next st') = plugins (st_next st)
      /\ cfg_rest (st_next st') = cfg_rest (st_next st)).
    { intros res. destruct (IH (push st res)) as (H1 & H2 & [rs H3] & H4 & H5 & H6).
      simpl in *. split; [|split; [|split; [|split; [|split]]]].
      - intros k0 Hk0. apply H1. tauto.
      - exact H2.
      - exists (res :: rs). rewrite H3, <- app_assoc. reflexivity.
      - exact H4.
      - exact H5.
      - exact H6. }
    simpl.
    destruct (find_skill catalog k) as [e|] eqn:Hfind; [|apply Hsame].
    destruct (String.eqb (version r) (se_version e)); [apply Hsame|].
    destruct (or_null (se_archiveUrl e)) as [url|] eqn:Hurl; [|apply Hsame].
    destruct (sw_install w (install_request k url token)) as [[n t|err]|e0].
    + set (st1 := {| st_next :=
                       recordSkillInstall (sw_now w k) (st_next st) k
                         {| source := SrcMarketplace; version := se_version e;
                            archiveUrl := Some url; installedAt := None |};
                     st_changed := true; st_results := st_results st |}).
      destruct (IH (push st1 (skill_result k "updated" (Some (version r))
                                (Some (se_version e)) None None)))
        as (H1 & H2 & [rs H3] & H4 & H5 & H6).
      simpl in *. repeat split.
      * intros k0 Hk0. rewrite H1 by tauto.
        apply ledger_record_other. intros ->. apply Hk0. left. reflexivity.
      * intros k0. destruct (H2 k0) as [H|H]; [|right; exact H].
        destruct (String.string_dec k0 k) as [->|Hne].
        -- right. exists e, url. rewrite H.
           repeat split; auto. apply ledger_record_same.
        -- left. rewrite H. apply ledger_record_other. exact Hne.
      * eexists (_ :: rs). rewrite H3, <- app_assoc. reflexivity.
      * intros _. apply H4. reflexivity.
      * rewrite H5. reflexivity.
      * rewrite H6. reflexivity.
    + apply Hsame.
    + simpl. repeat split; auto. exists []. rewrite app_nil_r. reflexivity.
Qed.

(** The same for the whole skill half. *)
Lemma sync_skills_invariant w st0 :
  let st := sync_skills w st0 in
  (forall k, ~ In k (List.map fst (marketplaceSkills (sw_order w) (sw_config w))) ->
     ledger_entry (st_next st) k = ledger_entry (st_next st0) k)
  /\ (forall k,
        ledger_entry (st_next st) k = ledger_entry (st_next st0) k
        \/ exists catalog e url,
             sw_catalog w = Resolved catalog
             /\ find_skill catalog k = Some e
             /\ or_null (se_archiveUrl e) = Some url
             /\ ledger_entry (st_next st) k
                = Some {| source := SrcMarketplace; version := se_version e;
                          archiveUrl := Some url;
                          installedAt := Some (sw_now w k) |})
  /\ (exists rs, st_results st = (st_results st0 ++ rs)%list)
  /\ (st_changed st0 = true -> st_changed st = true)
  /\ plugins (st_next st) = plugins (st_next st0)
  /\ cfg_rest (st_next st) = cfg_rest (st_next st0).
Proof.
  assert (Hid : forall res,
    (forall k, ~ In k (List.map fst (marketplaceSkills (sw_order w) (sw_config w))) ->
       ledger_entry (st_next (push st0 res)) k = ledger_entry (st_next st0) k)
    /\ (forall k,
          ledger_entry (st_next (push st0 res)) k = ledger_entry (st_next st0) k
          \/ exists catalog e url,
               sw_catalog w = Resolved catalog
               /\ find_skill catalog k = Some e
               /\ or_null (se_archiveUrl e) = Some url
               /\ ledger_entry (st_next (push st0 res)) k
                  = Some {| source := SrcMarketplace; version := se_version e;
                            archiveUrl := Some url;
                            installedAt := Some (sw_now w k) |})
    /\ (exists rs, st_results (push st0 res) = (st_results st0 ++ rs)%list)
    /\ (st_changed st0 = true -> st_changed (push st0 res) = true)
    /\ plugins (st_next (push st0 res)) = plugins (st_next st0)
    /\ cfg_rest (st_next (push st0 res)) = cfg_rest (st_next st0)).
  { intros res. simpl. repeat split; auto. eexists. reflexivity. }
  assert (Hnone :
    (forall k, ~ In k (List.map fst (marketplaceSkills (sw_order w) (sw_config w))) ->
       ledger_entry (st_next st0) k = ledger_entry (st_next st0) k)
    /\ (forall k,
          ledger_entry (st_next st0) k = ledger_entry (st_next st0) k
          \/ exists catalog e url,
               sw_catalog w = Resolved catalog
               /\ find_skill catalog k = Some e
               /\ or_null (se_archiveUrl e) = Some url
               /\ ledger_entry (st_next st0) k
                  = Some {| source := SrcMarketplace; version := se_version e;
                            archiveUrl := Some url;
                            installedAt := Some (sw_now w k) |})
    /\ (exists rs, st_results st0 = (st_results st0 ++ rs)%list)
    /\ (st_changed st0 = true -> st_changed st0 = true)
    /\ plugins (st_next st0) = plugins (st_next st0)
    /\ cfg_rest (st_next st0) = cfg_rest (st_next st0)).
  { repeat split; auto. exists []. rewrite app_nil_r. reflexivity. }
  unfold sync_skills.
  destruct (0 <? length (marketplaceSkills (sw_order w) (sw_config w)))%nat; [|exact Hnone].
  destruct (registry_of (sw_config w)) as [reg|]; [|exact Hnone].
  destruct (or_null (catalogUrl reg)) as [url|]; [|exact Hnone].
  destruct (sw_catalog w) as [catalog|e] eqn:Hcat; [|apply Hid].
  destruct (resolveMarketplaceAuthToken (sw_garToken w) (sw_config w))
    as [token|e]; [|apply Hid].
  pose proof (sync_loop_invariant w catalog token
                (marketplaceSkills (sw_order w) (sw_config w)) st0) as Hinv.
  destruct (sync_loop w catalog token (marketplaceSkills (sw_order w) (sw_config w)) st0)
    as [st [e|]]; simpl in Hinv;
    destruct Hinv as (H1 & H2 & [rs H3] & H4 & H5 & H6); simpl.
  - repeat split; auto.
    + intros k. destruct (H2 k) as [H|(e' & u & Ha & Hb & Hc)]; [left; exact H|].
      right. exists catalog, e', u. auto.
    + exists (rs ++ [catalog_failure e])%list. rewrite H3, <- app_assoc. reflexivity.
  - repeat split; auto.
    + intros k. destruct (H2 k) as [H|(e' & u & Ha & Hb & Hc)]; [left; exact H|].
      right. exists catalog, e', u. auto.
    + exists rs. exact H3.
Qed.

(** The loop over a list split in two: the second part is run from the
    state the first part reached, unless an install of the first part
    rejected. *)
Lemma sync_loop_app w catalog token pre post :
  forall st,
    sync_loop w catalog token (pre ++ post) st
    = match sync_loop w catalog token pre st with
      | (st', None) => sync_loop w catalog token post st'
      | (st', Some e) => (st', Some e)
      end.
Proof.
  induction pre as [|[k r] rest IH]; intros st; simpl; [reflexivity|].
  destruct (find_skill catalog k) as [e|]; [|apply IH].
  destruct (String.eqb (version r) (se_version e)); [apply IH|].
  destruct (or_null (se_archiveUrl e)) as [url|]; [|apply IH].
  destruct (sw_install w (install_request k url token)) as [[n t|err]|e0];
    [apply IH|apply IH|reflexivity].
Qed.

(** The loop runs to its end over skills whose installs all return. *)
Lemma sync_loop_completes w catalog token entries :
  (forall k url, In k (List.map fst entries) ->
     exists res, sw_install w (install_request k url token) = Resolved res) ->
  forall st, snd (sync_loop w catalog token entries st) = None.
Proof.
  induction entries as [|[k r] rest IH]; intros Hres st; simpl; [reflexivity|].
  assert (Hrest : forall k0 url, In k0 (List.map fst rest) ->
            exists res, sw_install w (install_request k0 url token) = Resolved res).
  { intros k0 url Hin. apply Hres. right. exact Hin. }
  destruct (find_skill catalog k) as [e|]; [|apply IH, Hrest].
  destruct (String.eqb (version r) (se_version e)); [apply IH, Hrest|].
  destruct (or_null (se_archiveUrl e)) as [url|]; [|apply IH, Hrest].
  destruct (Hres k url) as [res Hk]; [left; reflexivity|].
  rewrite Hk. destruct res; apply IH, Hrest.
Qed.

End SyncMoreFacts.

Module SyncMoreProps.
Import SyncFacts SyncMoreFacts.

(** X20.  In every world, a sync request leaves alone what is not a
    marketplace skill of the loaded configuration: the ledger entry of any
    other skill is the one the plugin update returned, as are the plugin
    section and the other top-level keys.  An entry that differs from the
    plugin update's is the marketplace record of the catalog's version and
    URL, stamped with the clock; no entry is deleted.  The results begin
    with the plugin outcomes, a change made by the plugin update stays a
    change, and the configuration is written exactly when something
    changed, once, as the final configuration. *)
Theorem sync_touches_only_marketplace_entries (w : SyncWorld) :
  let run := handleSync w "POST" in
  let before := pu_config (sw_plugins w) in
  (forall k, ~ In k (List.map fst (marketplaceSkills (sw_order w) (sw_config w))) ->
     ledger_entry (run_next run) k = ledger_entry before k)
  /\ (forall k,
        ledger_entry (run_next run) k = ledger_entry before k
        \/ exists catalog e url,
             sw_catalog w = Resolved catalog
             /\ find_skill catalog k = Some e
             /\ or_null (se_archiveUrl e) = Some url
             /\ ledger_entry (run_next run) k
                = Some {| source := SrcMarketplace; version := se_version e;
                          archiveUrl := Some url;
                          installedAt := Some (sw_now w k) |})
  /\ (forall k, is_Some (ledger_entry before k) ->
        is_Some (ledger_entry (run_next run) k))
  /\ plugins (run_next run) = plugins before
  /\ cfg_rest (run_next run) = cfg_rest before
  /\ (exists rs,
        run_results run
        = (List.map plugin_result (pu_outcomes (sw_plugins w)) ++ rs)%list)
  /\ (pu_changed (sw_plugins w) = true -> run_changed run = true)
  /\ run_written run = (if run_changed run then [run_next run] else []).
Proof.
  intros run before.
  set (st0 := {| st_next := pu_config (sw_plugins w);
                 st_changed := pu_changed (sw_plugins w);
                 st_results := List.map plugin_result (pu_outcomes (sw_plugins w)) |}).
  destruct (sync_skills_invariant w st0) as (H1 & H2 & H3 & H4 & H5 & H6).
  assert (Hnext : run_next run = st_next (sync_skills w st0)).
  { unfold run, handleSync. simpl. fold st0.
    destruct (st_changed (sync_skills w st0)); reflexivity. }
  assert (Hres : run_results run = st_results (sync_skills w st0)).
  { unfold run, handleSync. simpl. fold st0.
    destruct (st_changed (sync_skills w st0)); reflexivity. }
  assert (Hch : run_changed run = st_changed (sync_skills w st0)).
  { unfold run, handleSync. simpl. fold st0.
    destruct (st_changed (sync_skills w st0)); reflexivity. }
  assert (Hwr : run_written run = (if run_changed run then [run_next run] else [])).
  { unfold run, handleSync. simpl. fold st0.
    destruct (st_changed (sync_skills w st0)); reflexivity. }
  rewrite Hnext, Hres, Hch. rewrite Hnext, Hch in Hwr.
  split; [exact H1|]. split; [exact H2|].
  split.
  { intros k Hk. destruct (H2 k) as [H|(c & e & u & _ & _ & _ & H)].
    - rewrite H. exact Hk.
    - rewrite H. eexists. reflexivity. }
  split; [exact H5|]. split; [exact H6|]. split; [exact H3|].
  split; [exact H4|exact Hwr].
Qed.

(** X21.  When the configuration has marketplace skills and a catalog URL
    and the catalog cannot be fetched, the results are the plugin outcomes
    followed by one error for the id [*] whose message is the string form
    of the rejection (the name of its class, a colon and its message)
    behind the fixed prefix; no skill is classified, and the configuration
    and the change flag are those of the plugin update.  That configuration
    is written exactly when the plugin update changed something, and the
    request is answered with these results unless that write fails, in
    which case the handler rejects with the error of the write. *)
Theorem sync_catalog_failure (w : SyncWorld) (reg : PrivateRegistryConfig)
    (url : string) (e : Err) :
  marketplaceSkills (sw_order w) (sw_config w) <> [] ->
  registry_of (sw_config w) = Some reg ->
  or_null (catalogUrl reg) = Some url ->
  sw_catalog w = Rejected e ->
  let run := handleSync w "POST" in
  let results :=
    (List.map plugin_result (pu_outcomes (sw_plugins w))
     ++ [{| r_id := "*"; r_type := "skill"; r_status := "error";
            r_from := None; r_to := None; r_version := None;
            r_error := Some ("Failed to fetch catalog: " ++ String_of_err e)%string |}])%list in
  run_results run = results
  /\ (err_name e <> "" -> err_message e <> "" ->
      String_of_err e = err_name e ++ ": " ++ err_message e)
  /\ run_next run = pu_config (sw_plugins w)
  /\ run_changed run = pu_changed (sw_plugins w)
  /\ run_written run
     = (if pu_changed (sw_plugins w) then [pu_config (sw_plugins w)] else [])
  /\ run_reply run
     = (if pu_changed (sw_plugins w)
        then match sw_writeConfig w with
             | Resolved _ => Resolved (SyncOk true results)
             | Rejected e' => Rejected e'
             end
        else Resolved (SyncOk false results)).
Proof.
  intros Hne Hreg Hurl Hcat run results.
  unfold results, run, handleSync. simpl negb. cbv iota.
  unfold sync_skills. rewrite Hreg, Hurl, Hcat.
  destruct (marketplaceSkills (sw_order w) (sw_config w)) as [|kr rest]; [contradiction|].
  cbn [length Nat.ltb Nat.leb].
  split; [destruct (pu_changed (sw_plugins w)); reflexivity|].
  split.
  { intros Hn Hm. unfold String_of_err.
    destruct (err_name e); [congruence|].
    destruct (err_message e); [congruence|]. reflexivity. }
  destruct (pu_changed (sw_plugins w)); simpl; repeat split; reflexivity.
Qed.

Lemma sync_catalog_failure_witness :
  run_results (handleSync (SyncSample.unreachable_catalog Sample.fetch_failed) "POST")
  = [{| r_id := "*"; r_type := "skill"; r_status := "error";
        r_from := None; r_to := None; r_version := None;
        r_error := Some "Failed to fetch catalog: TypeError: fetch failed" |}].
Proof.
  refine (proj1 (sync_catalog_failure
                   (SyncSample.unreachable_catalog Sample.fetch_failed)
                   Sample.registry_with_catalog
                   "gs://bucket/catalog.json" Sample.fetch_failed _ _ _ _)).
  - vm_compute. discriminate.
  - reflexivity.
  - reflexivity.
  - reflexivity.
Defined.

(** X22.  An install that rejects, rather than returning a failure, ends
    the loop.  If the marketplace skills are, in the key order of the
    ledger, [pre], then [k], then [post], the installs of [pre] return, and
    the install of the out-of-date skill [k] rejects with [e], then the
    request ends in the state the loop reached after [pre], with the error
    for the id [*] appended: the updates made for [pre] are kept and
    written, [k] and the skills of [post] get no result, and the ledger
    entries of the skills outside [pre] are those of the plugin update. *)
Theorem sync_rejected_install_stops (w : SyncWorld)
    (reg : PrivateRegistryConfig) (curl : string) (catalog : MarketplaceCatalog)
    (token : option string)
    (pre post : list (string * SkillInstallRecord))
    (k : string) (r : SkillInstallRecord)
    (entry : MarketplaceSkillEntry) (url : string) (e : Err) :
  marketplaceSkills (sw_order w) (sw_config w) = (pre ++ (k, r) :: post)%list ->
  registry_of (sw_config w) = Some reg ->
  or_null (catalogUrl reg) = Some curl ->
  sw_catalog w = Resolved catalog ->
  resolveMarketplaceAuthToken (sw_garToken w) (sw_config w) = Resolved token ->
  (forall k' url', In k' (List.map fst pre) ->
     exists res, sw_install w (install_request k' url' token) = Resolved res) ->
  find_skill catalog k = Some entry ->
  version r <> se_version entry ->
  or_null (se_archiveUrl entry) = Some url ->
  sw_install w (install_request k url token) = Rejected e ->
  let run := handleSync w "POST" in
  let st0 := {| st_next := pu_config (sw_plugins w);
                st_changed := pu_changed (sw_plugins w);
                st_results := List.map plugin_result (pu_outcomes (sw_plugins w)) |} in
  let reached := fst (sync_loop w catalog token pre st0) in
  run_results run = (st_results reached ++ [catalog_failure e])%list
  /\ run_next run = st_next reached
  /\ run_changed run = st_changed reached
  /\ run_written run = (if st_changed reached then [st_next reached] else [])
  /\ (forall k', ~ In k' (List.map fst pre) ->
        ledger_entry (run_next run) k' = ledger_entry (pu_config (sw_plugins w)) k').
Proof.
  intros Hms Hreg Hcurl Hcat Htok Hpre Hfind Hver Hurl Hrej run st0 reached.
  assert (Hloop : sync_loop w catalog token (marketplaceSkills (sw_order w) (sw_config w)) st0
                  = (reached, Some e)).
  { rewrite Hms, sync_loop_app.
    pose proof (sync_loop_completes w catalog token pre Hpre st0) as Hnone.
    unfold reached.
    destruct (sync_loop w catalog token pre st0) as [st' o]. simpl in Hnone.
    subst o. simpl. rewrite Hfind.
    destruct (String.eqb (version r) (se_version entry)) eqn:Heq.
    - apply String.eqb_eq in Heq. contradiction.
    - rewrite Hurl, Hrej. reflexivity. }
  assert (Hsk : sync_skills w st0 = push reached (catalog_failure e)).
  { unfold sync_skills. rewrite Hreg, Hcurl, Hcat, Htok, Hloop.
    rewrite Hms. destruct pre; reflexivity. }
  assert (Hrun : run_results run = st_results (sync_skills w st0)
                 /\ run_next run = st_next (sync_skills w st0)
                 /\ run_changed run = st_changed (sync_skills w st0)
                 /\ run_written run
                    = (if st_changed (sync_skills w st0)
                       then [st_next (sync_skills w st0)] else [])).
  { unfold run, handleSync. simpl. fold st0.
    destruct (st_changed (sync_skills w st0)); repeat split; reflexivity. }
  destruct Hrun as (Hr1 & Hr2 & Hr3 & Hr4).
  rewrite Hr1, Hr2, Hr3, Hr4, Hsk. simpl.
  repeat split.
  intros k' Hk'.
  exact (proj1 (sync_loop_invariant w catalog token pre st0) k' Hk').
Qed.

(** The ledger recorded as [zeta], then [alpha]: [zeta] is re-installed
    first and its update is kept when the re-install of [alpha] rejects. *)
Lemma sync_rejected_install_stops_witness :
  let W := SyncSample.second_install_rejects (Error "disk full") in
  List.map fst (marketplaceSkills (sw_order W) (sw_config W)) = ["zeta"; "alpha"]
  /\ run_results (handleSync W "POST")
     = [ skill_result "zeta" "updated" (Some "0.9.0") (Some "1.0.0") None None;
         catalog_failure (Error "disk full") ]
  /\ run_changed (handleSync W "POST") = true.
Proof.
  intros W.
  assert (Hms : marketplaceSkills (sw_order W) (sw_config W)
                = ([("zeta", SyncSample.old_record)]
                   ++ ("alpha", SyncSample.old_record) :: [])%list)
    by (vm_compute; reflexivity).
  assert (Hpre : forall k' url',
            In k' (List.map fst [("zeta", SyncSample.old_record)]) ->
            exists res, sw_install W (install_request k' url' None) = Resolved res).
  { intros k' url' [<-|[]]. eexists. reflexivity. }
  pose proof (sync_rejected_install_stops W
                Sample.registry_with_catalog "gs://bucket/catalog.json"
                SyncSample.two_skill_catalog None
                [("zeta", SyncSample.old_record)] []
                "alpha" SyncSample.old_record
                (SyncSample.entry_of "alpha") "gs://bucket/alpha.tar.gz"
                (Error "disk full")
                Hms eq_refl eq_refl eq_refl eq_refl Hpre eq_refl
                ltac:(discriminate) eq_refl eq_refl) as (H1 & _ & H3 & _).
  split; [rewrite Hms; reflexivity|].
  split; [rewrite H1; vm_compute; reflexivity|].
  rewrite H3. vm_compute. reflexivity.
Defined.

(** X23.  The token the sync handler passes to the skill installer comes
    from one of two places: a token is returned only when a registry is
    configured, and then it is either what the credential resolver found,
    under the method [gcloud-adc], or the non-empty static token of the
    registry, under the method [token]; a static token configured beside the
    method [gcloud-adc] is never returned, and the helper can only reject
    when the resolver does. *)
Theorem resolveMarketplaceAuthToken_sources
    (garToken : Outcome (option string)) (cfg : SimpleClawConfig) :
  (forall t, resolveMarketplaceAuthToken garToken cfg = Resolved (Some t) ->
     exists reg, registry_of cfg = Some reg
       /\ ((authMethod reg = Some GcloudAdc /\ garToken = Resolved (Some t))
           \/ (authMethod reg = Some Token /\ authToken reg = Some t /\ t <> "")))
  /\ (forall e, resolveMarketplaceAuthToken garToken cfg = Rejected e ->
        garToken = Rejected e
        /\ exists reg, registry_of cfg = Some reg
                       /\ authMethod reg = Some GcloudAdc)
  /\ (forall reg, registry_of cfg = Some reg ->
        authMethod reg = Some GcloudAdc ->
        resolveMarketplaceAuthToken garToken cfg = garToken).
Proof.
  unfold resolveMarketplaceAuthToken.
  destruct (registry_of cfg) as [reg|]; [|repeat split; intros; discriminate].
  assert (Hreg : forall reg', Some reg = Some reg' -> reg' = reg)
    by (intros reg' Heq; inversion Heq; reflexivity).
  destruct (authMethod reg) as [[]|] eqn:Hm; split; [|split| |split| |split| |split].
  - intros t H. exists reg. split; [reflexivity|]. left. split; [exact Hm|exact H].
  - intros e H. split; [exact H|]. exists reg. split; [reflexivity|exact Hm].
  - reflexivity.
  - intros t H. exists reg. split; [reflexivity|]. right. split; [exact Hm|].
    unfold or_null in H. destruct (authToken reg) as [t'|]; [|discriminate].
    destruct t' as [|c t']; simpl in H; [discriminate|].
    inversion H; subst t. split; [reflexivity|discriminate].
  - intros e H. discriminate.
  - intros reg' Heq Hm'. rewrite (Hreg reg' Heq) in Hm'. congruence.
  - intros t H. discriminate.
  - intros e H. discriminate.
  - intros reg' Heq Hm'. rewrite (Hreg reg' Heq) in Hm'. congruence.
  - intros t H. discriminate.
  - intros e H. discriminate.
  - intros reg' Heq Hm'. rewrite (Hreg reg' Heq) in Hm'. congruence.
Qed.

End SyncMoreProps.

(** ** Catalog search, continued *)

Module SearchFacts.
Import CatalogFacts.

Lemma string_app_assoc (a b c : string) : ((a ++ b) ++ c = a ++ (b ++ c))%string.
Proof.
  induction a as [|x a IH]; [reflexivity|].
  change (String x ((a ++ b) ++ c) = String x (a ++ (b ++ c)))%string.
  rewrite IH. reflexivity.
Qed.

Lemma contains_trans (s q' q : string) :
  contains s q' -> contains q' q -> contains s q.
Proof.
  intros (a & b & ->) (c & d & ->).
  exists (a ++ c)%string, (d ++ b)%string.
  rewrite (string_app_assoc a c), (string_app_assoc c (q ++ d)%string),
    (string_app_assoc q d).
  reflexivity.
Qed.

Lemma plugin_hit_narrows (js : JsRuntime)
    (q q' : string) (p : MarketplacePluginEntry) :
  contains_ci js q' q -> plugin_hit js q' p -> plugin_hit js q p.
Proof.
  unfold plugin_hit, some_tag_contains_ci, contains_ci. intros Hq H.
  destruct H as [H|[H|[H|(ts & t & Hts & Hin & H)]]].
  - left. exact (contains_trans _ _ _ H Hq).
  - right; left. exact (contains_trans _ _ _ H Hq).
  - right; right; left. exact (contains_trans _ _ _ H Hq).
  - right; right; right. exists ts, t.
    repeat split; auto. exact (contains_trans _ _ _ H Hq).
Qed.

Lemma skill_hit_narrows (js : JsRuntime)
    (q q' : string) (s : MarketplaceSkillEntry) :
  contains_ci js q' q -> skill_hit js q' s -> skill_hit js q s.
Proof.
  unfold skill_hit, some_tag_contains_ci, contains_ci. intros Hq H.
  destruct H as [H|[H|(ts & t & Hts & Hin & H)]].
  - left. exact (contains_trans _ _ _ H Hq).
  - right; left. exact (contains_trans _ _ _ H Hq).
  - right; right. exists ts, t.
    repeat split; auto. exact (contains_trans _ _ _ H Hq).
Qed.

Lemma filter_sublist_mono {A} (f g : A -> bool) (l : list A) :
  (forall x, f x = true -> g x = true) ->
  sublist (List.filter f l) (List.filter g l).
Proof.
  intros Hfg. induction l as [|x l IH]; simpl; [constructor|].
  destruct (f x) eqn:Hf.
  - rewrite (Hfg x Hf). constructor. exact IH.
  - destruct (g x); [constructor|]; exact IH.
Qed.

Lemma filter_within {A} (f g : A -> bool) (l : list A) :
  (forall x, f x = true -> g x = true) ->
  List.filter f (List.filter g l) = List.filter f l.
Proof.
  intros Hfg. induction l as [|x l IH]; simpl; [reflexivity|].
  destruct (g x) eqn:Hg; simpl.
  - rewrite IH. reflexivity.
  - destruct (f x) eqn:Hf; [|exact IH].
    rewrite (Hfg x Hf) in Hg. discriminate.
Qed.

End SearchFacts.

Module SearchProps.
Import CatalogFacts SearchFacts.

(** X24.  A longer query narrows the search.  If the query [q'] contains
    the query [q] (both lower-cased), every hit for [q'] is a hit for [q],
    in the same order, and searching for [q'] among the hits for [q] finds
    what searching the whole catalog for [q'] finds. *)
Theorem searchCatalog_narrows (js : JsRuntime)
    (catalog : MarketplaceCatalog) (q q' : string) :
  contains_ci js q' q ->
  let wide := searchCatalog js catalog q in
  let narrow := searchCatalog js catalog q' in
  sublist (sr_plugins narrow) (sr_plugins wide)
  /\ sublist (sr_skills narrow) (sr_skills wide)
  /\ searchCatalog js
       {| cat_version := cat_version catalog;
          cat_updatedAt := cat_updatedAt catalog;
          cat_registry := cat_registry catalog;
          cat_plugins := sr_plugins wide;
          cat_skills := sr_skills wide |} q'
     = narrow.
Proof.
  intros Hq wide narrow. unfold wide, narrow, searchCatalog. simpl.
  assert (Hp : forall p, plugin_matches js (toLowerCase js q') p = true ->
                         plugin_matches js (toLowerCase js q) p = true).
  { intros p. rewrite !plugin_matches_spec. apply plugin_hit_narrows, Hq. }
  assert (Hs : forall s, skill_matches js (toLowerCase js q') s = true ->
                         skill_matches js (toLowerCase js q) s = true).
  { intros s. rewrite !skill_matches_spec. apply skill_hit_narrows, Hq. }
  split; [apply filter_sublist_mono, Hp|].
  split; [apply filter_sublist_mono, Hs|].
  rewrite (filter_within _ _ _ Hp), (filter_within _ _ _ Hs). reflexivity.
Qed.

Lemma searchCatalog_narrows_witness :
  sublist (sr_plugins (searchCatalog ascii_runtime Sample.MOCK_CATALOG "Memory-Core"))
          (sr_plugins (searchCatalog ascii_runtime Sample.MOCK_CATALOG "MEM")).
Proof.
  refine (proj1 (searchCatalog_narrows ascii_runtime Sample.MOCK_CATALOG "MEM" "Memory-Core" _)).
  exists "", "ory-core". reflexivity.
Defined.

(** X25.  The case of the query does not matter: a query and its
    lower-cased form find the same entries. *)
Theorem searchCatalog_ignores_query_case (js : JsRuntime)
    (catalog : MarketplaceCatalog)
    (query : string) :
  searchCatalog js catalog (toLowerCase js query) = searchCatalog js catalog query.
Proof.
  unfold searchCatalog. rewrite toLowerCase_idem. reflexivity.
Qed.

End SearchProps.
